(** * Viscose uploader: cell resolution and synchronisation

    A shallow embedding of [viscose_uploader] (google_client.py, uploader.py,
    state.py, stats.py) and the properties of its specification.

    Modelling conventions.
    - Python [str] is [string]; the character classes used by the code
      ([str.strip], [str.lower], [str.upper], [str.isalpha], [str.isdigit],
      the regular expressions of [_normalize_name] and [_letters_only]) are
      taken on ASCII.
    - Python [int] is [Z], also for row and column indexes; [Py.index] is
      list indexing with Python's negative indexes.
    - Python [float] is [Q]: scores are compared and subtracted exactly.
    - dictionaries are [gmap]; lists are [list].
    - the Sheets API is a map from spreadsheet ids to worksheets; every
      request the client sends is logged in [calls]. *)

From Stdlib Require Import ZArith QArith Qabs Qminmax Qround Lqa.
From Stdlib Require Import Ascii String DecimalString DecimalPos.
From stdpp Require Import gmap strings list fin_maps.

Local Open Scope string_scope.
Local Open Scope Z_scope.

(** ** Characters and strings *)

Module Str.

Definition code (c : ascii) : Z := Z.of_N (N_of_ascii c).

Definition chr (z : Z) : ascii := ascii_of_N (Z.to_N z).

(** [c.isspace()] on ASCII: TAB..CR, FS..US and the blank. *)
Definition isspace (c : ascii) : bool :=
  let n := code c in
  ((9 <=? n) && (n <=? 13)) || ((28 <=? n) && (n <=? 32)).

Definition isupper (c : ascii) : bool :=
  let n := code c in (65 <=? n) && (n <=? 90).

Definition islower (c : ascii) : bool :=
  let n := code c in (97 <=? n) && (n <=? 122).

Definition isalpha (c : ascii) : bool := isupper c || islower c.

Definition isdigit (c : ascii) : bool :=
  let n := code c in (48 <=? n) && (n <=? 57).

Definition lower_char (c : ascii) : ascii :=
  if isupper c then chr (code c + 32) else c.

Definition upper_char (c : ascii) : ascii :=
  if islower c then chr (code c - 32) else c.

Fixpoint map (f : ascii -> ascii) (s : string) : string :=
  match s with
  | EmptyString => EmptyString
  | String c r => String (f c) (map f r)
  end.

Fixpoint filter (p : ascii -> bool) (s : string) : string :=
  match s with
  | EmptyString => EmptyString
  | String c r => if p c then String c (filter p r) else filter p r
  end.

Fixpoint forallb (p : ascii -> bool) (s : string) : bool :=
  match s with
  | EmptyString => true
  | String c r => p c && forallb p r
  end.

(** [s.lower()] and [s.upper()] *)
Definition lower (s : string) : string := map lower_char s.
Definition upper (s : string) : string := map upper_char s.

Definition is_empty (s : string) : bool :=
  match s with EmptyString => true | String _ _ => false end.

Fixpoint lstrip (s : string) : string :=
  match s with
  | EmptyString => EmptyString
  | String c r => if isspace c then lstrip r else s
  end.

Fixpoint rstrip (s : string) : string :=
  match s with
  | EmptyString => EmptyString
  | String c r =>
      let r' := rstrip r in
      if isspace c && is_empty r' then EmptyString else String c r'
  end.

(** [s.strip()] *)
Definition strip (s : string) : string := rstrip (lstrip s).

(** [str(n)] for an integer *)
Definition of_Z (z : Z) : string := NilZero.string_of_int (Z.to_int z).

End Str.

(** ** Cell references (google_client.py, module level) *)

(** The loop of [_column_letter]; [fuel] bounds the number of iterations. *)
Fixpoint column_letter_loop (fuel : nat) (current : Z) (result : string) : string :=
  match fuel with
  | O => result
  | S fuel' =>
      if 0 <? current then
        let (q, remainder) := Z.div_eucl (current - 1) 26 in
        column_letter_loop fuel' q (String (Str.chr (65 + remainder)) result)
      else result
  end.

(** [current] shrinks at every turn of the loop, so [index] turns are enough. *)
Definition _column_letter (index : Z) : string :=
  let result := column_letter_loop (Z.to_nat index) index "" in
  if Str.is_empty result then "A" else result.

(** The first loop of [_cell_to_indexes]: split into letters and digits;
    [None] when a letter follows a digit or a character is neither. *)
Fixpoint split_cell (cell letters digits : string) : option (string * string) :=
  match cell with
  | EmptyString => Some (letters, digits)
  | String char rest =>
      if Str.isalpha char then
        if negb (Str.is_empty digits) then None
        else split_cell rest (letters ++ String char "") digits
      else if Str.isdigit char then
        split_cell rest letters (digits ++ String char "")
      else None
  end.

(** The second loop: base-26 value of the letters. *)
Fixpoint col_index_loop (letters : string) (col_index : Z) : Z :=
  match letters with
  | EmptyString => col_index
  | String char rest => col_index_loop rest (col_index * 26 + (Str.code char - 64))
  end.

(** [int(digits)] on a string of ASCII digits. *)
Fixpoint int_loop (digits : string) (acc : Z) : Z :=
  match digits with
  | EmptyString => acc
  | String char rest => int_loop rest (acc * 10 + (Str.code char - 48))
  end.

Definition _cell_to_indexes (cell : string) : option (Z * Z) :=
  if Str.is_empty cell then None
  else
    let cell := Str.upper (Str.strip cell) in
    match split_cell cell "" "" with
    | None => None
    | Some (letters, digits) =>
        if Str.is_empty letters || Str.is_empty digits then None
        else
          let col_index := col_index_loop letters 0 in
          let row_index := int_loop digits 0 in
          if row_index <=? 0 then None
          else Some (row_index - 1, col_index - 1)
    end.

(** [_normalize_name]: lower-case, then drop everything outside [a-z0-9]. *)
Definition _normalize_name (text : string) : string :=
  Str.filter (fun c => Str.islower c || Str.isdigit c) (Str.lower text).

(** [_letters_only]: lower-case, then drop everything outside [a-z]. *)
Definition _letters_only (text : string) : string :=
  Str.filter Str.islower (Str.lower text).

(** ** Python sequences *)

Module Py.

(** [len(l)] *)
Definition len {A} (l : list A) : Z := Z.of_nat (length l).

(** [l[i]] with Python's negative indexes; [None] stands for IndexError. *)
Definition index {A} (l : list A) (i : Z) : option A :=
  if 0 <=? i then l !! Z.to_nat i
  else if 0 <=? len l + i then l !! Z.to_nat (len l + i)
  else None.

(** [l[:n]] for a non-negative constant [n] *)
Definition prefix {A} (n : nat) (l : list A) : list A := take n l.

(** [l[-n:]] for a positive constant [n] *)
Definition suffix {A} (n : nat) (l : list A) : list A :=
  drop (length l - n) l.

(** [x in l] on a list of strings *)
Definition mem (x : string) (l : list string) : bool :=
  existsb (String.eqb x) l.

Definition mem_Z (x : Z) (l : list Z) : bool := existsb (Z.eqb x) l.

(** Truth value of an [Optional[str]]: neither [None] nor empty. *)
Definition truthy (o : option string) : bool :=
  match o with
  | Some s => negb (Str.is_empty s)
  | None => false
  end.

End Py.

(** ** Worksheet grids *)

(** A cell of a value grid as the Sheets API returns it: text or a number. *)
Inductive cell : Type :=
| CStr (s : string)
| CNum (q : Q).

Definition grid : Type := list (list cell).

(** [isinstance(v, str) and v.strip().lower() == key] *)
Definition cell_is_key (v : cell) (key : string) : bool :=
  match v with
  | CStr s => String.eqb (Str.lower (Str.strip s)) key
  | CNum _ => false
  end.

(** [isinstance(v, str) and v.strip().lower() in candidates] *)
Definition cell_in (v : cell) (candidates : list string) : bool :=
  match v with
  | CStr s => Py.mem (Str.lower (Str.strip s)) candidates
  | CNum _ => false
  end.

(** [a == b] on two cells *)
Definition cell_eqb (a b : cell) : bool :=
  match a, b with
  | CStr s, CStr t => String.eqb s t
  | CNum p, CNum q => Qeq_bool p q
  | _, _ => false
  end.

(** The cell reference [f"{_column_letter(col)}{row}"] *)
Definition cell_ref (col row : Z) : string := _column_letter col ++ Str.of_Z row.

(** ** Pure helpers of [GoogleSheetsClient] *)

(** [headers] as [resolve_target_cell] normalises them. *)
Definition normalize_headers (header_candidates : list string) : list string :=
  let headers :=
    List.map (fun item => Str.lower (Str.strip item))
      (List.filter (fun item => negb (Str.is_empty (Str.strip item))) header_candidates) in
  match headers with
  | [] => ["your score"%string]
  | _ => headers
  end.

(** Inner loop of [_find_progress_column]; [idx] is the 1-based column. *)
Fixpoint find_progress_row (row : list cell) (idx : Z) : option Z :=
  match row with
  | [] => None
  | value :: rest =>
      if cell_is_key value "progress" then Some idx
      else find_progress_row rest (idx + 1)
  end.

Fixpoint find_progress_rows (rows : grid) : option Z :=
  match rows with
  | [] => None
  | row :: rest =>
      match find_progress_row row 1 with
      | Some idx => Some idx
      | None => find_progress_rows rest
      end
  end.

Definition _find_progress_column (sheet_values : grid) : option Z :=
  find_progress_rows (Py.prefix 200 sheet_values).

(** Inner loop of [_find_score_columns]. *)
Fixpoint score_columns_row (header_candidates : list string) (row : list cell)
    (idx : Z) (columns : list Z) : list Z :=
  match row with
  | [] => columns
  | value :: rest =>
      let columns :=
        if cell_in value header_candidates then
          if Py.mem_Z idx columns then columns else (columns ++ [idx])%list
        else columns in
      score_columns_row header_candidates rest (idx + 1) columns
  end.

Definition _find_score_columns (sheet_values : grid) (header_candidates : list string)
    : list Z :=
  fold_left (fun columns row => score_columns_row header_candidates row 1 columns)
    (Py.prefix 200 sheet_values) [].

Definition _select_score_column (scenario_col : Z) (score_columns : list Z)
    (progress_col : option Z) : Z :=
  match score_columns with
  | first :: _ => first
  | [] =>
      match progress_col with
      | Some p => if 1 <? p then p - 1 else Z.max 1 (scenario_col + 3)
      | None => Z.max 1 (scenario_col + 3)
      end
  end.

Definition _scenario_cell_matches (sheet_values : grid) (scenario_cell : string)
    (scenario_key : string) : bool :=
  match _cell_to_indexes scenario_cell with
  | None => false
  | Some (row_idx, col_idx) =>
      if Py.len sheet_values <=? row_idx then false
      else
        match Py.index sheet_values row_idx with
        | None => false
        | Some row =>
            if Py.len row <=? col_idx then false
            else
              match Py.index row col_idx with
              | Some cell_value => cell_is_key cell_value scenario_key
              | None => false
              end
        end
  end.

(** Body of the loop of [_score_cell_matches] for one row: [true] when the
    row makes the function return [True]. *)
Definition score_row_matches (header_candidates : list string) (col_idx : Z)
    (progress_col : option Z) (row : list cell) : bool :=
  if col_idx <? Py.len row then
    match Py.index row col_idx with
    | None => false
    | Some cell_value =>
        if cell_in cell_value header_candidates then true
        else
          match progress_col with
          | None => false
          | Some p =>
              let progress_zero := p - 1 in
              (col_idx =? progress_zero + 1)
              && (progress_zero <? Py.len row)
              && match Py.index row progress_zero with
                 | Some v => cell_is_key v "progress"
                 | None => false
                 end
          end
    end
  else false.

Definition _score_cell_matches (sheet_values : grid) (score_cell : string)
    (header_candidates : list string) : bool :=
  match _cell_to_indexes score_cell with
  | None => false
  | Some (_, col_idx) =>
      let progress_col := _find_progress_column sheet_values in
      let limit := Z.to_nat (Z.min (Py.len sheet_values) 200) in
      existsb (score_row_matches header_candidates col_idx progress_col)
        (Py.prefix limit sheet_values)
  end.

(** ** The remote spreadsheet service and the client's state *)

(** A parsed JSON document, as [json.load] returns it; an object is the list
    of the items of the resulting [dict] (keys pairwise distinct). *)
#[warnings="-register-all"] Inductive json : Type :=
| JNull
| JBool (b : bool)
| JInt (z : Z)
| JFloat (q : Q)
| JStr (s : string)
| JArr (items : list json)
| JObj (items : list (string * json)).

(** The worksheets of one spreadsheet, in listed order, each with the value
    grid that a read of the whole worksheet returns. *)
Definition workbook : Type := list (string * grid).

(** Requests sent to the Sheets API. *)
Inductive call : Type :=
| SheetsGet (spreadsheet_id : string)
| ValuesGet (spreadsheet_id worksheet : string)
| ValuesUpdate (spreadsheet_id range : string) (value : Q).

Inductive exn : Type :=
| GoogleClientError (msg : string)
| UnboundLocalError (name : string)
| AttributeError
| HttpError
| StatsParseError (msg : string)
| UnicodeDecodeError
| CsvError
| TypeError
| ValueError
| OverflowError.

Inductive result (A : Type) : Type :=
| Ok (a : A)
| Raise (e : exn).
Arguments Ok {A} a.
Arguments Raise {A} e.

(** Everything a pass can read or change: the two caches of the
    [GoogleSheetsClient] object, the remote spreadsheets, the requests made
    so far (oldest first) and the content of state.json. *)
Record world : Type := World {
  _sheet_cache : gmap (string * string) grid;
  _sheet_list_cache : gmap string (list string);
  service : gmap string workbook;
  calls : list call;
  state_file : option json
}.

Definition M (A : Type) : Type := world -> result A * world.

Definition ret {A} (a : A) : M A := fun w => (Ok a, w).

Definition raise {A} (e : exn) : M A := fun w => (Raise e, w).

Definition bind {A B} (m : M A) (k : A -> M B) : M B :=
  fun w =>
    match m w with
    | (Ok a, w') => k a w'
    | (Raise e, w') => (Raise e, w')
    end.

Notation "x <- m ;; k" := (bind m (fun x => k))
  (at level 100, m at next level, right associativity).

(** [try: m  except GoogleClientError: ...]: [None] when [m] raised it. *)
Definition try_google {A} (m : M A) : M (option A) :=
  fun w =>
    match m w with
    | (Ok a, w') => (Ok (Some a), w')
    | (Raise (GoogleClientError _), w') => (Ok None, w')
    | (Raise e, w') => (Raise e, w')
    end.

Definition log (c : call) : M unit :=
  fun w => (Ok tt, World (_sheet_cache w) (_sheet_list_cache w) (service w)
                     (calls w ++ [c])%list (state_file w)).

Definition workbook_values (wb : workbook) (worksheet : string) : option grid :=
  snd <$> List.find (fun sheet => String.eqb (fst sheet) worksheet) wb.

(** Writing one cell pads the grid with empty rows and empty cells. *)
Fixpoint row_set (row : list cell) (c : nat) (v : cell) : list cell :=
  match c, row with
  | O, [] => [v]
  | O, _ :: rest => v :: rest
  | S c', [] => CStr "" :: row_set [] c' v
  | S c', x :: rest => x :: row_set rest c' v
  end.

Fixpoint grid_set (g : grid) (r c : nat) (v : cell) : grid :=
  match r, g with
  | O, [] => [row_set [] c v]
  | O, row :: rest => row_set row c v :: rest
  | S r', [] => [] :: grid_set [] r' c v
  | S r', row :: rest => row :: grid_set rest r' c v
  end.

(** The range ['Title'!A1] names a cell of the worksheet [Title]; the first
    worksheet whose quoted title starts the range is written. *)
Fixpoint workbook_update (wb : workbook) (range : string) (value : Q)
    : option workbook :=
  match wb with
  | [] => None
  | (title, g) :: rest =>
      let quoted := "'" ++ title ++ "'!" in
      if String.prefix quoted range then
        match _cell_to_indexes
                (String.substring (String.length quoted)
                   (String.length range - String.length quoted) range) with
        | Some (r, c) =>
            Some ((title, grid_set g (Z.to_nat r) (Z.to_nat c) (CNum value)) :: rest)
        | None => None
        end
      else
        match workbook_update rest range value with
        | Some rest' => Some ((title, g) :: rest')
        | None => None
        end
  end.

(** ** [GoogleSheetsClient] *)

Definition _get_sheet_values (spreadsheet_id worksheet : string) : M grid :=
  fun w =>
    match _sheet_cache w !! (spreadsheet_id, worksheet) with
    | Some values => (Ok values, w)
    | None =>
        let calls' := (calls w ++ [ValuesGet spreadsheet_id worksheet])%list in
        match service w !! spreadsheet_id ≫= (fun wb => workbook_values wb worksheet) with
        | None =>
            (Raise (GoogleClientError ("Failed to read worksheet '" ++ worksheet ++ "'")),
             World (_sheet_cache w) (_sheet_list_cache w) (service w) calls' (state_file w))
        | Some values =>
            (Ok values,
             World (<[(spreadsheet_id, worksheet) := values]> (_sheet_cache w))
               (_sheet_list_cache w) (service w) calls' (state_file w))
        end
    end.

(** Lines 57-74 of [resolve_target_cell]: the worksheet titles. *)
Definition list_sheet_titles (spreadsheet_id : string) : M (list string) :=
  fun w =>
    match _sheet_list_cache w !! spreadsheet_id with
    | Some sheet_titles => (Ok sheet_titles, w)
    | None =>
        let calls' := (calls w ++ [SheetsGet spreadsheet_id])%list in
        match service w !! spreadsheet_id with
        | None =>
            (Raise (GoogleClientError "Failed to list sheets"),
             World (_sheet_cache w) (_sheet_list_cache w) (service w) calls' (state_file w))
        | Some wb =>
            let sheet_titles := List.map fst wb in
            (Ok sheet_titles,
             World (_sheet_cache w)
               (<[spreadsheet_id := sheet_titles]> (_sheet_list_cache w))
               (service w) calls' (state_file w))
        end
    end.

Definition update_cell (spreadsheet_id cell_ref : string) (value : Q) : M unit :=
  fun w =>
    let calls' := (calls w ++ [ValuesUpdate spreadsheet_id cell_ref value])%list in
    match service w !! spreadsheet_id ≫= (fun wb => workbook_update wb cell_ref value) with
    | None =>
        (Raise HttpError,
         World (_sheet_cache w) (_sheet_list_cache w) (service w) calls' (state_file w))
    | Some wb' =>
        (Ok tt,
         World (_sheet_cache w) (_sheet_list_cache w)
           (<[spreadsheet_id := wb']> (service w)) calls' (state_file w))
    end.

(** *** [resolve_target_cell], lines 80-126: the search *)

(** The variables the scan assigns: [scenario_cell] and [score_cell] (unbound
    before the first match) and [best_fallback]. *)
Record scan_state : Type := ScanState {
  scan_cells : option (string * string);
  best_fallback : option (string * string * string * Z)
}.

Record scenario_keys : Type := ScenarioKeys {
  scenario_key : string;
  scenario_norm : string;
  scenario_letters : string
}.

Definition keys_of (scenario_name : string) : scenario_keys :=
  ScenarioKeys (Str.lower (Str.strip scenario_name))
    (_normalize_name scenario_name) (_letters_only scenario_name).

(** Body of the inner loop (lines 94-119) for one cell. *)
Definition scan_cell (k : scenario_keys) (title : string) (score_columns : list Z)
    (progress_col : option Z) (row_idx col_idx : Z) (c : cell) (st : scan_state)
    : scan_state :=
  let st :=
    if cell_is_key c (scenario_key k) then
      let scenario_cell := cell_ref col_idx row_idx in
      let score_col_idx := _select_score_column col_idx score_columns progress_col in
      let score_cell := cell_ref score_col_idx row_idx in
      ScanState (Some (scenario_cell, score_cell)) (best_fallback st)
    else st in
  match c with
  | CNum _ => st
  | CStr text =>
      let cell_norm := _normalize_name text in
      let cell_letters := _letters_only text in
      if String.eqb cell_norm (scenario_norm k)
         || String.eqb cell_letters (scenario_letters k) then
        let scenario_cell := cell_ref col_idx row_idx in
        let score_col_idx := _select_score_column col_idx score_columns progress_col in
        let score_cell := cell_ref score_col_idx row_idx in
        let diff :=
          Z.abs (Z.of_nat (String.length cell_norm)
                 - Z.of_nat (String.length (scenario_norm k))) in
        let better :=
          match best_fallback st with
          | None => true
          | Some (_, _, _, best_diff) => diff <? best_diff
          end in
        if better then
          ScanState (Some (scenario_cell, score_cell))
            (Some (title, score_cell, scenario_cell, diff))
        else ScanState (Some (scenario_cell, score_cell)) (best_fallback st)
      else st
  end.

Fixpoint scan_row (k : scenario_keys) (title : string) (score_columns : list Z)
    (progress_col : option Z) (row_idx col_idx : Z) (row : list cell)
    (st : scan_state) : scan_state :=
  match row with
  | [] => st
  | c :: rest =>
      scan_row k title score_columns progress_col row_idx (col_idx + 1) rest
        (scan_cell k title score_columns progress_col row_idx col_idx c st)
  end.

Fixpoint scan_rows (k : scenario_keys) (title : string) (score_columns : list Z)
    (progress_col : option Z) (row_idx : Z) (rows : grid) (st : scan_state)
    : scan_state :=
  match rows with
  | [] => st
  | row :: rest =>
      scan_rows k title score_columns progress_col (row_idx + 1) rest
        (scan_row k title score_columns progress_col row_idx 1 row st)
  end.

(** Lines 90-119 for one worksheet. *)
Definition scan_sheet (k : scenario_keys) (headers : list string) (title : string)
    (values : grid) (st : scan_state) : scan_state :=
  let progress_col := _find_progress_column values in
  let score_columns := _find_score_columns values headers in
  scan_rows k title score_columns progress_col 1 values st.

(** The loop over the worksheet titles (lines 82-119). *)
Fixpoint scan_titles (spreadsheet_id : string) (k : scenario_keys)
    (headers : list string) (allowed_titles : option (list string))
    (sheet_titles : list string) (st : scan_state) : M scan_state :=
  match sheet_titles with
  | [] => ret st
  | title :: rest =>
      let skip :=
        match allowed_titles with
        | Some allowed => negb (Py.mem title allowed)
        | None => false
        end in
      if skip then scan_titles spreadsheet_id k headers allowed_titles rest st
      else
        values <- _get_sheet_values spreadsheet_id title ;;
        match values with
        | [] => scan_titles spreadsheet_id k headers allowed_titles rest st
        | _ =>
            scan_titles spreadsheet_id k headers allowed_titles rest
              (scan_sheet k headers title values st)
        end
  end.

Definition not_found_message (scenario_name : string) : string :=
  "Could not locate scenario '" ++ scenario_name
  ++ "' or an update column in the Google Sheet.".

(** Lines 57-126: what runs when the cached hint is absent or rejected. *)
Definition resolve_by_search (spreadsheet_id scenario_name : string)
    (headers : list string) (worksheet_filter : option (list string))
    : M (string * string * string) :=
  sheet_titles <- list_sheet_titles spreadsheet_id ;;
  let allowed_titles :=
    match worksheet_filter with
    | Some (t :: ts) => Some (List.map Str.strip (t :: ts))
    | _ => None
    end in
  st <- scan_titles spreadsheet_id (keys_of scenario_name) headers allowed_titles
          sheet_titles (ScanState None None) ;;
  match best_fallback st with
  | Some (title, score_cell, scenario_cell, _) => ret (title, score_cell, scenario_cell)
  | None => raise (GoogleClientError (not_found_message scenario_name))
  end.

Definition resolve_target_cell (spreadsheet_id scenario_name : string)
    (header_candidates : list string) (worksheet_filter : option (list string))
    (cached_sheet cached_score_cell cached_scenario_cell : option string)
    : M (string * string * string) :=
  let headers := normalize_headers header_candidates in
  let search := resolve_by_search spreadsheet_id scenario_name headers worksheet_filter in
  match cached_sheet, cached_score_cell, cached_scenario_cell with
  | Some sheet, Some score_cell, Some scenario_cell =>
      if Py.truthy cached_sheet && Py.truthy cached_score_cell
         && Py.truthy cached_scenario_cell then
        cached_values <- _get_sheet_values spreadsheet_id sheet ;;
        if _scenario_cell_matches cached_values scenario_cell
             (scenario_key (keys_of scenario_name))
           && _score_cell_matches cached_values score_cell headers
        then ret (sheet, score_cell, scenario_cell)
        else search
      else search
  | _, _, _ => search
  end.

(** *** [find_mirror_cells] *)

(** [header_set]: the candidates, trimmed and lower-cased, and "high score". *)
Definition mirror_header_set (header_candidates : list string) : list string :=
  (List.map (fun item => Str.lower (Str.strip item))
     (List.filter (fun item => negb (Str.is_empty item)) header_candidates)
   ++ ["high score"%string])%list.

(** [not isinstance(v, str) or not v.strip()] *)
Definition cell_blank (v : cell) : bool :=
  match v with
  | CStr s => Str.is_empty (Str.strip s)
  | CNum _ => true
  end.

(** The loop over [values[:20]] (lines 267-288): the first row that carries
    a header at the score column decides, then the loop is left. *)
Fixpoint mirror_header_scan (header_set : list string) (score_col : Z)
    (rows : grid) : list Z :=
  match rows with
  | [] => []
  | header_row :: rest =>
      if score_col <=? Py.len header_row then
        match Py.index header_row (score_col - 1) with
        | Some header_val =>
            if cell_in header_val header_set then
              let neighbour :=
                if score_col <? Py.len header_row
                then default (CStr "") (Py.index header_row score_col)
                else CStr "" in
              let progress_candidate :=
                if score_col + 1 <? Py.len header_row
                then default (CStr "") (Py.index header_row (score_col + 1))
                else CStr "" in
              if cell_blank neighbour && cell_is_key progress_candidate "progress"
              then [score_col + 1]
              else []
            else mirror_header_scan header_set score_col rest
        | None => mirror_header_scan header_set score_col rest
        end
      else mirror_header_scan header_set score_col rest
  end.

(** [find_mirror_cells] once the grid is at hand. The variable [row] is
    assigned only when [row_idx < len(values)] (line 291) and read on the
    next line whatever the case. *)
Definition mirror_cells_of (values : grid) (score_cell : string)
    (header_candidates : list string) : result (list string) :=
  match _cell_to_indexes score_cell with
  | None => Ok []
  | Some (row_idx, col_idx) =>
      let score_col := col_idx + 1 in
      let header_set := mirror_header_set header_candidates in
      let mirrors := mirror_header_scan header_set score_col (Py.prefix 20 values) in
      let row :=
        if row_idx <? Py.len values then Py.index values row_idx else None in
      match row with
      | None => Raise (UnboundLocalError "row")
      | Some row =>
          let mirrored :=
            (col_idx + 1 <? Py.len row)
            && match Py.index row col_idx, Py.index row (col_idx + 1) with
               | Some a, Some b => cell_eqb a b
               | _, _ => false
               end in
          let mirrors :=
            if mirrored then
              let mirror_col := score_col + 1 in
              if Py.mem_Z mirror_col mirrors then mirrors
              else (mirrors ++ [mirror_col])%list
            else mirrors in
          Ok (List.map (fun col => cell_ref col (row_idx + 1)) mirrors)
      end
  end.

Definition find_mirror_cells (spreadsheet_id worksheet score_cell : string)
    (header_candidates : list string) : M (list string) :=
  values <- _get_sheet_values spreadsheet_id worksheet ;;
  fun w => (mirror_cells_of values score_cell header_candidates, w).

(** ** Numbers *)

(** [a > b] on floats *)
Definition Qgtb (a b : Q) : bool := negb (Qle_bool a b).

(** [math.isclose(a, b, rel_tol=rel_tol, abs_tol=abs_tol)] *)
Definition isclose (a b rel_tol abs_tol : Q) : bool :=
  Qeq_bool a b
  || Qle_bool (Qabs (a - b)) (Qmax (rel_tol * Qmax (Qabs a) (Qabs b)) abs_tol).

Definition tolerance : Q := 1 # 1000000.

(** ** state.py, stats.py and uploader.py *)

Record ScenarioState : Type := mkScenarioState {
  best_score : option Q;
  worksheet : option string;
  score_cell : option string;
  scenario_cell : option string
}.

Record AppState : Type := mkAppState {
  scenarios : gmap string ScenarioState;
  processed_files : list string
}.

Record ScenarioRun : Type := mkScenarioRun {
  scenario : string;
  score : Q;
  source_file : string
}.

(** A file under the stats root: its path and what reading it gives.
    [rows] are the rows [csv.reader] yields, [None] when the file cannot be
    opened or read (FileNotFoundError, OSError). [failure] is the exception,
    other than an OSError, that ends the reading after these rows:
    [UnicodeDecodeError] on bytes that are not UTF-8, [CsvError] from the
    reader; [None] when the file is read to its end. *)
Record stats_file : Type := mkStatsFile {
  path : string;
  rows : option (list (list string));
  failure : option exn
}.

Record AppConfig : Type := mkAppConfig {
  sheet_id : string;
  score_header_candidates : list string;
  worksheet_filter : option (list string)
}.

(** [AppState.scenario_entry]: the entry of [name], created and stored when
    it is missing. *)
Definition scenario_entry (state : AppState) (name : string)
    : ScenarioState * AppState :=
  match scenarios state !! name with
  | Some entry => (entry, state)
  | None =>
      let entry := mkScenarioState None None None None in
      (entry, mkAppState (<[name := entry]> (scenarios state)) (processed_files state))
  end.

(** An assignment to a field of the entry of [name] is seen through
    [state.scenarios]. *)
Definition store_entry (state : AppState) (name : string) (entry : ScenarioState)
    : AppState :=
  mkAppState (<[name := entry]> (scenarios state)) (processed_files state).

(** [f"'{worksheet}'!{cell}"] *)
Definition range_ref (worksheet cell : string) : string :=
  "'" ++ worksheet ++ "'!" ++ cell.

(** Lines 62-68 of [process_once]. *)
Definition is_new_personal_best (current_best : option Q) (run_score : Q) : bool :=
  match current_best with
  | None => true
  | Some best => Qgtb run_score best
  end.

Definition target_value (current_best : option Q) (run_score : Q) : Q :=
  if is_new_personal_best current_best run_score then run_score
  else default run_score current_best.

(** Lines 74-76: [sheet_value is not None and math.isclose(...)]. *)
Definition value_is_close (sheet_value : option Q) (target : Q) : bool :=
  match sheet_value with
  | Some v => isclose v target tolerance tolerance
  | None => false
  end.

Definition jget (key : string) (items : list (string * json)) : option json :=
  snd <$> List.find (fun item => String.eqb (fst item) key) items.

Definition json_of_float (x : option Q) : json :=
  match x with Some q => JFloat q | None => JNull end.

Definition json_of_str (x : option string) : json :=
  match x with Some s => JStr s | None => JNull end.

(** The item [save_state] writes for one scenario. *)
Definition entry_payload (item : string * ScenarioState) : string * json :=
  (item.1,
   JObj [ ("best_score"%string, json_of_float (best_score item.2));
          ("worksheet"%string, json_of_str (worksheet item.2));
          ("score_cell"%string, json_of_str (score_cell item.2));
          ("scenario_cell"%string, json_of_str (scenario_cell item.2)) ]).

(** The least integer that [float] does not convert: halfway between the
    largest double and [2 ^ 1024], it rounds up. *)
Definition float_overflow : Z := 2 ^ 1024 - 2 ^ 970.

Section Builtins.

(** Two builtins of the Python runtime stay abstract: [float(s)] on a
    string ([None] for ValueError) and [str(v)] on a JSON value that is
    not a string. *)
Variable float_of_str : string -> option Q.
Variable repr_of_json : json -> string.

(** [str(value)] *)
Definition py_str (value : json) : string :=
  match value with
  | JStr s => s
  | _ => repr_of_json value
  end.

(** [float(value)]: an integer beyond the range of a double raises
    OverflowError. *)
Definition py_float (value : json) : result Q :=
  match value with
  | JInt z =>
      if Z.abs z <? float_overflow then Ok (inject_Z z) else Raise OverflowError
  | JFloat q => Ok q
  | JBool b => Ok (if b then 1%Q else 0%Q)
  | JStr s =>
      match float_of_str s with
      | Some q => Ok q
      | None => Raise ValueError
      end
  | JNull | JArr _ | JObj _ => Raise TypeError
  end.

(** *** google_client.py: [get_numeric_cell] *)

Definition numeric_cell_of (values : grid) (cell_ref : string) : option Q :=
  match _cell_to_indexes cell_ref with
  | None => None
  | Some (row_idx, col_idx) =>
      if Py.len values <=? row_idx then None
      else
        match Py.index values row_idx with
        | None => None
        | Some row =>
            if Py.len row <=? col_idx then None
            else
              match Py.index row col_idx with
              | Some (CNum q) => Some q
              | Some (CStr cell_value) =>
                  let cleaned :=
                    Str.strip
                      (Str.filter (fun c => negb (Ascii.eqb c ","%char)) cell_value) in
                  if Str.is_empty cleaned then None else float_of_str cleaned
              | None => None
              end
        end
  end.

Definition get_numeric_cell (spreadsheet_id worksheet cell_ref : string)
    : M (option Q) :=
  values <- _get_sheet_values spreadsheet_id worksheet ;;
  ret (numeric_cell_of values cell_ref).

(** *** state.py *)

Definition _optional_str (value : option json) : option string :=
  match value with
  | None | Some JNull => None
  | Some v =>
      let text := Str.strip (py_str v) in
      if Str.is_empty text then None else Some text
  end.

(** [_to_optional_float]: TypeError and ValueError are caught, any other
    exception of [float] goes on to the caller. *)
Definition _to_optional_float (value : option json) : result (option Q) :=
  match value with
  | None | Some JNull => Ok None
  | Some v =>
      match py_float v with
      | Ok q => Ok (Some q)
      | Raise TypeError | Raise ValueError => Ok None
      | Raise e => Raise e
      end
  end.

(** The loop of [load_state] over [scenarios_raw.items()]. *)
Fixpoint load_scenarios (items : list (string * json))
    (scenarios : gmap string ScenarioState) : result (gmap string ScenarioState) :=
  match items with
  | [] => Ok scenarios
  | (name, JObj data) :: rest =>
      match _to_optional_float (jget "best_score" data) with
      | Raise e => Raise e
      | Ok best =>
          load_scenarios rest
            (<[name := mkScenarioState best
                         (_optional_str (jget "worksheet" data))
                         (_optional_str (jget "score_cell" data))
                         (_optional_str (jget "scenario_cell" data))]> scenarios)
      end
  | _ :: rest => load_scenarios rest scenarios
  end.

(** The legacy layout: [processed_files] under each scenario. *)
Fixpoint legacy_processed (items : list (string * json)) : list string :=
  match items with
  | [] => []
  | (_, JObj entry) :: rest =>
      match jget "processed_files" entry with
      | Some (JArr files) => (List.map py_str files ++ legacy_processed rest)%list
      | _ => legacy_processed rest
      end
  | _ :: rest => legacy_processed rest
  end.

(** [load_state]; the argument is the parsed content of state.json, [None]
    when the file does not exist. *)
Definition load_state (file : option json) : result AppState :=
  match file with
  | None => Ok (mkAppState ∅ [])
  | Some (JObj raw) =>
      let processed_files :=
        match jget "processed_files" raw with
        | Some (JArr l) => l
        | _ => []
        end in
      let scenarios_raw := default (JObj []) (jget "scenarios" raw) in
      let scenarios :=
        match scenarios_raw with
        | JObj items => load_scenarios items ∅
        | _ => Ok ∅
        end in
      let processed :=
        match processed_files, scenarios_raw with
        | [], JObj items =>
            match legacy_processed items with
            | [] => []
            | collected => Py.suffix 500 collected
            end
        | _, _ => List.map py_str processed_files
        end in
      match scenarios with
      | Ok scenarios => Ok (mkAppState scenarios processed)
      | Raise e => Raise e
      end
  | Some _ => Raise AttributeError
  end.

(** The document [save_state] writes. *)
Definition state_payload (state : AppState) : json :=
  JObj
    [ ("processed_files"%string,
       JArr (List.map JStr (Py.suffix 500 (processed_files state))));
      ("scenarios"%string,
       JObj (List.map entry_payload (map_to_list (scenarios state)))) ].

Definition save_state (state : AppState) : M unit :=
  fun w => (Ok tt, World (_sheet_cache w) (_sheet_list_cache w) (service w)
                     (calls w) (Some (state_payload state))).

(** *** stats.py *)

(** The loop of [parse_stats_file] over the rows the reader yields;
    [ending] is the exception the reader raises after the last of them, if
    any. [_try_float] raises [StatsParseError]. *)
Fixpoint parse_rows (score_field : string) (reader : list (list string))
    (ending : option exn) (scenario : option string) (score : option Q)
    : result (option string * option Q) :=
  match reader with
  | [] =>
      match ending with
      | Some e => Raise e
      | None => Ok (scenario, score)
      end
  | row :: rest =>
      match row with
      | [] => parse_rows score_field rest ending scenario score
      | first :: _ =>
          let key := Str.strip first in
          if Str.is_empty key then parse_rows score_field rest ending scenario score
          else
            let scenario :=
              match row with
              | _ :: value :: _ =>
                  if String.eqb key "Scenario:" then Some (Str.strip value)
                  else scenario
              | _ => scenario
              end in
            let parsed : result (option Q) :=
              match row with
              | _ :: value :: _ =>
                  if String.eqb key (score_field ++ ":") then
                    match float_of_str value with
                    | Some x => Ok (Some x)
                    | None =>
                        Raise (StatsParseError
                                 ("Could not parse score value '" ++ value
                                  ++ "' as float"))
                    end
                  else Ok score
              | _ => Ok score
              end in
            match parsed with
            | Raise e => Raise e
            | Ok score =>
                if Py.truthy scenario && bool_decide (is_Some score)
                then Ok (scenario, score)
                else parse_rows score_field rest ending scenario score
            end
      end
  end.

(** [parse_stats_file(path)] with the default [score_field]. An OSError is
    turned into a [StatsParseError]; no other exception is caught. *)
Definition parse_stats_file (file : stats_file) : result ScenarioRun :=
  match rows file with
  | None => Raise (StatsParseError ("Failed to read stats file " ++ path file))
  | Some reader =>
      match parse_rows "Score" reader (failure file) None None with
      | Raise e => Raise e
      | Ok (scenario, score) =>
          if negb (Py.truthy scenario)
          then Raise (StatsParseError ("No 'Scenario:' entry found in " ++ path file))
          else
            match scenario, score with
            | Some name, Some x => Ok (mkScenarioRun name x (path file))
            | _, _ =>
                Raise (StatsParseError ("No 'Score:' entry found in " ++ path file))
            end
      end
  end.

(** *** uploader.py *)

(** The loop of [_collect_runs]; [files] are the stats files in the order
    [sorted(..., key=mtime)] gives them. Only [StatsParseError] is caught. *)
Fixpoint collect_loop (skip_processed : bool) (files : list stats_file)
    (processed_set : gset string) (processed_paths : list string)
    (runs : list ScenarioRun) : result (list ScenarioRun * list string) :=
  match files with
  | [] => Ok (runs, processed_paths)
  | csv_path :: rest =>
      let path_str := path csv_path in
      if skip_processed && bool_decide (path_str ∈ processed_set) then
        collect_loop skip_processed rest processed_set processed_paths runs
      else
        let '(processed_set, processed_paths) :=
          if bool_decide (path_str ∈ processed_set)
          then (processed_set, processed_paths)
          else ({[path_str]} ∪ processed_set, (processed_paths ++ [path_str])%list) in
        match parse_stats_file csv_path with
        | Ok run =>
            collect_loop skip_processed rest processed_set processed_paths
              (runs ++ [run])%list
        | Raise (StatsParseError _) =>
            collect_loop skip_processed rest processed_set processed_paths runs
        | Raise e => Raise e
        end
  end.

Definition _collect_runs (files : list stats_file) (processed : list string)
    (skip_processed : bool) : result (list ScenarioRun * list string) :=
  collect_loop skip_processed files (list_to_set processed) processed [].

Fixpoint update_cells (spreadsheet_id worksheet : string) (cells : list string)
    (value : Q) : M unit :=
  match cells with
  | [] => ret tt
  | extra_cell :: rest =>
      _ <- update_cell spreadsheet_id (range_ref worksheet extra_cell) value ;;
      update_cells spreadsheet_id worksheet rest value
  end.

(** Body of the loop of [process_once] (lines 41-107) for one run; the
    result is the state and the flag [updated]. *)
Definition process_run (config : AppConfig) (run : ScenarioRun)
    (acc : AppState * bool) : M (AppState * bool) :=
  let '(state, updated) := acc in
  let '(scenario_state, state) := scenario_entry state (scenario run) in
  resolved <-
    try_google
      (resolve_target_cell (sheet_id config) (scenario run)
         (score_header_candidates config) (worksheet_filter config)
         (worksheet scenario_state) (score_cell scenario_state)
         (scenario_cell scenario_state)) ;;
  match resolved with
  | None => ret (state, updated)
  | Some (worksheet, score_cell, scenario_cell) =>
      let current_best := best_score scenario_state in
      let is_new := is_new_personal_best current_best (score run) in
      let target := target_value current_best (score run) in
      let scenario_state :=
        mkScenarioState
          (if is_new then Some (score run) else current_best)
          (Some worksheet) (Some score_cell) (Some scenario_cell) in
      let state := store_entry state (scenario run) scenario_state in
      sheet_value <- get_numeric_cell (sheet_id config) worksheet score_cell ;;
      if value_is_close sheet_value target && negb is_new then ret (state, updated)
      else
        mirror_cells <-
          find_mirror_cells (sheet_id config) worksheet score_cell
            (score_header_candidates config) ;;
        _ <- update_cell (sheet_id config) (range_ref worksheet score_cell) target ;;
        _ <- update_cells (sheet_id config) worksheet mirror_cells target ;;
        ret (state, true)
  end.

Fixpoint process_runs (config : AppConfig) (new_runs : list ScenarioRun)
    (acc : AppState * bool) : M (AppState * bool) :=
  match new_runs with
  | [] => ret acc
  | run :: rest =>
      acc <- process_run config run acc ;;
      process_runs config rest acc
  end.

(** [process_once]; [files] is what [iter_stats_files] finds, sorted by
    modification time. *)
Definition process_once (config : AppConfig) (files : list stats_file)
    (skip_processed : bool) : M bool :=
  fun w =>
    match load_state (state_file w) with
    | Raise e => (Raise e, w)
    | Ok state =>
        match _collect_runs files (processed_files state) skip_processed with
        | Raise e => (Raise e, w)
        | Ok ([], processed_paths) =>
            (_ <- save_state
                    (mkAppState (scenarios state) (Py.suffix 500 processed_paths)) ;;
             ret false) w
        | Ok (new_runs, processed_paths) =>
            (acc <- process_runs config new_runs (state, false) ;;
             let '(state, updated) := acc in
             _ <- save_state
                    (mkAppState (scenarios state) (Py.suffix 500 processed_paths)) ;;
             ret updated) w
        end
    end.


End Builtins.


(** ** The builtins on plain inputs

    Instances of the two abstract builtins, used to run the program on
    concrete sheets and files: [float] on signed decimal literals such as
    ["-12.50"], and [str] on [None], booleans and integers. *)

Module Plain.

(** Digits before and after the point: the integer they spell and the
    number of digits after the point; [None] on any other character. *)
Fixpoint digits_value (s : string) (seen_point : bool) (acc : Z) (frac : nat)
    (any : bool) : option (Z * nat) :=
  match s with
  | EmptyString => if any then Some (acc, frac) else None
  | String c rest =>
      if Str.isdigit c then
        digits_value rest seen_point (acc * 10 + (Str.code c - 48))
          (if seen_point then S frac else frac) true
      else if Ascii.eqb c "."%char && negb seen_point then
        digits_value rest true acc frac any
      else None
  end.

Definition float_of_str (s : string) : option Q :=
  let body := Str.strip s in
  let '(negative, body) :=
    match body with
    | String "-"%char rest => (true, rest)
    | String "+"%char rest => (false, rest)
    | _ => (false, body)
    end in
  match digits_value body false 0 0 false with
  | Some (n, frac) =>
      let q := (n # Pos.of_nat (Nat.pow 10 frac))%Q in
      Some (Qred (if negative then - q else q)%Q)
  | None => None
  end.

Definition repr_of_json (v : json) : string :=
  match v with
  | JNull => "None"
  | JBool true => "True"
  | JBool false => "False"
  | JInt z => Str.of_Z z
  | JStr s => s
  | JFloat _ | JArr _ | JObj _ => ""
  end.

End Plain.

(** ** Vocabulary of the specification *)

(** The row has, at the 1-based column [score_col], a header whose trimmed
    lower-cased text is in [header_set]. *)
Definition has_header_at (header_set : list string) (score_col : Z)
    (row : list cell) : bool :=
  (score_col <=? Py.len row)
  && match Py.index row (score_col - 1) with
     | Some v => cell_in v header_set
     | None => false
     end.

(** The cell right of the 1-based column [score_col] is blank or absent. *)
Definition neighbour_blank (score_col : Z) (row : list cell) : bool :=
  match Py.index row score_col with
  | None => true
  | Some (CStr s) => Str.is_empty (Str.strip s)
  | Some (CNum _) => false
  end.

(** The cell two to the right of the 1-based column [score_col] reads
    "Progress". *)
Definition progress_after (score_col : Z) (row : list cell) : bool :=
  match Py.index row (score_col + 1) with
  | Some v => cell_is_key v "progress"
  | None => false
  end.

(** [m] only appends to the log of requests, every appended request
    satisfies [P], and every value it returns satisfies [Q]. *)
Definition spec {A} (P : call -> Prop) (Q : A -> Prop) (m : M A) : Prop :=
  forall w r w',
    m w = (r, w') ->
    (exists l, calls w' = (calls w ++ l)%list /\ Forall P l)
    /\ (forall a, r = Ok a -> Q a).

Definition is_read (c : call) : Prop :=
  match c with
  | ValuesUpdate _ _ _ => False
  | _ => True
  end.


(** The triple of a [ScenarioState] is all-or-nothing. *)
Definition triple_invariant (entry : ScenarioState) : Prop :=
  is_Some (score_cell entry) ->
  is_Some (worksheet entry) /\ is_Some (scenario_cell entry).

(** A text field as [_optional_str] leaves it: absent, or trimmed and not
    empty. *)
Definition trimmed (o : option string) : Prop :=
  match o with
  | None => True
  | Some s => Str.strip s = s /\ s <> ""%string
  end.

Definition entry_trimmed (entry : ScenarioState) : Prop :=
  trimmed (worksheet entry) /\ trimmed (score_cell entry)
  /\ trimmed (scenario_cell entry).

(** The items of the "scenarios" object of a state file. *)
Definition scenario_items (file : option json) : list (string * json) :=
  match file with
  | Some (JObj raw) =>
      match jget "scenarios" raw with
      | Some (JObj items) => items
      | _ => []
      end
  | _ => []
  end.

(** A field of a scenario object that is missing, null or a blank string. *)
Definition json_blank (v : option json) : Prop :=
  match v with
  | None | Some JNull => True
  | Some (JStr s) => Str.strip s = ""%string
  | Some _ => False
  end.

(** A field of a scenario object that is a string with more than white
    space in it. *)
Definition json_text (v : option json) : Prop :=
  match v with
  | Some (JStr s) => Str.strip s <> ""%string
  | _ => False
  end.

(** An entry of the state after a pass is the entry [base] held under
    that name, or has its triple whole. *)
Definition kept_or_whole (base after : AppState) : Prop :=
  forall name entry,
    scenarios after !! name = Some entry ->
    scenarios base !! name = Some entry \/ triple_invariant entry.

(** The row of a stats file is an entry for [key]: its first field,
    trimmed, is [key], and it has a second field. *)
Definition keyed (key : string) (row : list string) : bool :=
  match row with
  | first :: _ :: _ => String.eqb (Str.strip first) key
  | _ => false
  end.

(** The second field of a row. *)
Definition value_of (row : list string) : string :=
  match row with
  | _ :: value :: _ => value
  | _ => ""
  end.

Definition entries (key : string) (reader : list (list string)) : list (list string) :=
  List.filter (keyed key) reader.

(** No "Scenario:" entry names a scenario. *)
Definition lacks_scenario (reader : list (list string)) : Prop :=
  forall row, row ∈ entries "Scenario:" reader -> Str.strip (value_of row) = ""%string.

Definition lacks_score (reader : list (list string)) : Prop :=
  entries "Score:" reader = [].

Definition score_unparsable (float_of_str : string -> option Q)
    (reader : list (list string)) : Prop :=
  exists row, row ∈ entries "Score:" reader /\ float_of_str (value_of row) = None.

(** [m] leaves the component [f] of the world as it found it. *)
Definition keeps {A X} (f : world -> X) (m : M A) : Prop :=
  forall w r w', m w = (r, w') -> f w' = f w.

(** No text cell of the grid is a fallback candidate for the scenario. *)
Definition no_candidate (k : scenario_keys) (values : grid) : Prop :=
  forall row text,
    row ∈ values -> CStr text ∈ row ->
    _normalize_name text <> scenario_norm k
    /\ _letters_only text <> scenario_letters k.

(** A request that reads a worksheet reads one of [allowed]; nothing is
    written. *)
Definition reads_within (allowed : list string) (c : call) : Prop :=
  match c with
  | SheetsGet _ => True
  | ValuesGet _ worksheet => worksheet ∈ allowed
  | ValuesUpdate _ _ _ => False
  end.

(** Some request of the list is a write. *)
Definition has_update (l : list call) : bool :=
  existsb (fun c => match c with ValuesUpdate _ _ _ => true | _ => false end) l.

(** [m] sends read requests only and leaves the remote sheets as they are. *)
Definition read_only {A} (m : M A) : Prop :=
  forall w r w',
    m w = (r, w') ->
    service w' = service w
    /\ exists l, calls w' = (calls w ++ l)%list /\ Forall is_read l.

(** The grids the client can see: those it has cached and those of the
    remote spreadsheets. *)
Definition all_grids (P : grid -> Prop) (w : world) : Prop :=
  (forall key values, _sheet_cache w !! key = Some values -> P values)
  /\ (forall spreadsheet_id wb title values,
         service w !! spreadsheet_id = Some wb ->
         workbook_values wb title = Some values -> P values).

(** ** config.py: the score headers *)

Definition DEFAULT_SCORE_HEADERS : list string :=
  ["High Score"; "Your Score"; "Score"; "PB"]%string.

(** [s.split(sep)] for a one-character separator; [current] is the piece
    being read. *)
Fixpoint split_on (sep : ascii) (s : string) (current : string) : list string :=
  match s with
  | EmptyString => [current]
  | String c rest =>
      if Ascii.eqb c sep then current :: split_on sep rest ""
      else split_on sep rest (current ++ String c "")
  end.

(** Truth value of a JSON value, as the operator [or] takes it. *)
Definition json_truthy (v : json) : bool :=
  match v with
  | JNull => false
  | JBool b => b
  | JInt z => negb (z =? 0)
  | JFloat q => negb (Qeq_bool q 0)
  | JStr s => negb (Str.is_empty s)
  | JArr items => match items with [] => false | _ => true end
  | JObj items => match items with [] => false | _ => true end
  end.

Definition nonblank (s : string) : bool := negb (Str.is_empty (Str.strip s)).

(** [_ensure_list]; [None] stands for [ConfigError]. *)
Definition _ensure_list (repr_of_json : json -> string) (value : option json)
    : option (list string) :=
  match value with
  | None | Some JNull => Some []
  | Some (JArr items) =>
      Some (List.map (fun item => Str.strip (py_str repr_of_json item))
              (List.filter (fun item => nonblank (py_str repr_of_json item)) items))
  | Some (JStr s) =>
      Some (List.map Str.strip (List.filter nonblank (split_on ","%char s "")))
  | Some _ => None
  end.

(** The loop of [load_config] over [user_headers + DEFAULT_SCORE_HEADERS]
    (lines 76-80). *)
Fixpoint combine_headers (candidates : list string) (combined_headers : list string)
    (seen : gset string) : list string :=
  match candidates with
  | [] => combined_headers
  | candidate :: rest =>
      let lower := Str.lower candidate in
      if bool_decide (lower ∈ seen) then combine_headers rest combined_headers seen
      else combine_headers rest (combined_headers ++ [candidate])%list ({[lower]} ∪ seen)
  end.

(** Lines 71-81 of [load_config]: the score headers of a configuration. *)
Definition config_headers (repr_of_json : json -> string)
    (contents : list (string * json)) : option (list string) :=
  let chosen :=
    match jget "score_headers" contents with
    | Some v => if json_truthy v then Some v else jget "score_header_candidates" contents
    | None => jget "score_header_candidates" contents
    end in
  match _ensure_list repr_of_json chosen with
  | Some user_headers =>
      Some (combine_headers (user_headers ++ DEFAULT_SCORE_HEADERS)%list [] ∅)
  | None => None
  end.

(** [kept_first candidates result]: reading [candidates] from the left,
    [result] keeps each one that no earlier candidate equals up to case, in
    that order. *)
Inductive kept_first : list string -> list string -> Prop :=
| kept_first_nil : kept_first [] []
| kept_first_new (l r : list string) (c : string) :
    kept_first l r -> (Str.lower c ∉ Str.lower <$> l) ->
    kept_first (l ++ [c])%list (r ++ [c])%list
| kept_first_dup (l r : list string) (c : string) :
    kept_first l r -> Str.lower c ∈ Str.lower <$> l ->
    kept_first (l ++ [c])%list r.

(** ** Displayed scores ([uploader.py]) *)

(** [round(value)]: the nearest integer, the even one of the two when
    [value] lies halfway. *)
Definition py_round (value : Q) : Z :=
  let below := Qfloor value in
  let rest := (value - inject_Z below)%Q in
  match (rest ?= 1 # 2)%Q with
  | Lt => below
  | Gt => below + 1
  | Eq => if Z.even below then below else below + 1
  end.

(** [_format_score]; [float_repr] is [f"{value}"] on a float. *)
Definition _format_score (float_repr : Q -> string) (value : Q) : string :=
  if isclose value (inject_Z (py_round value)) 0 tolerance
  then Str.of_Z (py_round value)
  else float_repr value.

(* ===================================================================== *)
(** * Properties *)
(* ===================================================================== *)

(** ** Strings *)

Module StrFacts.

Lemma chr_code c : Str.chr (Str.code c) = c.
Proof.
  unfold Str.chr, Str.code. rewrite N2Z.id. apply ascii_N_embedding.
Qed.

Lemma code_range c : 0 <= Str.code c < 256.
Proof.
  unfold Str.code. pose proof (N_ascii_bounded c). lia.
Qed.

(** stdpp keeps [append] from unfolding under [simpl]; these are its
    two equations. *)
Lemma append_nil_l s : "" ++ s = s.
Proof. reflexivity. Qed.

Lemma append_cons c s1 s2 : String c s1 ++ s2 = String c (s1 ++ s2).
Proof. reflexivity. Qed.

Lemma append_nil_r s : s ++ "" = s.
Proof. induction s as [|c s IH]; [reflexivity|]. rewrite append_cons, IH. reflexivity. Qed.

Lemma append_assoc s1 s2 s3 : (s1 ++ s2) ++ s3 = s1 ++ (s2 ++ s3).
Proof.
  induction s1 as [|c s1 IH]; [reflexivity|].
  rewrite !append_cons, IH. reflexivity.
Qed.

Lemma is_empty_true s : Str.is_empty s = true <-> s = "".
Proof. destruct s; simpl; split; congruence. Qed.

Lemma is_empty_append s1 s2 :
  Str.is_empty (s1 ++ s2) = Str.is_empty s1 && Str.is_empty s2.
Proof. destruct s1; reflexivity. Qed.

Lemma forallb_append p s1 s2 :
  Str.forallb p (s1 ++ s2) = Str.forallb p s1 && Str.forallb p s2.
Proof.
  induction s1 as [|c s1 IH]; [reflexivity|].
  rewrite append_cons. simpl. rewrite IH. apply andb_assoc.
Qed.

Lemma forallb_impl (p q : ascii -> bool) s :
  (forall c, p c = true -> q c = true) ->
  Str.forallb p s = true -> Str.forallb q s = true.
Proof.
  intros Hpq. induction s as [|c s IH]; simpl; [reflexivity|].
  intros [Hc Hs]%andb_prop. rewrite (Hpq _ Hc), (IH Hs). reflexivity.
Qed.

Lemma map_id_on (f : ascii -> ascii) p s :
  (forall c, p c = true -> f c = c) ->
  Str.forallb p s = true -> Str.map f s = s.
Proof.
  intros Hf. induction s as [|c s IH]; simpl; [reflexivity|].
  intros [Hc Hs]%andb_prop. rewrite (Hf _ Hc), (IH Hs). reflexivity.
Qed.

Lemma lstrip_id s :
  Str.forallb (fun c => negb (Str.isspace c)) s = true -> Str.lstrip s = s.
Proof.
  destruct s as [|c s]; simpl; [reflexivity|].
  intros [Hc _]%andb_prop. apply negb_true_iff in Hc. rewrite Hc. reflexivity.
Qed.

Lemma rstrip_id s :
  Str.forallb (fun c => negb (Str.isspace c)) s = true -> Str.rstrip s = s.
Proof.
  induction s as [|c s IH]; simpl; [reflexivity|].
  intros [Hc Hs]%andb_prop. apply negb_true_iff in Hc.
  rewrite Hc, (IH Hs). reflexivity.
Qed.

Lemma strip_id s :
  Str.forallb (fun c => negb (Str.isspace c)) s = true -> Str.strip s = s.
Proof.
  intros H. unfold Str.strip. rewrite (lstrip_id _ H). apply rstrip_id, H.
Qed.

End StrFacts.

(** ** Cell references *)

Example column_letter_28 : _column_letter 28 = "AB".
Proof. reflexivity. Qed.

Example cell_to_indexes_ab12 : _cell_to_indexes " ab12 " = Some (11, 27).
Proof. reflexivity. Qed.

Example cell_to_indexes_bad : _cell_to_indexes "A1B" = None.
Proof. reflexivity. Qed.

Section ColumnLetters.

(** An upper-case letter is worth 1..26. *)
Lemma isupper_range c : Str.isupper c = true -> 1 <= Str.code c - 64 <= 26.
Proof. unfold Str.isupper. lia. Qed.

Lemma col_index_loop_lower_bound letters acc :
  Str.forallb Str.isupper letters = true -> 0 <= acc ->
  acc + Z.of_nat (String.length letters) <= col_index_loop letters acc.
Proof.
  revert acc. induction letters as [|c r IH]; intros acc Hup Hacc.
  - simpl. lia.
  - simpl in Hup. apply andb_prop in Hup as [Hc Hr].
    apply isupper_range in Hc.
    change (col_index_loop (String c r) acc)
      with (col_index_loop r (acc * 26 + (Str.code c - 64))).
    specialize (IH (acc * 26 + (Str.code c - 64)) Hr).
    change (String.length (String c r)) with (S (String.length r)). lia.
Qed.

(** One turn of the loop peels the last letter off. *)
Lemma column_letter_loop_step fuel acc c result :
  Str.isupper c = true -> 0 <= acc ->
  column_letter_loop (S fuel) (acc * 26 + (Str.code c - 64)) result
  = column_letter_loop fuel acc (String c result).
Proof.
  intros Hc Hacc. apply isupper_range in Hc.
  set (current := acc * 26 + (Str.code c - 64)).
  change (column_letter_loop (S fuel) current result)
    with (if 0 <? current
          then let (q, remainder) := Z.div_eucl (current - 1) 26 in
               column_letter_loop fuel q (String (Str.chr (65 + remainder)) result)
          else result).
  subst current.
  destruct (Z.ltb_spec 0 (acc * 26 + (Str.code c - 64))) as [_|Hle]; [|lia].
  destruct (Z.div_eucl (acc * 26 + (Str.code c - 64) - 1) 26) as [q r] eqn:E.
  assert (Hq : q = (acc * 26 + (Str.code c - 64) - 1) / 26)
    by (unfold Z.div; rewrite E; reflexivity).
  assert (Hr : r = (acc * 26 + (Str.code c - 64) - 1) mod 26)
    by (unfold Z.modulo; rewrite E; reflexivity).
  assert (Hq' : q = acc)
    by (rewrite Hq; symmetry; apply (Z.div_unique_pos _ 26 acc (Str.code c - 65)); lia).
  assert (Hr' : r = Str.code c - 65)
    by (rewrite Hr; symmetry; apply (Z.mod_unique_pos _ 26 acc); lia).
  subst q r. rewrite Hq', Hr'.
  replace (65 + (Str.code c - 65)) with (Str.code c) by lia.
  rewrite StrFacts.chr_code. reflexivity.
Qed.

Lemma column_letter_loop_stop fuel current result :
  current <= 0 -> column_letter_loop fuel current result = result.
Proof.
  intros H. destruct fuel; simpl; [reflexivity|].
  destruct (Z.ltb_spec 0 current); [lia|reflexivity].
Qed.

(** The letter loop undoes the index loop, given one unit of fuel per
    letter. *)
Lemma column_letter_loop_inverts letters :
  Str.forallb Str.isupper letters = true ->
  forall acc fuel result,
    0 <= acc -> (String.length letters <= fuel)%nat ->
    column_letter_loop fuel (col_index_loop letters acc) result
    = column_letter_loop (fuel - String.length letters) acc (letters ++ result).
Proof.
  induction letters as [|c r IH]; intros Hup acc fuel result Hacc Hfuel.
  - simpl. rewrite Nat.sub_0_r. reflexivity.
  - simpl in Hup. apply andb_prop in Hup as [Hc Hr].
    change (col_index_loop (String c r) acc)
      with (col_index_loop r (acc * 26 + (Str.code c - 64))).
    change (String.length (String c r)) with (S (String.length r)) in *.
    pose proof (isupper_range _ Hc).
    rewrite (IH Hr) by lia.
    replace (fuel - String.length r)%nat
      with (S (fuel - S (String.length r))) by lia.
    rewrite column_letter_loop_step by assumption.
    reflexivity.
Qed.

Lemma column_letter_col_index letters :
  letters <> "" -> Str.forallb Str.isupper letters = true ->
  _column_letter (col_index_loop letters 0) = letters.
Proof.
  intros Hne Hup. unfold _column_letter.
  pose proof (col_index_loop_lower_bound letters 0 Hup ltac:(lia)) as Hlb.
  rewrite (column_letter_loop_inverts letters Hup) by lia.
  rewrite column_letter_loop_stop by lia.
  rewrite StrFacts.append_nil_r.
  destruct letters; [congruence|reflexivity].
Qed.

(** Splitting: a run of letters, then a run of digits. *)
Lemma split_cell_digits digits letters acc :
  Str.forallb Str.isdigit digits = true ->
  split_cell digits letters acc = Some (letters, acc ++ digits).
Proof.
  revert acc. induction digits as [|c r IH]; intros acc Hd.
  - simpl. rewrite StrFacts.append_nil_r. reflexivity.
  - simpl in Hd. apply andb_prop in Hd as [Hc Hr].
    assert (Ha : Str.isalpha c = false).
    { unfold Str.isalpha, Str.isupper, Str.islower. unfold Str.isdigit in Hc. lia. }
    simpl. rewrite Ha, Hc, (IH _ Hr), StrFacts.append_assoc. reflexivity.
Qed.

Lemma split_cell_letters letters rest acc :
  Str.forallb Str.isupper letters = true ->
  split_cell (letters ++ rest) acc "" = split_cell rest (acc ++ letters) "".
Proof.
  revert acc. induction letters as [|c r IH]; intros acc Hup.
  - rewrite StrFacts.append_nil_l, StrFacts.append_nil_r. reflexivity.
  - simpl in Hup. apply andb_prop in Hup as [Hc Hr].
    rewrite StrFacts.append_cons. simpl.
    unfold Str.isalpha. rewrite Hc. simpl.
    rewrite (IH _ Hr), StrFacts.append_assoc. reflexivity.
Qed.

(** [int] reads back what [str] printed. *)
Lemma int_loop_uint_acc d acc :
  int_loop (NilEmpty.string_of_uint d) (Z.pos acc) = Z.pos (Pos.of_uint_acc d acc).
Proof.
  revert acc. induction d; intros acc; simpl; try reflexivity;
    match goal with
    | |- int_loop _ ?z = Z.pos (Pos.of_uint_acc _ ?p) =>
        replace z with (Z.pos p) by (unfold Str.code; simpl; lia)
    end; apply IHd.
Qed.

Lemma int_loop_uint d :
  int_loop (NilEmpty.string_of_uint d) 0 = Z.of_N (Pos.of_uint d).
Proof.
  induction d; simpl; try reflexivity; try apply IHd;
    match goal with
    | |- int_loop _ ?z = Z.pos (Pos.of_uint_acc _ ?p) =>
        change z with (Z.pos p)
    end; apply int_loop_uint_acc.
Qed.

Lemma of_Z_pos p : Str.of_Z (Z.pos p) = NilEmpty.string_of_uint (Pos.to_uint p).
Proof.
  unfold Str.of_Z. simpl. unfold NilZero.string_of_uint.
  pose proof (DecimalPos.Unsigned.to_uint_nonnil p).
  destruct (Pos.to_uint p); congruence.
Qed.

Lemma int_loop_of_Z n : 0 < n -> int_loop (Str.of_Z n) 0 = n.
Proof.
  destruct n as [|p|p]; try lia. intros _.
  rewrite of_Z_pos, int_loop_uint, DecimalPos.Unsigned.of_to. reflexivity.
Qed.

Lemma string_of_uint_digits d :
  Str.forallb Str.isdigit (NilEmpty.string_of_uint d) = true.
Proof. induction d; simpl; auto. Qed.

Lemma of_Z_digits n :
  0 < n -> Str.forallb Str.isdigit (Str.of_Z n) = true /\ Str.of_Z n <> "".
Proof.
  destruct n as [|p|p]; try lia. intros _. rewrite of_Z_pos. split.
  - apply string_of_uint_digits.
  - pose proof (DecimalPos.Unsigned.to_uint_nonnil p).
    destruct (Pos.to_uint p); simpl; congruence.
Qed.

Lemma upper_not_space c : Str.isupper c = true -> negb (Str.isspace c) = true.
Proof. unfold Str.isupper, Str.isspace. lia. Qed.

Lemma digit_not_space c : Str.isdigit c = true -> negb (Str.isspace c) = true.
Proof. unfold Str.isdigit, Str.isspace. lia. Qed.

Lemma upper_char_upper c : Str.isupper c = true -> Str.upper_char c = c.
Proof.
  unfold Str.upper_char. intros H.
  destruct (Str.islower c) eqn:E; [|reflexivity].
  unfold Str.isupper, Str.islower in *. lia.
Qed.

Lemma upper_char_digit c : Str.isdigit c = true -> Str.upper_char c = c.
Proof.
  unfold Str.upper_char. intros H.
  destruct (Str.islower c) eqn:E; [|reflexivity].
  unfold Str.isdigit, Str.islower in *. lia.
Qed.

(** A reference made of upper-case letters and a positive row number is
    read back as that row and the base-26 value of the letters. *)
Lemma cell_to_indexes_ref letters n :
  letters <> "" -> Str.forallb Str.isupper letters = true -> 0 < n ->
  _cell_to_indexes (letters ++ Str.of_Z n)
  = Some (n - 1, col_index_loop letters 0 - 1).
Proof.
  intros Hne Hup Hn. destruct (of_Z_digits n Hn) as [Hdig Hnz].
  set (ref := letters ++ Str.of_Z n).
  assert (Hclass : Str.forallb (fun c => Str.isupper c || Str.isdigit c) ref = true).
  { unfold ref. rewrite StrFacts.forallb_append. apply andb_true_intro. split.
    - eapply StrFacts.forallb_impl; [|exact Hup]. intros c ->. reflexivity.
    - eapply StrFacts.forallb_impl; [|exact Hdig]. intros c ->. apply orb_true_r. }
  assert (Hstrip : Str.strip ref = ref).
  { apply StrFacts.strip_id. eapply StrFacts.forallb_impl; [|exact Hclass].
    intros c [H|H]%orb_prop; [apply upper_not_space|apply digit_not_space]; exact H. }
  assert (Hupper : Str.upper ref = ref).
  { eapply StrFacts.map_id_on; [|exact Hclass].
    intros c [H|H]%orb_prop; [apply upper_char_upper|apply upper_char_digit]; exact H. }
  unfold _cell_to_indexes.
  assert (He : Str.is_empty ref = false).
  { unfold ref. destruct letters; [congruence|reflexivity]. }
  rewrite He, Hstrip, Hupper. unfold ref.
  rewrite (split_cell_letters _ _ _ Hup), (split_cell_digits _ _ _ Hdig).
  rewrite !StrFacts.append_nil_l.
  assert (Str.is_empty letters = false) as ->
      by (destruct letters; [congruence|reflexivity]).
  assert (Str.is_empty (Str.of_Z n) = false) as ->
      by (destruct (Str.of_Z n); [congruence|reflexivity]).
  simpl. rewrite (int_loop_of_Z n Hn).
  destruct (Z.leb_spec n 0); [lia|reflexivity].
Qed.

End ColumnLetters.

(** C9. For every non-empty sequence [letters] of the letters A-Z and every
    positive row number [n], [_cell_to_indexes] reads the reference
    [letters ++ str(n)] as zero-based indexes [(n - 1, col_idx)], and
    [_column_letter] applied to the one-based column index [col_idx + 1]
    gives [letters] back; moreover [_column_letter 1 = "A"] and
    [_column_letter 27 = "AA"]. *)
Theorem column_letter_round_trip :
  (forall (letters : string) (n : Z),
      letters <> "" -> Str.forallb Str.isupper letters = true -> 0 < n ->
      exists col_idx,
        _cell_to_indexes (letters ++ Str.of_Z n) = Some (n - 1, col_idx)
        /\ _column_letter (col_idx + 1) = letters)
  /\ _column_letter 1 = "A"
  /\ _column_letter 27 = "AA".
Proof.
  split; [|split; reflexivity].
  intros letters n Hne Hup Hn.
  exists (col_index_loop letters 0 - 1). split.
  - apply cell_to_indexes_ref; assumption.
  - replace (col_index_loop letters 0 - 1 + 1) with (col_index_loop letters 0) by lia.
    apply column_letter_col_index; assumption.
Qed.

Lemma column_letter_round_trip_witness :
  exists col_idx,
    _cell_to_indexes ("ZQ" ++ Str.of_Z 305) = Some (305 - 1, col_idx)
    /\ _column_letter (col_idx + 1) = "ZQ".
Proof.
  apply (proj1 column_letter_round_trip "ZQ" 305);
    [discriminate | reflexivity | reflexivity].
Defined.

(** ** Mirror cells *)

Section MirrorCells.

Lemma index_Some_lt {A} (l : list A) i x :
  0 <= i -> Py.index l i = Some x -> i < Py.len l.
Proof.
  intros Hi. unfold Py.index, Py.len.
  destruct (Z.leb_spec 0 i); [|lia].
  intros Hx%lookup_lt_Some. lia.
Qed.

Lemma index_lt_Some {A} (l : list A) i :
  0 <= i < Py.len l -> is_Some (Py.index l i).
Proof.
  intros Hi. unfold Py.index, Py.len in *.
  destruct (Z.leb_spec 0 i); [|lia].
  apply lookup_lt_is_Some. lia.
Qed.

Lemma cell_to_indexes_row_nonneg ref row_idx col_idx :
  _cell_to_indexes ref = Some (row_idx, col_idx) -> 0 <= row_idx.
Proof.
  unfold _cell_to_indexes.
  destruct (Str.is_empty ref); [discriminate|].
  destruct (split_cell _ _ _) as [[letters digits]|]; [|discriminate].
  destruct (_ || _); [discriminate|].
  destruct (Z.leb_spec (int_loop digits 0) 0); [discriminate|].
  intros [= <- <-]. lia.
Qed.

Lemma code_chr z : 0 <= z < 256 -> Str.code (Str.chr z) = z.
Proof.
  intros Hz. unfold Str.code, Str.chr.
  rewrite N_ascii_embedding by lia. lia.
Qed.

(** After [upper()], a character that is a letter is an upper-case one. *)
Lemma alpha_upper_char c :
  Str.isalpha (Str.upper_char c) = true -> Str.isupper (Str.upper_char c) = true.
Proof.
  unfold Str.upper_char. destruct (Str.islower c) eqn:El.
  - intros _. unfold Str.islower in El. unfold Str.isupper.
    rewrite code_chr by lia. lia.
  - unfold Str.isalpha. rewrite El, orb_false_r. intros H. exact H.
Qed.

Lemma upper_letters_upper s :
  Str.forallb (fun c => implb (Str.isalpha c) (Str.isupper c)) (Str.upper s) = true.
Proof.
  induction s as [|c s IH]; [reflexivity|].
  cbn [Str.upper Str.map Str.forallb]. apply andb_true_intro. split; [|exact IH].
  destruct (Str.isalpha (Str.upper_char c)) eqn:Ea; [|reflexivity].
  rewrite (alpha_upper_char c Ea). reflexivity.
Qed.

Lemma split_cell_upper cell : forall letters digits l d,
  Str.forallb (fun c => implb (Str.isalpha c) (Str.isupper c)) cell = true ->
  Str.forallb Str.isupper letters = true ->
  split_cell cell letters digits = Some (l, d) ->
  Str.forallb Str.isupper l = true.
Proof.
  induction cell as [|c cell IH]; intros letters digits l d Hcell Hletters.
  - intros [= <- _]. exact Hletters.
  - cbn [Str.forallb] in Hcell. apply andb_prop in Hcell as [Hc Hcell].
    cbn [split_cell]. destruct (Str.isalpha c) eqn:Ea.
    + destruct (negb (Str.is_empty digits)); [discriminate|].
      apply (IH _ _ _ _ Hcell).
      rewrite StrFacts.forallb_append, Hletters. cbn. rewrite andb_true_r.
      exact Hc.
    + destruct (Str.isdigit c); [|discriminate]. apply (IH _ _ _ _ Hcell Hletters).
Qed.

Lemma cell_to_indexes_col_nonneg ref row_idx col_idx :
  _cell_to_indexes ref = Some (row_idx, col_idx) -> 0 <= col_idx.
Proof.
  unfold _cell_to_indexes.
  destruct (Str.is_empty ref); [discriminate|].
  destruct (split_cell _ _ _) as [[letters digits]|] eqn:Es; [|discriminate].
  destruct (Str.is_empty letters) eqn:El; [discriminate|]. cbn [orb].
  destruct (Str.is_empty digits); [discriminate|].
  destruct (int_loop digits 0 <=? 0); [discriminate|]. intros [= _ <-].
  assert (Hup : Str.forallb Str.isupper letters = true)
    by (apply (split_cell_upper _ "" "" letters digits (upper_letters_upper _) eq_refl Es)).
  pose proof (col_index_loop_lower_bound letters 0 Hup ltac:(lia)) as Hlb.
  destruct letters; [discriminate|].
  change (String.length (String a letters)) with (S (String.length letters)) in Hlb.
  lia.
Qed.

(** The header loop stops at the first row with a header at the score
    column, and that row alone decides. *)
Lemma mirror_header_scan_first header_set score_col pre header_row post :
  0 < score_col ->
  Forall (fun r => has_header_at header_set score_col r = false) pre ->
  has_header_at header_set score_col header_row = true ->
  neighbour_blank score_col header_row = true ->
  progress_after score_col header_row = true ->
  mirror_header_scan header_set score_col (pre ++ header_row :: post)%list
  = [score_col + 1].
Proof.
  intros Hcol Hpre Hhead Hblank Hprog.
  induction Hpre as [|r pre Hr _ IH].
  - cbn [app mirror_header_scan].
    unfold has_header_at in Hhead. apply andb_prop in Hhead as [Hlen Hcell].
    rewrite Hlen. destruct (Py.index header_row (score_col - 1)) as [v|];
      [|discriminate].
    rewrite Hcell.
    unfold progress_after in Hprog.
    destruct (Py.index header_row (score_col + 1)) as [pv|] eqn:Epv;
      [|discriminate].
    assert (Hlt : score_col + 1 < Py.len header_row)
      by (apply (index_Some_lt _ _ pv); [lia|exact Epv]).
    destruct (Z.ltb_spec (score_col + 1) (Py.len header_row)); [|lia].
    change (default (CStr "") (Some pv)) with pv. rewrite Hprog.
    unfold neighbour_blank in Hblank.
    destruct (Z.ltb_spec score_col (Py.len header_row)); [|lia].
    destruct (Py.index header_row score_col) as [[t|q]|].
    + change (default (CStr "") (Some (CStr t))) with (CStr t).
      cbn [cell_blank]. rewrite Hblank. reflexivity.
    + discriminate.
    + reflexivity.
  - cbn [app mirror_header_scan].
    unfold has_header_at in Hr.
    destruct (score_col <=? Py.len r); [|exact IH].
    destruct (Py.index r (score_col - 1)) as [v|]; [|exact IH].
    cbn in Hr. rewrite Hr. exact IH.
Qed.

End MirrorCells.

Section MirrorHeader.

Lemma index_app_at {A} (left right : list A) (k : nat) :
  Py.index (left ++ right)%list (Py.len left + Z.of_nat k) = right !! k.
Proof.
  unfold Py.index, Py.len.
  destruct (Z.leb_spec 0 (Z.of_nat (length left) + Z.of_nat k)); [|lia].
  replace (Z.to_nat (Z.of_nat (length left) + Z.of_nat k))
    with (length left + k)%nat by lia.
  rewrite lookup_app_r by lia. f_equal. lia.
Qed.

Lemma high_score_in_header_set header_candidates :
  Py.mem "high score" (mirror_header_set header_candidates) = true.
Proof.
  unfold mirror_header_set, Py.mem. rewrite existsb_app.
  apply orb_true_intro. right. reflexivity.
Qed.

(** A row reading "High Score", a blank, "Progress" from the score column
    on has the header, the blank neighbour and the Progress label. *)
Lemma merged_header_row header_candidates (left right : list cell) :
  let row := (left ++ CStr "High Score" :: CStr "" :: CStr "Progress" :: right)%list in
  has_header_at (mirror_header_set header_candidates) (Py.len left + 1) row = true
  /\ neighbour_blank (Py.len left + 1) row = true
  /\ progress_after (Py.len left + 1) row = true.
Proof.
  intros row. unfold has_header_at, neighbour_blank, progress_after.
  replace (Py.len left + 1 - 1) with (Py.len left + Z.of_nat 0) by lia.
  replace (Py.len left + 1 + 1) with (Py.len left + Z.of_nat 2) by lia.
  replace (Py.index row (Py.len left + 1))
    with (Py.index row (Py.len left + Z.of_nat 1)) by (f_equal; lia).
  subst row. rewrite !index_app_at. cbn [lookup list_lookup].
  split; [|split; reflexivity].
  apply andb_true_intro. split.
  - apply Z.leb_le. unfold Py.len. rewrite length_app. cbn [length]. lia.
  - change (cell_in (CStr "High Score") (mirror_header_set header_candidates))
      with (Py.mem "high score" (mirror_header_set header_candidates)).
    apply high_score_in_header_set.
Qed.

End MirrorHeader.

(** C7 (as amended). If the first row, among the first 20 of the grid, that
    carries a header candidate at the score cell's column has a blank or
    absent cell in the following column and "Progress" in the column after
    that, and the score cell's row lies inside the grid, then
    [find_mirror_cells] returns the cell at (score column + 1, score cell's
    row) and no other, whether or not the data row mirrors the score. In
    particular it does so on every grid whose first header row reads
    "High Score", "", "Progress" from the score column on. *)
Theorem find_mirror_cells_first_header_row :
  (forall (values : grid) (score_cell : string) (header_candidates : list string)
          (row_idx col_idx : Z) (pre : grid) (header_row : list cell) (post : grid),
      _cell_to_indexes score_cell = Some (row_idx, col_idx) ->
      row_idx < Py.len values ->
      Py.prefix 20 values = (pre ++ header_row :: post)%list ->
      Forall (fun r => has_header_at (mirror_header_set header_candidates)
                         (col_idx + 1) r = false) pre ->
      has_header_at (mirror_header_set header_candidates) (col_idx + 1) header_row = true ->
      neighbour_blank (col_idx + 1) header_row = true ->
      progress_after (col_idx + 1) header_row = true ->
      mirror_cells_of values score_cell header_candidates
      = Ok [cell_ref (col_idx + 2) (row_idx + 1)])
  /\ (forall (values : grid) (score_cell : string) (header_candidates : list string)
             (row_idx col_idx : Z) (pre : grid) (left right : list cell) (post : grid),
         _cell_to_indexes score_cell = Some (row_idx, col_idx) ->
         row_idx < Py.len values ->
         Py.len left = col_idx ->
         Py.prefix 20 values
         = (pre ++ (left ++ CStr "High Score" :: CStr "" :: CStr "Progress" :: right)
                :: post)%list ->
         Forall (fun r => has_header_at (mirror_header_set header_candidates)
                            (col_idx + 1) r = false) pre ->
         mirror_cells_of values score_cell header_candidates
         = Ok [cell_ref (col_idx + 2) (row_idx + 1)]).
Proof.
  assert (Hgen : forall values score_cell header_candidates row_idx col_idx pre
                        header_row post,
             _cell_to_indexes score_cell = Some (row_idx, col_idx) ->
             row_idx < Py.len values ->
             Py.prefix 20 values = (pre ++ header_row :: post)%list ->
             Forall (fun r => has_header_at (mirror_header_set header_candidates)
                                (col_idx + 1) r = false) pre ->
             has_header_at (mirror_header_set header_candidates) (col_idx + 1) header_row
             = true ->
             neighbour_blank (col_idx + 1) header_row = true ->
             progress_after (col_idx + 1) header_row = true ->
             mirror_cells_of values score_cell header_candidates
             = Ok [cell_ref (col_idx + 2) (row_idx + 1)]).
  { intros values score_cell header_candidates row_idx col_idx pre header_row post
      Hidx Hrow Hsplit Hpre Hhead Hblank Hprog.
    pose proof (cell_to_indexes_row_nonneg _ _ _ Hidx) as Hrow0.
    pose proof (cell_to_indexes_col_nonneg _ _ _ Hidx) as Hcol.
    unfold mirror_cells_of. rewrite Hidx, Hsplit.
    assert (Hpos : 0 < col_idx + 1) by lia.
    rewrite (mirror_header_scan_first _ _ _ _ post Hpos Hpre Hhead Hblank Hprog).
    destruct (Z.ltb_spec row_idx (Py.len values)); [|lia].
    destruct (index_lt_Some values row_idx (conj Hrow0 Hrow)) as [row ->].
    replace (col_idx + 2) with (col_idx + 1 + 1) by lia.
    destruct (_ && _); [|reflexivity].
    assert (Py.mem_Z (col_idx + 1 + 1) [col_idx + 1 + 1] = true) as ->
        by (cbn; rewrite Z.eqb_refl; reflexivity).
    reflexivity. }
  split; [exact Hgen|].
  intros values score_cell header_candidates row_idx col_idx pre left right post
    Hidx Hrow Hleft Hsplit Hpre.
  destruct (merged_header_row header_candidates left right) as (Hhead & Hblank & Hprog).
  rewrite Hleft in Hhead, Hblank, Hprog.
  exact (Hgen _ _ _ _ _ _ _ _ Hidx Hrow Hsplit Hpre Hhead Hblank Hprog).
Qed.

Lemma find_mirror_cells_first_header_row_witness :
  mirror_cells_of
    [ [CStr "Scenario"; CStr "Best"];
      [CStr "Scenario"; CStr "High Score"; CStr ""; CStr "Progress"];
      [CStr "Close Range"; CStr "120"; CStr "118"; CStr "60%"] ]
    "B3" ["Score"%string]
  = Ok [cell_ref (1 + 2) (2 + 1)].
Proof.
  apply (proj2 find_mirror_cells_first_header_row _ "B3" ["Score"%string] 2 1
           [[CStr "Scenario"; CStr "Best"]] [CStr "Scenario"] []
           [[CStr "Close Range"; CStr "120"; CStr "118"; CStr "60%"]])
  ; try reflexivity; try lia.
  constructor; [reflexivity|constructor].
Defined.

(** The claim C7 as stated fails: the second row has the header, a blank
    neighbour and "Progress", but the first row already carries the header
    (with a neighbour that is not blank), and the loop stops there. *)
Lemma find_mirror_cells_some_row_counterexample :
  let values :=
    [ [CStr "High Score"; CStr "notes"; CStr "Progress"];
      [CStr "High Score"; CStr ""; CStr "Progress"];
      [CStr "55"; CStr "7"] ] in
  has_header_at (mirror_header_set []) 1 (values !!! 1%nat) = true
  /\ neighbour_blank 1 (values !!! 1%nat) = true
  /\ progress_after 1 (values !!! 1%nat) = true
  /\ mirror_cells_of values "A3" [] = Ok [].
Proof. repeat split; reflexivity. Qed.

(** C8. With a score cell whose row lies beyond the grid, the variable
    [row] is read without having been assigned: [find_mirror_cells] raises
    instead of returning a list. *)
Theorem find_mirror_cells_row_beyond_grid
    (values : grid) (score_cell : string) (header_candidates : list string)
    (row_idx col_idx : Z) :
  _cell_to_indexes score_cell = Some (row_idx, col_idx) ->
  Py.len values <= row_idx ->
  mirror_cells_of values score_cell header_candidates
  = Raise (UnboundLocalError "row").
Proof.
  intros Hidx Hrow. unfold mirror_cells_of. rewrite Hidx.
  destruct (Z.ltb_spec row_idx (Py.len values)); [lia|reflexivity].
Qed.

Lemma find_mirror_cells_row_beyond_grid_witness :
  mirror_cells_of [[CStr "High Score"; CStr ""; CStr "Progress"]] "A5" ["Score"%string]
  = Raise (UnboundLocalError "row").
Proof.
  apply (find_mirror_cells_row_beyond_grid _ "A5" _ 4 0); [reflexivity|].
  unfold Py.len. simpl. lia.
Defined.

(** ** Resolution *)

(** C1. The sheet "Main" holds "close-range" in A1 and "Close Range" in A2;
    A2 is the only cell whose trimmed, lower-cased text equals that of the
    scenario name "Close Range". The exact-match branch (lines 94-99) only
    assigns [scenario_cell] and [score_cell] and goes on: the search reads
    the worksheet "Other" as well and returns the fuzzy candidate A1, which
    was seen first with the same length difference. *)
Theorem resolve_target_cell_exact_match_not_returned :
  let main := [ [CStr "close-range"]; [CStr "Close Range"] ] in
  let other := [ [CStr "other"] ] in
  let w := World ∅ ∅ {[ "sid"%string := [("Main"%string, main); ("Other"%string, other)] ]}
             [] None in
  let key := scenario_key (keys_of "Close Range") in
  cell_is_key (CStr "Close Range") key = true
  /\ cell_is_key (CStr "close-range") key = false
  /\ cell_is_key (CStr "other") key = false
  /\ fst (resolve_target_cell "sid" "Close Range" ["High Score"%string] None
            None None None w)
     = Ok ("Main"%string, "D1"%string, "A1"%string)
  /\ calls (snd (resolve_target_cell "sid" "Close Range" ["High Score"%string] None
                   None None None w))
     = [SheetsGet "sid"; ValuesGet "sid" "Main"; ValuesGet "sid" "Other"].
Proof. vm_compute. repeat split; reflexivity. Qed.

(** C4. In the sheet "Main" the label cell A2 reads "Close Range" and the
    score cell B2 lies in the column immediately left of the "Progress"
    column C, which is where [_select_score_column] puts the score column
    of a sheet without header. [_score_cell_matches] accepts only the
    column immediately right of "Progress" (line 185), so the cached triple
    is rejected: the worksheets are listed, "Archive" is read, and another
    triple is returned. *)
Theorem resolve_target_cell_cached_hint_rejected :
  let main := [ [CStr "Scenario"; CStr ""; CStr "Progress"];
                [CStr "Close Range"; CStr "88"; CStr "40%"] ] in
  let archive := [ [CStr "close range"] ] in
  let w := World ∅ ∅
             {[ "sid"%string := [("Archive"%string, archive); ("Main"%string, main)] ]}
             [] None in
  let headers := normalize_headers ["High Score"%string] in
  _scenario_cell_matches main "A2" (scenario_key (keys_of "Close Range")) = true
  /\ _find_progress_column main = Some 3
  /\ _cell_to_indexes "B2" = Some (1, 1)
  /\ _select_score_column 1 (_find_score_columns main headers)
       (_find_progress_column main) = 2
  /\ _score_cell_matches main "B2" headers = false
  /\ fst (resolve_target_cell "sid" "Close Range" ["High Score"%string] None
            (Some "Main"%string) (Some "B2"%string) (Some "A2"%string) w)
     = Ok ("Archive"%string, "D1"%string, "A1"%string)
  /\ calls (snd (resolve_target_cell "sid" "Close Range" ["High Score"%string] None
                   (Some "Main"%string) (Some "B2"%string) (Some "A2"%string) w))
     = [ValuesGet "sid" "Main"; SheetsGet "sid"; ValuesGet "sid" "Archive"].
Proof. vm_compute. repeat split; reflexivity. Qed.

(** ** Requests made by the client *)

Section Requests.

Context {A B : Type}.

Lemma spec_ret (P : call -> Prop) (Q : A -> Prop) (a : A) :
  Q a -> spec P Q (ret a).
Proof.
  intros Ha w r w' [= <- <-]. split.
  - exists []. rewrite app_nil_r. split; [reflexivity|constructor].
  - intros a' [= <-]. exact Ha.
Qed.

Lemma spec_raise (P : call -> Prop) (Q : A -> Prop) (e : exn) :
  spec P Q (raise e).
Proof.
  intros w r w' [= <- <-]. split.
  - exists []. rewrite app_nil_r. split; [reflexivity|constructor].
  - intros a' [=].
Qed.

Lemma spec_bind (P : call -> Prop) (Q1 : A -> Prop) (Q2 : B -> Prop)
    (m : M A) (k : A -> M B) :
  spec P Q1 m -> (forall a, Q1 a -> spec P Q2 (k a)) -> spec P Q2 (bind m k).
Proof.
  intros Hm Hk w r w' Hrun. unfold bind in Hrun.
  destruct (m w) as [[a|e] w1] eqn:Em.
  - destruct (Hm _ _ _ Em) as [(l1 & Hl1 & HP1) HQ1].
    destruct (Hk a (HQ1 a eq_refl) _ _ _ Hrun) as [(l2 & Hl2 & HP2) HQ2].
    split; [|exact HQ2].
    exists (l1 ++ l2)%list. rewrite Hl2, Hl1, app_assoc. split; [reflexivity|].
    apply Forall_app. split; assumption.
  - injection Hrun as <- <-.
    destruct (Hm _ _ _ Em) as [Hl _]. split; [exact Hl|]. intros b [=].
Qed.

Lemma spec_weaken (P P' : call -> Prop) (Q Q' : A -> Prop) (m : M A) :
  (forall c, P c -> P' c) -> (forall a, Q a -> Q' a) ->
  spec P Q m -> spec P' Q' m.
Proof.
  intros HP HQ Hm w r w' Hrun.
  destruct (Hm _ _ _ Hrun) as [(l & Hl & Hall) Hres]. split.
  - exists l. split; [exact Hl|]. eapply Forall_impl; [exact Hall|exact HP].
  - intros a Ha. apply HQ, Hres, Ha.
Qed.

Lemma spec_try_google (P : call -> Prop) (Q : A -> Prop) (m : M A) :
  spec P Q m ->
  spec P (fun o => match o with Some a => Q a | None => True end) (try_google m).
Proof.
  intros Hm w r w' Hrun. unfold try_google in Hrun.
  destruct (m w) as [[a|e] w1] eqn:Em;
    destruct (Hm _ _ _ Em) as [Hl HQ].
  - injection Hrun as <- <-. split; [exact Hl|].
    intros o [= <-]. apply HQ. reflexivity.
  - destruct e; injection Hrun as <- <-; (split; [exact Hl|]);
      intros o [=]; subst; exact I.
Qed.

End Requests.

Section ClientRequests.

Lemma spec_get_sheet_values spreadsheet_id worksheet :
  spec is_read (fun _ => True) (_get_sheet_values spreadsheet_id worksheet).
Proof.
  intros w r w' Hrun. unfold _get_sheet_values in Hrun.
  split; [|intros; exact I].
  destruct (_sheet_cache w !! (spreadsheet_id, worksheet)).
  - injection Hrun as <- <-. exists []. rewrite app_nil_r.
    split; [reflexivity|constructor].
  - destruct (_ ≫= _); injection Hrun as <- <-; cbn [calls];
      (eexists; split; [reflexivity|repeat constructor]).
Qed.

Lemma spec_list_sheet_titles spreadsheet_id :
  spec is_read (fun _ => True) (list_sheet_titles spreadsheet_id).
Proof.
  intros w r w' Hrun. unfold list_sheet_titles in Hrun.
  split; [|intros; exact I].
  destruct (_sheet_list_cache w !! spreadsheet_id).
  - injection Hrun as <- <-. exists []. rewrite app_nil_r.
    split; [reflexivity|constructor].
  - destruct (service w !! spreadsheet_id); injection Hrun as <- <-; cbn [calls];
      (eexists; split; [reflexivity|repeat constructor]).
Qed.

Lemma spec_update_cell (P : call -> Prop) spreadsheet_id range value :
  P (ValuesUpdate spreadsheet_id range value) ->
  spec P (fun _ => True) (update_cell spreadsheet_id range value).
Proof.
  intros HP w r w' Hrun. unfold update_cell in Hrun.
  split; [|intros; exact I].
  destruct (_ ≫= _); injection Hrun as <- <-; cbn [calls];
    (eexists; split; [reflexivity|repeat constructor; exact HP]).
Qed.

Lemma spec_scan_titles spreadsheet_id k headers allowed sheet_titles st :
  spec is_read (fun _ => True)
    (scan_titles spreadsheet_id k headers allowed sheet_titles st).
Proof.
  revert st. induction sheet_titles as [|title rest IH]; intros st.
  - apply spec_ret. exact I.
  - cbn [scan_titles]. destruct (match allowed with Some _ => _ | None => _ end).
    + apply IH.
    + eapply spec_bind; [apply spec_get_sheet_values|].
      intros values _. destruct values; apply IH.
Qed.

Lemma spec_resolve_by_search spreadsheet_id scenario_name headers worksheet_filter :
  spec is_read (fun _ => True)
    (resolve_by_search spreadsheet_id scenario_name headers worksheet_filter).
Proof.
  unfold resolve_by_search.
  eapply spec_bind; [apply spec_list_sheet_titles|]. intros sheet_titles _.
  eapply spec_bind; [apply spec_scan_titles|]. intros st _.
  destruct (best_fallback st) as [[[[title sc] lc] diff]|].
  - apply spec_ret. exact I.
  - apply spec_raise.
Qed.

Lemma spec_resolve_target_cell spreadsheet_id scenario_name header_candidates
    worksheet_filter cached_sheet cached_score_cell cached_scenario_cell :
  spec is_read (fun _ => True)
    (resolve_target_cell spreadsheet_id scenario_name header_candidates
       worksheet_filter cached_sheet cached_score_cell cached_scenario_cell).
Proof.
  unfold resolve_target_cell.
  destruct cached_sheet as [sheet|], cached_score_cell as [sc|],
    cached_scenario_cell as [lc|]; try apply spec_resolve_by_search.
  destruct (_ && _ && _); [|apply spec_resolve_by_search].
  eapply spec_bind; [apply spec_get_sheet_values|]. intros values _.
  destruct (_ && _); [apply spec_ret; exact I|apply spec_resolve_by_search].
Qed.

Lemma spec_find_mirror_cells spreadsheet_id worksheet score_cell header_candidates :
  spec is_read (fun _ => True)
    (find_mirror_cells spreadsheet_id worksheet score_cell header_candidates).
Proof.
  unfold find_mirror_cells.
  eapply spec_bind; [apply spec_get_sheet_values|]. intros values _.
  intros w r w' [= <- <-]. split; [|intros; exact I].
  exists []. rewrite app_nil_r. split; [reflexivity|constructor].
Qed.

End ClientRequests.

(** ** The synchronisation driver *)

Section Driver.

Variable float_of_str : string -> option Q.

Lemma spec_get_numeric_cell spreadsheet_id worksheet cell_ref :
  spec is_read (fun _ => True)
    (get_numeric_cell float_of_str spreadsheet_id worksheet cell_ref).
Proof.
  unfold get_numeric_cell.
  eapply spec_bind; [apply spec_get_sheet_values|]. intros values _.
  apply spec_ret. exact I.
Qed.

Lemma spec_update_cells (P : call -> Prop) spreadsheet_id worksheet cells value :
  (forall range, P (ValuesUpdate spreadsheet_id range value)) ->
  spec P (fun _ => True) (update_cells spreadsheet_id worksheet cells value).
Proof.
  intros HP. induction cells as [|extra_cell rest IH].
  - apply spec_ret. exact I.
  - cbn [update_cells]. eapply spec_bind; [apply spec_update_cell, HP|].
    intros _ _. exact IH.
Qed.

Lemma scenario_entry_present state name entry :
  scenarios state !! name = Some entry ->
  scenario_entry state name = (entry, state).
Proof. intros H. unfold scenario_entry. rewrite H. reflexivity. Qed.

Lemma Qgtb_lt a b : (a < b)%Q -> Qgtb a b = false.
Proof.
  intros H. unfold Qgtb. apply negb_false_iff, Qle_bool_iff, Qlt_le_weak, H.
Qed.

(** Every request of a run that does not beat the recorded best is a
    read or writes the recorded best, and the run leaves the best in
    place. *)
Lemma process_run_lower_score config run state updated entry best :
  scenarios state !! scenario run = Some entry ->
  best_score entry = Some best ->
  (score run < best)%Q ->
  spec (fun c => forall sid range v, c = ValuesUpdate sid range v -> v = best)
    (fun acc => exists entry',
         scenarios (fst acc) !! scenario run = Some entry'
         /\ best_score entry' = Some best)
    (process_run float_of_str config run (state, updated)).
Proof.
  intros Hentry Hbest Hlt.
  assert (Hread : forall c, is_read c ->
            forall sid range v, c = ValuesUpdate sid range v -> v = best).
  { intros c Hc sid range v ->. destruct Hc. }
  unfold process_run.
  rewrite (scenario_entry_present _ _ _ Hentry).
  eapply spec_bind.
  { eapply spec_weaken; [exact Hread|intros a Ha; exact Ha|].
    apply spec_try_google, spec_resolve_target_cell. }
  intros [[[ws sc] lc]|] _.
  2:{ apply spec_ret. exists entry. split; assumption. }
  unfold target_value, is_new_personal_best.
  rewrite Hbest, (Qgtb_lt _ _ Hlt). cbn [default negb andb].
  eapply spec_bind.
  { eapply spec_weaken; [exact Hread|intros a Ha; exact Ha|].
    apply spec_get_numeric_cell. }
  intros sheet_value _.
  assert (Hkept : exists entry',
             scenarios (store_entry state (scenario run)
                          (mkScenarioState (Some best) (Some ws) (Some sc) (Some lc)))
               !! scenario run = Some entry'
             /\ best_score entry' = Some best).
  { eexists. split; [apply lookup_insert_eq|reflexivity]. }
  destruct (_ && true).
  - apply spec_ret. exact Hkept.
  - eapply spec_bind.
    { eapply spec_weaken; [exact Hread|intros a Ha; exact Ha|].
      apply spec_find_mirror_cells. }
    intros mirror_cells _.
    eapply spec_bind.
    { apply spec_update_cell. intros sid range v [= _ _ <-]. reflexivity. }
    intros _ _.
    eapply spec_bind.
    { apply spec_update_cells. intros range0 sid range v [= _ _ <-]. reflexivity. }
    intros _ _. apply spec_ret. exact Hkept.
Qed.

End Driver.

(** C2. When the scenario of a run already has a recorded [best_score] and
    the run's score is strictly lower, processing the run leaves the
    recorded best in place, and every write the driver sends for the run
    carries the recorded best, never the run's score. *)
Theorem lower_score_never_lowers_best
    (float_of_str : string -> option Q) (config : AppConfig) (run : ScenarioRun)
    (state : AppState) (updated : bool) (entry : ScenarioState) (best : Q)
    (w w' : world) (r : result (AppState * bool)) :
  scenarios state !! scenario run = Some entry ->
  best_score entry = Some best ->
  (score run < best)%Q ->
  process_run float_of_str config run (state, updated) w = (r, w') ->
  (forall state' updated',
      r = Ok (state', updated') ->
      exists entry',
        scenarios state' !! scenario run = Some entry'
        /\ best_score entry' = Some best)
  /\ exists l,
      calls w' = (calls w ++ l)%list
      /\ forall sid range v, ValuesUpdate sid range v ∈ l -> v = best.
Proof.
  intros Hentry Hbest Hlt Hrun.
  destruct (process_run_lower_score float_of_str config run state updated entry best
              Hentry Hbest Hlt w r w' Hrun) as [(l & Hl & Hall) Hres].
  split.
  - intros state' updated' ->. exact (Hres _ eq_refl).
  - exists l. split; [exact Hl|].
    intros sid range v Hin. rewrite Forall_forall in Hall.
    exact (Hall _ Hin sid range v eq_refl).
Qed.

Lemma lower_score_never_lowers_best_witness :
  let config := mkAppConfig "sid" ["High Score"%string] None in
  let run := mkScenarioRun "Close Range" 95 "b.csv" in
  let entry := mkScenarioState (Some 120%Q) (Some "Main"%string) (Some "B2"%string)
                 (Some "A2"%string) in
  let state := mkAppState {[ "Close Range"%string := entry ]} ["a.csv"%string] in
  let w := World ∅ ∅
             {[ "sid"%string :=
                  [("Main"%string,
                    [ [CStr "Scenario"; CStr "High Score"];
                      [CStr "Close Range"; CStr "100"] ])] ]} [] None in
  let out := process_run Plain.float_of_str config run (state, false) w in
  (forall state' updated',
      fst out = Ok (state', updated') ->
      exists entry',
        scenarios state' !! scenario run = Some entry'
        /\ best_score entry' = Some 120%Q)
  /\ exists l,
      calls (snd out) = (calls w ++ l)%list
      /\ forall sid range v, ValuesUpdate sid range v ∈ l -> v = 120%Q.
Proof.
  intros config run entry state w out.
  apply (lower_score_never_lowers_best Plain.float_of_str config run state false
           entry 120%Q w (snd out) (fst out));
    [reflexivity | reflexivity | reflexivity | apply surjective_pairing].
Defined.

Section PrimaryWrite.

Variable float_of_str : string -> option Q.

Lemma get_sheet_values_cached spreadsheet_id worksheet values w w' :
  _get_sheet_values spreadsheet_id worksheet w = (Ok values, w') ->
  _sheet_cache w' !! (spreadsheet_id, worksheet) = Some values.
Proof.
  unfold _get_sheet_values.
  destruct (_sheet_cache w !! (spreadsheet_id, worksheet)) as [cached|] eqn:E.
  - intros [= <- <-]. exact E.
  - destruct (_ ≫= _); intros [= <- <-]. cbn [_sheet_cache].
    apply lookup_insert_eq.
Qed.

Lemma get_sheet_values_hit spreadsheet_id worksheet values w :
  _sheet_cache w !! (spreadsheet_id, worksheet) = Some values ->
  _get_sheet_values spreadsheet_id worksheet w = (Ok values, w).
Proof. intros E. unfold _get_sheet_values. rewrite E. reflexivity. Qed.

Lemma get_numeric_cell_cached spreadsheet_id worksheet cell_ref sheet_value w w' :
  get_numeric_cell float_of_str spreadsheet_id worksheet cell_ref w
  = (Ok sheet_value, w') ->
  exists values, _sheet_cache w' !! (spreadsheet_id, worksheet) = Some values.
Proof.
  unfold get_numeric_cell, bind.
  destruct (_get_sheet_values spreadsheet_id worksheet w) as [[values|e] w1] eqn:E;
    [|discriminate].
  intros [= _ <-]. exists values. eapply get_sheet_values_cached, E.
Qed.

Lemma update_cell_ok spreadsheet_id range value w w' :
  update_cell spreadsheet_id range value w = (Ok tt, w') ->
  calls w' = (calls w ++ [ValuesUpdate spreadsheet_id range value])%list.
Proof.
  unfold update_cell. destruct (_ ≫= _); intros [= <-]. reflexivity.
Qed.

Lemma update_cells_ok spreadsheet_id worksheet cells value w w' :
  update_cells spreadsheet_id worksheet cells value w = (Ok tt, w') ->
  calls w'
  = (calls w
     ++ List.map (fun m => ValuesUpdate spreadsheet_id (range_ref worksheet m) value)
          cells)%list.
Proof.
  revert w. induction cells as [|extra_cell rest IH]; intros w.
  - intros [= <-]. cbn. rewrite app_nil_r. reflexivity.
  - cbn [update_cells List.map]. unfold bind at 1.
    destruct (update_cell _ _ _ w) as [[[]|e] w1] eqn:E; [|discriminate].
    intros Hrest. rewrite (IH _ Hrest), (update_cell_ok _ _ _ _ _ E).
    rewrite <- app_assoc. reflexivity.
Qed.

(** What a run adds to the log after the reads: nothing when the write is
    skipped, otherwise the primary write followed by the mirror writes. *)
Lemma process_run_writes config run state updated w ws sc lc w1
    sheet_value w2 acc' w' :
  let entry := fst (scenario_entry state (scenario run)) in
  try_google
    (resolve_target_cell (sheet_id config) (scenario run)
       (score_header_candidates config) (worksheet_filter config)
       (worksheet entry) (score_cell entry) (scenario_cell entry)) w
  = (Ok (Some (ws, sc, lc)), w1) ->
  get_numeric_cell float_of_str (sheet_id config) ws sc w1 = (Ok sheet_value, w2) ->
  process_run float_of_str config run (state, updated) w = (Ok acc', w') ->
  let is_new := is_new_personal_best (best_score entry) (score run) in
  let target := target_value (best_score entry) (score run) in
  exists mirrors,
    calls w'
    = (calls w2
       ++ if value_is_close sheet_value target && negb is_new then []
          else ValuesUpdate (sheet_id config) (range_ref ws sc) target
               :: List.map
                    (fun m => ValuesUpdate (sheet_id config) (range_ref ws m) target)
                    mirrors)%list.
Proof.
  intros entry Hres Hnum Hrun is_new target.
  unfold process_run in Hrun.
  destruct (scenario_entry state (scenario run)) as [scenario_state state1] eqn:Ee.
  subst entry. cbn [fst] in *.
  unfold bind at 1 in Hrun. rewrite Hres in Hrun.
  unfold bind at 1 in Hrun. rewrite Hnum in Hrun.
  fold is_new target in Hrun.
  destruct (value_is_close sheet_value target && negb is_new).
  - injection Hrun as _ <-. exists []. rewrite app_nil_r. reflexivity.
  - destruct (get_numeric_cell_cached _ _ _ _ _ _ Hnum) as [values Hc].
    unfold bind at 1 in Hrun. unfold find_mirror_cells in Hrun.
    unfold bind at 1 in Hrun.
    rewrite (get_sheet_values_hit _ _ _ _ Hc) in Hrun.
    destruct (mirror_cells_of values sc (score_header_candidates config))
      as [mirrors|e]; [|discriminate].
    unfold bind at 1 in Hrun.
    destruct (update_cell _ _ _ w2) as [[[]|e] w3] eqn:Eu; [|discriminate].
    unfold bind at 1 in Hrun.
    destruct (update_cells _ _ _ _ w3) as [[[]|e] w4] eqn:Em; [|discriminate].
    injection Hrun as _ <-. exists mirrors.
    rewrite (update_cells_ok _ _ _ _ _ _ Em), (update_cell_ok _ _ _ _ _ Eu).
    rewrite <- app_assoc. reflexivity.
Qed.

End PrimaryWrite.




(** ** The persisted state *)

Module StripFacts.

Lemma rstrip_idemp s : Str.rstrip (Str.rstrip s) = Str.rstrip s.
Proof.
  induction s as [|c r IH]; [reflexivity|].
  cbn [Str.rstrip].
  destruct (Str.isspace c && Str.is_empty (Str.rstrip r)) eqn:E; [reflexivity|].
  cbn [Str.rstrip]. rewrite IH, E. reflexivity.
Qed.

Lemma lstrip_head s :
  match Str.lstrip s with
  | EmptyString => True
  | String c _ => Str.isspace c = false
  end.
Proof.
  induction s as [|c r IH]; [exact I|].
  cbn [Str.lstrip]. destruct (Str.isspace c) eqn:E; [exact IH|exact E].
Qed.

Lemma lstrip_rstrip s :
  match s with
  | EmptyString => True
  | String c _ => Str.isspace c = false
  end ->
  Str.lstrip (Str.rstrip s) = Str.rstrip s.
Proof.
  destruct s as [|c r]; [reflexivity|]. intros Hc.
  cbn [Str.rstrip]. rewrite Hc. cbn [andb Str.lstrip]. rewrite Hc. reflexivity.
Qed.

Lemma strip_idemp s : Str.strip (Str.strip s) = Str.strip s.
Proof.
  unfold Str.strip.
  rewrite (lstrip_rstrip (Str.lstrip s) (lstrip_head s)).
  apply rstrip_idemp.
Qed.

End StripFacts.

Section PersistedState.

Variable float_of_str : string -> option Q.
Variable repr_of_json : json -> string.

Lemma optional_str_trimmed value : trimmed (_optional_str repr_of_json value).
Proof.
  unfold _optional_str.
  destruct value as [v|]; [|exact I].
  destruct v; try exact I;
    (destruct (Str.is_empty (Str.strip _)) eqn:E; [exact I|]);
    (split; [apply StripFacts.strip_idemp|]);
    intros H; rewrite H in E; discriminate.
Qed.

Lemma optional_str_of_trimmed o :
  trimmed o -> _optional_str repr_of_json (Some (json_of_str o)) = o.
Proof.
  destruct o as [t|]; [|reflexivity]. intros [Hs Hne].
  cbn [json_of_str _optional_str py_str]. rewrite Hs.
  destruct t; [congruence|reflexivity].
Qed.

Lemma to_optional_float_of o :
  _to_optional_float float_of_str (Some (json_of_float o)) = Ok o.
Proof. destruct o; reflexivity. Qed.

Lemma load_scenarios_payload (l : list (string * ScenarioState))
    (acc : gmap string ScenarioState) :
  NoDup l.*1 ->
  Forall (fun item => entry_trimmed item.2) l ->
  load_scenarios float_of_str repr_of_json (List.map entry_payload l) acc
  = Ok (list_to_map l ∪ acc).
Proof.
  revert acc. induction l as [|[name entry] l IH]; intros acc Hnd Hall.
  - cbn. rewrite (left_id_L ∅ (∪)). reflexivity.
  - apply NoDup_cons in Hnd as [Hname Hnd].
    apply Forall_cons in Hall as [(Hw & Hs & Hl) Hall].
    cbn [List.map entry_payload load_scenarios fst snd].
    change (jget "best_score" _) with (Some (json_of_float (best_score entry))).
    change (jget "worksheet" _) with (Some (json_of_str (worksheet entry))).
    change (jget "score_cell" _) with (Some (json_of_str (score_cell entry))).
    change (jget "scenario_cell" _) with (Some (json_of_str (scenario_cell entry))).
    cbn [fst snd] in *.
    rewrite to_optional_float_of, !optional_str_of_trimmed by assumption.
    rewrite (IH _ Hnd Hall). cbn [list_to_map foldr].
    destruct entry as [b ws sc lc]. cbn [best_score worksheet score_cell scenario_cell].
    f_equal. rewrite <- insert_union_l. symmetry. apply insert_union_r.
    apply not_elem_of_list_to_map_1, Hname.
Qed.

Lemma legacy_processed_payload (l : list (string * ScenarioState)) :
  legacy_processed repr_of_json (List.map entry_payload l) = [].
Proof.
  induction l as [|[name entry] l IH]; [reflexivity|].
  cbn [List.map entry_payload legacy_processed].
  change (jget "processed_files" _) with (@None json). exact IH.
Qed.

Lemma suffix_idemp {A} (n : nat) (l : list A) :
  Py.suffix n (Py.suffix n l) = Py.suffix n l.
Proof.
  unfold Py.suffix. rewrite length_drop.
  replace (length l - (length l - n) - n)%nat with 0%nat by lia.
  reflexivity.
Qed.

Lemma suffix_short {A} (n : nat) (l : list A) :
  (length l <= n)%nat -> Py.suffix n l = l.
Proof.
  intros Hshort. unfold Py.suffix.
  replace (length l - n)%nat with 0%nat by lia. reflexivity.
Qed.

Lemma map_py_str_JStr l : List.map (py_str repr_of_json) (List.map JStr l) = l.
Proof. induction l as [|x l IH]; [reflexivity|]. cbn. f_equal. exact IH. Qed.

(** Reading back what [save_state] wrote gives the state saved, with the
    list of processed files cut to its last 500 entries. *)
Lemma load_state_payload state :
  (forall name entry, scenarios state !! name = Some entry -> entry_trimmed entry) ->
  load_state float_of_str repr_of_json (Some (state_payload state))
  = Ok (mkAppState (scenarios state) (Py.suffix 500 (processed_files state))).
Proof.
  intros Hclean. unfold state_payload, load_state.
  change (jget "processed_files" _)
    with (Some (JArr (List.map JStr (Py.suffix 500 (processed_files state))))).
  change (jget "scenarios" _)
    with (Some (JObj (List.map entry_payload (map_to_list (scenarios state))))).
  cbn [default from_option id].
  rewrite load_scenarios_payload.
  - rewrite list_to_map_to_list, (right_id_L ∅ (∪)). f_equal. f_equal.
    destruct (Py.suffix 500 (processed_files state)) as [|p ps] eqn:E.
    + cbn [List.map]. rewrite legacy_processed_payload. reflexivity.
    + change (JStr p :: List.map JStr ps) with (List.map JStr (p :: ps)).
      apply map_py_str_JStr.
  - apply NoDup_fst_map_to_list.
  - apply Forall_forall. intros [name entry] Hin%elem_of_map_to_list.
    exact (Hclean _ _ Hin).
Qed.

Lemma load_scenarios_trimmed items acc loaded :
  (forall name entry, acc !! name = Some entry -> entry_trimmed entry) ->
  load_scenarios float_of_str repr_of_json items acc = Ok loaded ->
  forall name entry, loaded !! name = Some entry -> entry_trimmed entry.
Proof.
  revert acc. induction items as [|[key data] items IH]; intros acc Hacc.
  - intros [= <-]. exact Hacc.
  - cbn [load_scenarios]. destruct data; try (apply IH; exact Hacc).
    destruct (_to_optional_float _ _) as [best|e]; [|discriminate].
    apply IH. intros name entry.
    destruct (decide (key = name)) as [->|Hne].
    + rewrite lookup_insert_eq. intros [= <-].
      repeat split; apply optional_str_trimmed.
    + rewrite lookup_insert_ne by exact Hne. apply Hacc.
Qed.

Lemma load_state_trimmed file state :
  load_state float_of_str repr_of_json file = Ok state ->
  forall name entry, scenarios state !! name = Some entry -> entry_trimmed entry.
Proof.
  unfold load_state. destruct file as [raw|].
  - destruct raw; try discriminate.
    destruct (default _ _);
      try (intros [= <-] name entry; cbn; rewrite lookup_empty; discriminate).
    destruct (load_scenarios _ _ _ _) as [loaded|e] eqn:El; [|discriminate].
    intros [= <-]. cbn [scenarios].
    apply (load_scenarios_trimmed _ _ _ (fun name entry (H : ∅ !! name = Some entry) =>
             ltac:(rewrite lookup_empty in H; discriminate)) El).
  - intros [= <-] name entry. cbn. rewrite lookup_empty. discriminate.
Qed.

(** With [skip_processed], files already in the processed set are passed
    over without being parsed. *)
Lemma collect_loop_all_processed files (processed_set : gset string)
    processed_paths runs :
  (forall f, f ∈ files -> path f ∈ processed_set) ->
  collect_loop float_of_str true files processed_set processed_paths runs
  = Ok (runs, processed_paths).
Proof.
  induction files as [|f files IH]; intros Hall; [reflexivity|].
  cbn [collect_loop andb].
  rewrite bool_decide_eq_true_2 by (apply Hall, list_elem_of_here).
  apply IH. intros g Hg. apply Hall, list_elem_of_further, Hg.
Qed.

Lemma process_once_no_new_results config files w state :
  load_state float_of_str repr_of_json (state_file w) = Ok state ->
  (forall f, f ∈ files -> path f ∈ processed_files state) ->
  process_once float_of_str repr_of_json config files true w
  = (Ok false,
     World (_sheet_cache w) (_sheet_list_cache w) (service w) (calls w)
       (Some (state_payload
                (mkAppState (scenarios state)
                   (Py.suffix 500 (processed_files state)))))).
Proof.
  intros Hload Hall. unfold process_once. rewrite Hload.
  unfold _collect_runs. rewrite collect_loop_all_processed.
  - reflexivity.
  - intros f Hf. apply elem_of_list_to_set, Hall, Hf.
Qed.

End PersistedState.

(** C5 (as amended). When [process_once] runs with [skip_processed] and
    every stats file found is already in the processed list of the loaded
    state, it sends no request, leaves the remote sheets alone, returns
    [False], and the state it persists reads back as the loaded state with
    [processed_files] cut to its last 500 entries. Running the pass a second
    time changes nothing further when every file found is among these last
    500 entries, as it is when the loaded list holds at most 500. *)
Theorem pass_without_new_results_is_idempotent
    (float_of_str : string -> option Q) (repr_of_json : json -> string)
    (config : AppConfig) (files : list stats_file) (w : world) (state : AppState) :
  load_state float_of_str repr_of_json (state_file w) = Ok state ->
  (forall f, f ∈ files -> path f ∈ processed_files state) ->
  let trimmed_state :=
    mkAppState (scenarios state) (Py.suffix 500 (processed_files state)) in
  let out := process_once float_of_str repr_of_json config files true w in
  fst out = Ok false
  /\ calls (snd out) = calls w
  /\ service (snd out) = service w
  /\ load_state float_of_str repr_of_json (state_file (snd out)) = Ok trimmed_state
  /\ ((forall f, f ∈ files -> path f ∈ Py.suffix 500 (processed_files state)) ->
      process_once float_of_str repr_of_json config files true (snd out)
      = (Ok false, snd out))
  /\ ((length (processed_files state) <= 500)%nat ->
      process_once float_of_str repr_of_json config files true (snd out)
      = (Ok false, snd out)).
Proof.
  intros Hload Hall trimmed_state out.
  assert (Hout : out = (Ok false,
            World (_sheet_cache w) (_sheet_list_cache w) (service w) (calls w)
              (Some (state_payload trimmed_state))))
    by (apply process_once_no_new_results; assumption).
  assert (Hreload :
            load_state float_of_str repr_of_json (Some (state_payload trimmed_state))
            = Ok trimmed_state).
  { rewrite load_state_payload.
    - unfold trimmed_state. cbn [scenarios processed_files].
      rewrite suffix_idemp. reflexivity.
    - exact (load_state_trimmed _ _ _ _ Hload). }
  rewrite Hout. cbn [fst snd calls service state_file].
  assert (Hagain : (forall f, f ∈ files -> path f ∈ Py.suffix 500 (processed_files state)) ->
            process_once float_of_str repr_of_json config files true
              (World (_sheet_cache w) (_sheet_list_cache w) (service w) (calls w)
                 (Some (state_payload trimmed_state)))
            = (Ok false,
               World (_sheet_cache w) (_sheet_list_cache w) (service w) (calls w)
                 (Some (state_payload trimmed_state)))).
  { intros Hall'.
    set (w1 := World (_sheet_cache w) (_sheet_list_cache w) (service w) (calls w)
                 (Some (state_payload trimmed_state))).
    rewrite (process_once_no_new_results float_of_str repr_of_json config files w1
               trimmed_state Hreload Hall').
    unfold w1. cbn [_sheet_cache _sheet_list_cache service calls].
    unfold trimmed_state at 1 2. cbn [scenarios processed_files].
    rewrite suffix_idemp. reflexivity. }
  split; [reflexivity|]. split; [reflexivity|]. split; [reflexivity|].
  split; [exact Hreload|]. split; [exact Hagain|].
  intros Hshort. apply Hagain. intros f Hf.
  rewrite suffix_short by exact Hshort. apply Hall, Hf.
Qed.

Lemma pass_without_new_results_is_idempotent_witness :
  let config := mkAppConfig "sid" ["High Score"%string] None in
  let files :=
    [ mkStatsFile "a.csv" (Some [ ["Scenario:"; "Close Range"]; ["Score:"; "120"] ]) None ]%string in
  let state :=
    mkAppState
      {[ "Close Range"%string :=
           mkScenarioState (Some 120%Q) (Some "Main"%string) (Some "B2"%string)
             (Some "A2"%string) ]}
      ["a.csv"%string] in
  let w := World ∅ ∅ ∅ [] (Some (state_payload state)) in
  let out := process_once Plain.float_of_str Plain.repr_of_json config files true w in
  fst out = Ok false
  /\ calls (snd out) = calls w
  /\ service (snd out) = service w
  /\ load_state Plain.float_of_str Plain.repr_of_json (state_file (snd out))
     = Ok (mkAppState (scenarios state) (Py.suffix 500 (processed_files state)))
  /\ ((forall f, f ∈ files -> path f ∈ Py.suffix 500 (processed_files state)) ->
      process_once Plain.float_of_str Plain.repr_of_json config files true (snd out)
      = (Ok false, snd out))
  /\ ((length (processed_files state) <= 500)%nat ->
      process_once Plain.float_of_str Plain.repr_of_json config files true (snd out)
      = (Ok false, snd out)).
Proof.
  intros config files state w out.
  apply (pass_without_new_results_is_idempotent Plain.float_of_str Plain.repr_of_json
           config files w state).
  - vm_compute. reflexivity.
  - intros f Hf. apply list_elem_of_singleton in Hf as ->.
    apply list_elem_of_here.
Defined.

(** The claim C5 as stated fails for its last part. The loaded list holds
    501 entries, the file found being the oldest: the first pass has no new
    result and writes the list cut to 500 entries, which drops that path;
    the same pass run again takes the file for a new one and writes to the
    sheet. *)
Lemma second_pass_after_trimming_counterexample :
  let config := mkAppConfig "sid" ["High Score"%string] None in
  let files :=
    [ mkStatsFile "a.csv" (Some [ ["Scenario:"; "Close Range"]; ["Score:"; "120"] ])
        None ]%string in
  let later := List.repeat "old.csv"%string 500 in
  let file :=
    Some (JObj [ ("processed_files"%string, JArr (List.map JStr ("a.csv"%string :: later)));
                 ("scenarios"%string, JObj []) ]) in
  let w := World ∅ ∅
             {[ "sid"%string :=
                  [("Main"%string,
                    [ [CStr "Scenario"; CStr "High Score"];
                      [CStr "Close Range"; CStr ""] ])] ]} [] file in
  let first := process_once Plain.float_of_str Plain.repr_of_json config files true w in
  let second :=
    process_once Plain.float_of_str Plain.repr_of_json config files true (snd first) in
  (exists state,
      load_state Plain.float_of_str Plain.repr_of_json file = Ok state
      /\ length (processed_files state) = 501%nat
      /\ forall f, f ∈ files -> path f ∈ processed_files state)
  /\ fst first = Ok false
  /\ calls (snd first) = []
  /\ fst second = Ok true
  /\ calls (snd second)
     = [ SheetsGet "sid"; ValuesGet "sid" "Main";
         ValuesUpdate "sid" (range_ref "Main" "B2") 120 ].
Proof.
  intros config files later file w first second. split.
  - eexists. split; [vm_compute; reflexivity|]. split; [reflexivity|].
    intros f Hf%list_elem_of_singleton. subst f. apply list_elem_of_here.
  - vm_compute. repeat split; reflexivity.
Qed.

Section TripleInvariant.

Variable float_of_str : string -> option Q.
Variable repr_of_json : json -> string.

Lemma load_scenarios_forall (P : ScenarioState -> Prop) items acc loaded :
  (forall name entry, acc !! name = Some entry -> P entry) ->
  (forall name data best,
      (name, JObj data) ∈ items ->
      P (mkScenarioState best
           (_optional_str repr_of_json (jget "worksheet" data))
           (_optional_str repr_of_json (jget "score_cell" data))
           (_optional_str repr_of_json (jget "scenario_cell" data)))) ->
  load_scenarios float_of_str repr_of_json items acc = Ok loaded ->
  forall name entry, loaded !! name = Some entry -> P entry.
Proof.
  revert acc. induction items as [|[key data] items IH]; intros acc Hacc Hitems.
  - intros [= <-]. exact Hacc.
  - assert (Hrest : forall name data0 best,
               (name, JObj data0) ∈ items -> P (mkScenarioState best
                 (_optional_str repr_of_json (jget "worksheet" data0))
                 (_optional_str repr_of_json (jget "score_cell" data0))
                 (_optional_str repr_of_json (jget "scenario_cell" data0))))
      by (intros name data0 best Hin; apply (Hitems name), list_elem_of_further, Hin).
    cbn [load_scenarios]. destruct data; try (apply IH; assumption).
    destruct (_to_optional_float _ _) as [best|e]; [|discriminate].
    apply IH; [|exact Hrest]. intros name entry.
    destruct (decide (key = name)) as [->|Hne].
    + rewrite lookup_insert_eq. intros [= <-].
      apply (Hitems name), list_elem_of_here.
    + rewrite lookup_insert_ne by exact Hne. apply Hacc.
Qed.

Lemma load_state_forall (P : ScenarioState -> Prop) file state :
  load_state float_of_str repr_of_json file = Ok state ->
  (forall name data best,
      (name, JObj data) ∈ scenario_items file ->
      P (mkScenarioState best
           (_optional_str repr_of_json (jget "worksheet" data))
           (_optional_str repr_of_json (jget "score_cell" data))
           (_optional_str repr_of_json (jget "scenario_cell" data)))) ->
  forall name entry, scenarios state !! name = Some entry -> P entry.
Proof.
  unfold load_state, scenario_items. destruct file as [raw|].
  - destruct raw; try discriminate.
    destruct (jget "scenarios" items) as [v|]; cbn [default from_option id].
    + destruct v;
        try (intros [= <-] _ name entry; cbn; rewrite lookup_empty; discriminate).
      destruct (load_scenarios _ _ _ _) as [loaded|e] eqn:El; [|discriminate].
      intros [= <-] Hitems. cbn [scenarios].
      apply (load_scenarios_forall P items0 ∅ loaded); [|exact Hitems|exact El].
      intros name entry. rewrite lookup_empty. discriminate.
    + cbn [load_scenarios]. intros [= <-] _ name entry. cbn.
      rewrite lookup_empty. discriminate.
  - intros [= <-] _ name entry. cbn. rewrite lookup_empty. discriminate.
Qed.

(** What [_optional_str] makes of a field, read off the JSON value. *)
Lemma optional_str_blank value :
  is_Some (_optional_str repr_of_json value) -> ~ json_blank value.
Proof.
  intros Hset Hblank.
  destruct value as [[| | | |s| |]|]; cbn [_optional_str json_blank py_str] in *;
    try contradiction; try (destruct Hset as [x [=]]; fail).
  rewrite Hblank in Hset. destruct Hset as [x [=]].
Qed.

Lemma optional_str_text value :
  json_text value -> is_Some (_optional_str repr_of_json value).
Proof.
  intros Htext.
  destruct value as [[| | | |s| |]|]; cbn [_optional_str json_text py_str] in *;
    try contradiction.
  destruct (Str.is_empty (Str.strip s)) eqn:E.
  - apply StrFacts.is_empty_true in E. contradiction.
  - eexists. reflexivity.
Qed.

(** A run changes no entry but its own, which it creates with no field
    set and to which it assigns a resolved triple whole. *)
Lemma process_run_kept_or_whole base config run state updated :
  kept_or_whole base state ->
  spec (fun _ => True) (fun acc => kept_or_whole base acc.1)
    (process_run float_of_str config run (state, updated)).
Proof.
  intros Hinv.
  assert (Hany : forall c, is_read c -> True) by (intros; exact I).
  unfold process_run.
  destruct (scenario_entry state (scenario run)) as [scenario_state state1] eqn:Ee.
  assert (Hinv1 : kept_or_whole base state1).
  { unfold scenario_entry in Ee.
    destruct (scenarios state !! scenario run); injection Ee as <- <-; [exact Hinv|].
    intros name entry. cbn [scenarios].
    destruct (decide (scenario run = name)) as [->|Hne].
    - rewrite lookup_insert_eq. intros [= <-]. right. intros [x [=]].
    - rewrite lookup_insert_ne by exact Hne. apply Hinv. }
  eapply spec_bind.
  { eapply spec_weaken; [exact Hany|intros a Ha; exact Ha|].
    apply spec_try_google, spec_resolve_target_cell. }
  intros [[[ws sc] lc]|] _; [|apply spec_ret; exact Hinv1].
  set (st2 := store_entry state1 _ _).
  assert (Hinv2 : kept_or_whole base st2).
  { unfold st2, store_entry. intros name entry. cbn [scenarios].
    destruct (decide (scenario run = name)) as [->|Hne].
    - rewrite lookup_insert_eq. intros [= <-]. right. intros _. cbn.
      split; eexists; reflexivity.
    - rewrite lookup_insert_ne by exact Hne. apply Hinv1. }
  eapply spec_bind.
  { eapply spec_weaken; [exact Hany|intros a Ha; exact Ha|].
    apply spec_get_numeric_cell. }
  intros sheet_value _.
  destruct (_ && _); [apply spec_ret; exact Hinv2|].
  eapply spec_bind.
  { eapply spec_weaken; [exact Hany|intros a Ha; exact Ha|].
    apply spec_find_mirror_cells. }
  intros mirror_cells _.
  eapply spec_bind; [apply spec_update_cell; exact I|]. intros _ _.
  eapply spec_bind; [apply spec_update_cells; intros; exact I|]. intros _ _.
  apply spec_ret. exact Hinv2.
Qed.

Lemma process_runs_kept_or_whole base config new_runs : forall state updated,
  kept_or_whole base state ->
  spec (fun _ => True) (fun acc => kept_or_whole base acc.1)
    (process_runs float_of_str config new_runs (state, updated)).
Proof.
  induction new_runs as [|run rest IH]; intros state updated Hinv.
  - apply spec_ret. exact Hinv.
  - cbn [process_runs]. eapply spec_bind.
    + apply process_run_kept_or_whole. exact Hinv.
    + intros [state1 updated1] Hinv1. apply IH. exact Hinv1.
Qed.

(** The state a completed pass writes. *)
Lemma process_once_kept_or_whole config files skip_processed w state updated w' :
  load_state float_of_str repr_of_json (state_file w) = Ok state ->
  process_once float_of_str repr_of_json config files skip_processed w
  = (Ok updated, w') ->
  exists state',
    state_file w' = Some (state_payload state') /\ kept_or_whole state state'.
Proof.
  intros Hload. unfold process_once. rewrite Hload.
  destruct (_collect_runs _ _ _ _) as [[new_runs processed_paths]|e]; [|discriminate].
  assert (Hsame : kept_or_whole state state) by (intros name entry H; left; exact H).
  destruct new_runs as [|run rest].
  - intros [= _ <-]. eexists. split; [reflexivity|]. exact Hsame.
  - unfold bind at 1.
    destruct (process_runs _ _ _ _ w) as [[[state1 updated1]|e] w1] eqn:Eruns;
      [|discriminate].
    destruct (process_runs_kept_or_whole state config (run :: rest) state false Hsame
                w _ w1 Eruns) as [_ Hres].
    intros [= _ <-]. eexists. split; [reflexivity|].
    exact (Hres _ eq_refl).
Qed.

End TripleInvariant.

(** C6 (as amended). In the state a completed pass of [process_once]
    writes, every entry is the entry loaded under that name or has its
    triple whole: an entry the pass creates has no field set, and a resolved
    triple is assigned whole, whatever the entry held before. [load_state]
    rebuilds the fields of an entry one by one and checks nothing: the
    entries it returns have their triple whole when every scenario object
    of the file whose [score_cell] is other than missing, null or a blank
    string has non-blank strings for [worksheet] and [scenario_cell]. *)
Theorem triple_invariant_of_pass_and_load
    (float_of_str : string -> option Q) (repr_of_json : json -> string) :
  (forall (config : AppConfig) (files : list stats_file) (skip_processed : bool)
          (w w' : world) (state : AppState) (updated : bool),
      load_state float_of_str repr_of_json (state_file w) = Ok state ->
      process_once float_of_str repr_of_json config files skip_processed w
      = (Ok updated, w') ->
      exists state',
        state_file w' = Some (state_payload state')
        /\ forall name entry,
            scenarios state' !! name = Some entry ->
            scenarios state !! name = Some entry \/ triple_invariant entry)
  /\ (forall (file : option json) (state : AppState),
         load_state float_of_str repr_of_json file = Ok state ->
         (forall name data,
             (name, JObj data) ∈ scenario_items file ->
             ~ json_blank (jget "score_cell" data) ->
             json_text (jget "worksheet" data)
             /\ json_text (jget "scenario_cell" data)) ->
         forall name entry, scenarios state !! name = Some entry -> triple_invariant entry).
Proof.
  split.
  - intros config files skip_processed w w' state updated Hload Hrun.
    exact (process_once_kept_or_whole float_of_str repr_of_json config files
             skip_processed w state updated w' Hload Hrun).
  - intros file state Hload Hfile.
    apply (load_state_forall float_of_str repr_of_json triple_invariant file state Hload).
    intros name data best Hin. unfold triple_invariant.
    cbn [score_cell worksheet scenario_cell]. intros Hscore.
    destruct (Hfile name data Hin (optional_str_blank repr_of_json _ Hscore))
      as [Hws Hlc].
    split; apply optional_str_text; assumption.
Qed.

Lemma triple_invariant_of_pass_and_load_witness :
  triple_invariant
    (mkScenarioState (Some (inject_Z 120)) (Some "Main"%string) (Some "B2"%string)
       (Some "A2"%string)).
Proof.
  eapply (proj2 (triple_invariant_of_pass_and_load Plain.float_of_str Plain.repr_of_json)
            (Some (JObj [ ("scenarios"%string,
                           JObj [ ("Close Range"%string,
                                   JObj [ ("best_score", JInt 120);
                                          ("worksheet", JStr "Main");
                                          ("score_cell", JStr " B2 ");
                                          ("scenario_cell", JStr "A2") ]%string) ]) ])))
    with (name := "Close Range"%string).
  - vm_compute. reflexivity.
  - intros name data Hin _.
    apply list_elem_of_singleton in Hin. injection Hin as -> ->.
    split; vm_compute; discriminate.
  - vm_compute. reflexivity.
Defined.

(** The claim C6 as stated fails for [load_state]: a state file whose entry
    gives only [score_cell] is read without complaint. *)
Lemma load_state_partial_triple_counterexample :
  exists state entry,
    load_state Plain.float_of_str Plain.repr_of_json
      (Some (JObj [ ("processed_files"%string, JArr []);
                    ("scenarios"%string,
                     JObj [ ("Close Range"%string,
                             JObj [ ("score_cell"%string, JStr "B2") ]) ]) ]))
    = Ok state
    /\ scenarios state !! "Close Range"%string = Some entry
    /\ score_cell entry = Some "B2"%string
    /\ worksheet entry = None
    /\ ~ triple_invariant entry.
Proof.
  eexists. eexists. split; [reflexivity|].
  split; [vm_compute; reflexivity|].
  split; [reflexivity|]. split; [reflexivity|].
  intros H. destruct (H (mk_is_Some _ _ eq_refl)) as [[x Hx] _]. discriminate.
Qed.

(** ** Stats files *)

Section StatsFiles.

Variable float_of_str : string -> option Q.

Lemma entries_cons key row reader :
  entries key (row :: reader)
  = if keyed key row then row :: entries key reader else entries key reader.
Proof. reflexivity. Qed.

Lemma keyed_blank_key key first rest :
  key <> "" -> Str.is_empty (Str.strip first) = true ->
  keyed key (first :: rest) = false.
Proof.
  intros Hkey He. apply StrFacts.is_empty_true in He.
  unfold keyed. destruct rest; [reflexivity|]. rewrite He.
  apply String.eqb_neq. congruence.
Qed.

(** What the loop computes when each key heads at most one entry: the
    scenario is the trimmed value of the "Scenario:" entry, the score the
    parsed value of the "Score:" entry. *)
Lemma parse_rows_unique reader : forall scenario score,
  (length (entries "Scenario:" reader) <= 1)%nat ->
  (length (entries "Score:" reader) <= 1)%nat ->
  (is_Some scenario -> entries "Scenario:" reader = []) ->
  (is_Some score -> entries "Score:" reader = []) ->
  Py.truthy scenario && bool_decide (is_Some score) = false ->
  parse_rows float_of_str "Score" reader None scenario score
  = let scenario' :=
      match head (entries "Scenario:" reader) with
      | Some row => Some (Str.strip (value_of row))
      | None => scenario
      end in
    match head (entries "Score:" reader) with
    | Some row =>
        match float_of_str (value_of row) with
        | Some x => Ok (scenario', Some x)
        | None =>
            Raise (StatsParseError
                     ("Could not parse score value '" ++ value_of row ++ "' as float"))
        end
    | None => Ok (scenario', score)
    end.
Proof.
  induction reader as [|row reader IH]; intros scenario score Hn1 Hn2 Hs Hc Hopen.
  - reflexivity.
  - rewrite !entries_cons in *.
    destruct row as [|first [|value tl]].
    + (* an empty row *)
      cbn [keyed parse_rows] in *. apply IH; assumption.
    + (* a key without value *)
      cbn [keyed] in *. cbn [parse_rows].
      destruct (Str.is_empty (Str.strip first)); [apply IH; assumption|].
      rewrite Hopen. apply IH; assumption.
    + cbn [parse_rows].
      destruct (Str.is_empty (Str.strip first)) eqn:Ekey.
      { rewrite !keyed_blank_key in * by (assumption || discriminate).
        apply IH; assumption. }
      change ("Score" ++ ":") with "Score:".
      cbn [keyed] in *.
      destruct (String.eqb_spec (Str.strip first) "Scenario:") as [Hk1|Hk1].
      * (* the "Scenario:" entry *)
        assert (Hk2 : (Str.strip first =? "Score:")%string = false)
          by (rewrite Hk1; reflexivity).
        rewrite Hk2 in *. cbn [head value_of length] in *.
        assert (Hrest : entries "Scenario:" reader = [])
          by (destruct (entries "Scenario:" reader); [reflexivity|cbn in Hn1; lia]).
        destruct (Py.truthy (Some (Str.strip value)) && bool_decide (is_Some score))
          eqn:Edone.
        -- apply andb_prop in Edone as [_ Hsc%bool_decide_eq_true].
           rewrite (Hc Hsc). reflexivity.
        -- rewrite IH; try assumption.
           ++ rewrite Hrest. reflexivity.
           ++ rewrite Hrest. cbn. lia.
           ++ intros _. exact Hrest.
      * destruct (String.eqb_spec (Str.strip first) "Score:") as [Hk2|Hk2].
        -- (* the "Score:" entry *)
           cbn [head value_of length] in *.
           assert (Hrest : entries "Score:" reader = [])
             by (destruct (entries "Score:" reader); [reflexivity|cbn in Hn2; lia]).
           destruct (float_of_str value) as [x|]; [|reflexivity].
           destruct (Py.truthy scenario && bool_decide (is_Some (Some x))) eqn:Edone.
           ++ apply andb_prop in Edone as [Hsc _].
              assert (Hsome : is_Some scenario)
                by (destruct scenario; [eexists; reflexivity|discriminate]).
              rewrite (Hs Hsome). reflexivity.
           ++ rewrite IH; try assumption.
              ** rewrite Hrest. reflexivity.
              ** rewrite Hrest. cbn. lia.
              ** intros _. exact Hrest.
        -- (* any other row *)
           rewrite Hopen. apply IH; assumption.
Qed.

Lemma parse_stats_file_unique name reader :
  (length (entries "Scenario:" reader) <= 1)%nat ->
  (length (entries "Score:" reader) <= 1)%nat ->
  (exists msg,
      parse_stats_file float_of_str (mkStatsFile name (Some reader) None)
      = Raise (StatsParseError msg))
  <-> lacks_scenario reader \/ lacks_score reader
      \/ score_unparsable float_of_str reader.
Proof.
  intros Hn1 Hn2. unfold parse_stats_file. cbn [rows path failure].
  rewrite parse_rows_unique; try assumption; try (intros [x [=]]); [|reflexivity].
  unfold lacks_scenario, lacks_score, score_unparsable.
  destruct (entries "Score:" reader) as [|row2 [|? ?]]; [| |cbn in Hn2; lia].
  - cbn [head]. split; [intros _; right; left; reflexivity|intros _].
    destruct (negb (Py.truthy _)); [eexists; reflexivity|].
    destruct (match head _ with Some _ => _ | None => _ end); eexists; reflexivity.
  - cbn [head]. destruct (float_of_str (value_of row2)) as [x|] eqn:Ex.
    + destruct (entries "Scenario:" reader) as [|row1 [|? ?]]; [| |cbn in Hn1; lia].
      * cbn. split; [intros _; left|intros _; eexists; reflexivity].
        intros row Hin. inversion Hin.
      * cbn [head Py.truthy].
        destruct (Str.strip (value_of row1)) as [|c tail] eqn:Ename.
        -- cbn. split; [intros _; left|intros _; eexists; reflexivity].
           intros row Hin%list_elem_of_singleton. subst row. exact Ename.
        -- cbn. split; [intros [msg [=]]|].
           intros [Hl|[Hl|(row & Hin%list_elem_of_singleton & Hnone)]].
           ++ specialize (Hl row1 (list_elem_of_here _ _)). congruence.
           ++ discriminate.
           ++ subst row. congruence.
    + split; [|intros _; eexists; reflexivity].
      intros _. right. right. exists row2. split; [apply list_elem_of_here|exact Ex].
Qed.

(** A file that is read to its end raises nothing but parse errors. *)
Lemma parse_rows_decoded score_field reader : forall scenario score e,
  parse_rows float_of_str score_field reader None scenario score = Raise e ->
  exists msg, e = StatsParseError msg.
Proof.
  induction reader as [|row reader IH]; intros scenario score e; [discriminate|].
  cbn [parse_rows]. destruct row as [|first [|value tl]].
  - apply IH.
  - destruct (Str.is_empty (Str.strip first)); [apply IH|].
    destruct (Py.truthy scenario && bool_decide (is_Some score));
      [discriminate|apply IH].
  - destruct (Str.is_empty (Str.strip first)); [apply IH|].
    destruct (Str.strip first =? score_field ++ ":")%string.
    + destruct (float_of_str value) as [x|];
        [|intros [= <-]; eexists; reflexivity].
      destruct (Py.truthy _ && bool_decide _); [discriminate|apply IH].
    + destruct (Py.truthy _ && bool_decide _); [discriminate|apply IH].
Qed.

Lemma parse_stats_file_decoded file e :
  failure file = None ->
  parse_stats_file float_of_str file = Raise e ->
  exists msg, e = StatsParseError msg.
Proof.
  intros Hend. unfold parse_stats_file. rewrite Hend.
  destruct (rows file) as [reader|]; [|intros [= <-]; eexists; reflexivity].
  destruct (parse_rows float_of_str "Score" reader None None None)
    as [[scenario score]|e'] eqn:Erows.
  - destruct (negb (Py.truthy scenario)); [intros [= <-]; eexists; reflexivity|].
    destruct scenario; [destruct score|]; try discriminate;
      intros [= <-]; eexists; reflexivity.
  - intros [= <-]. exact (parse_rows_decoded _ _ _ _ _ Erows).
Qed.

(** The loop returns when every file it meets is read to its end. *)
Lemma collect_loop_returns skip files : forall (processed_set : gset string)
    processed_paths runs,
  (forall f, f ∈ files -> failure f = None) ->
  exists out,
    collect_loop float_of_str skip files processed_set processed_paths runs = Ok out.
Proof.
  induction files as [|file files IH]; intros processed_set processed_paths runs Hend.
  - eexists. reflexivity.
  - assert (Hrest : forall f, f ∈ files -> failure f = None)
      by (intros f Hf; apply Hend, list_elem_of_further, Hf).
    cbn [collect_loop].
    destruct (skip && bool_decide _); [apply IH, Hrest|].
    destruct (bool_decide _);
      (destruct (parse_stats_file float_of_str file) as [run|e] eqn:Ep;
       [apply IH, Hrest|]);
      (destruct (parse_stats_file_decoded file e (Hend _ (list_elem_of_here _ _)) Ep)
         as [msg ->]);
      apply IH, Hrest.
Qed.

(** The processed list only grows, and it ends up with the path of every
    file found; the set always holds the same paths as the list. *)
Lemma collect_loop_paths skip files : forall (processed_set : gset string)
    processed_paths runs out,
  (forall x, x ∈ processed_set <-> x ∈ processed_paths) ->
  collect_loop float_of_str skip files processed_set processed_paths runs = Ok out ->
  (forall x, x ∈ processed_paths -> x ∈ out.2)
  /\ (forall f, f ∈ files -> path f ∈ out.2).
Proof.
  induction files as [|file files IH]; intros processed_set processed_paths runs out Hset.
  - intros [= <-]. split; [intros x Hx; exact Hx|intros f Hf; inversion Hf].
  - cbn [collect_loop].
    destruct (bool_decide (path file ∈ processed_set)) eqn:Ein.
    + apply bool_decide_eq_true in Ein.
      assert (Hstep : forall pp runs',
                 collect_loop float_of_str skip files processed_set processed_paths runs'
                 = Ok pp ->
                 (forall x, x ∈ processed_paths -> x ∈ pp.2)
                 /\ (forall f, f ∈ file :: files -> path f ∈ pp.2)).
      { intros pp runs' Hpp. destruct (IH _ _ _ _ Hset Hpp) as [H1 H2].
        split; [exact H1|].
        intros f [->|Hf]%elem_of_cons; [apply H1, Hset, Ein|apply H2, Hf]. }
      destruct skip; cbn [andb]; [apply Hstep|].
      destruct (parse_stats_file float_of_str file) as [run|[]];
        try discriminate; apply Hstep.
    + apply bool_decide_eq_false in Ein. rewrite andb_false_r.
      assert (Hset' : forall x,
                 x ∈ ({[path file]} ∪ processed_set : gset string)
                 <-> x ∈ (processed_paths ++ [path file])%list).
      { intros x. rewrite elem_of_union, elem_of_singleton, elem_of_app,
          list_elem_of_singleton, Hset. tauto. }
      assert (Hstep : forall pp runs',
                 collect_loop float_of_str skip files ({[path file]} ∪ processed_set)
                   (processed_paths ++ [path file])%list runs'
                 = Ok pp ->
                 (forall x, x ∈ processed_paths -> x ∈ pp.2)
                 /\ (forall f, f ∈ file :: files -> path f ∈ pp.2)).
      { intros pp runs' Hpp. destruct (IH _ _ _ _ Hset' Hpp) as [H1 H2]. split.
        - intros x Hx. apply H1, elem_of_app. left. exact Hx.
        - intros f [->|Hf]%elem_of_cons; [|apply H2, Hf].
          apply H1, elem_of_app. right. apply list_elem_of_here. }
      destruct (parse_stats_file float_of_str file) as [run|[]];
        try discriminate; apply Hstep.
Qed.

(** Every run collected is the parse result of one of the files. *)
Lemma collect_loop_runs skip files : forall (processed_set : gset string)
    processed_paths runs out run,
  collect_loop float_of_str skip files processed_set processed_paths runs = Ok out ->
  run ∈ out.1 ->
  run ∈ runs
  \/ exists other, other ∈ files /\ parse_stats_file float_of_str other = Ok run.
Proof.
  induction files as [|file files IH];
    intros processed_set processed_paths runs out run.
  - intros [= <-] H. left. exact H.
  - cbn [collect_loop].
    assert (Hskip : forall ps pp,
               collect_loop float_of_str skip files ps pp runs = Ok out ->
               run ∈ out.1 ->
               run ∈ runs
               \/ exists other, other ∈ file :: files
                                /\ parse_stats_file float_of_str other = Ok run).
    { intros ps pp Hout Hrun.
      destruct (IH _ _ _ _ _ Hout Hrun) as [H|(other & Hin & Hp)]; [left; exact H|right].
      exists other. split; [apply list_elem_of_further, Hin|exact Hp]. }
    assert (Hadd : forall ps pp parsed,
               parse_stats_file float_of_str file = Ok parsed ->
               collect_loop float_of_str skip files ps pp (runs ++ [parsed])%list
               = Ok out ->
               run ∈ out.1 ->
               run ∈ runs
               \/ exists other, other ∈ file :: files
                                /\ parse_stats_file float_of_str other = Ok run).
    { intros ps pp parsed Ep Hout Hrun.
      destruct (IH _ _ _ _ _ Hout Hrun) as [H|(other & Hin & Hp)].
      - apply elem_of_app in H as [H|H%list_elem_of_singleton]; [left; exact H|].
        right. exists file. subst. split; [apply list_elem_of_here|exact Ep].
      - right. exists other. split; [apply list_elem_of_further, Hin|exact Hp]. }
    destruct (skip && bool_decide _); [apply Hskip|].
    destruct (bool_decide _);
      (destruct (parse_stats_file float_of_str file) as [parsed|[]] eqn:Ep;
       try discriminate; [apply (Hadd _ _ _ eq_refl)|apply Hskip]).
Qed.

End StatsFiles.

(** C10 (as amended). For a stats file that is read to its end and in
    which "Scenario:" and "Score:" each head at most one entry,
    [parse_stats_file] raises a parse error exactly when no "Scenario:"
    entry names a scenario, there is no "Score:" entry, or the score value
    does not parse as a number. When every file found is read to its end,
    [_collect_runs] returns; the list it returns holds the path of every
    file on which [parse_stats_file] raised a parse error, and every run it
    returns is the parse result of a file that parsed: the failing file
    contributes none and the pass goes on. *)
Theorem parse_error_when_malformed_and_still_processed
    (float_of_str : string -> option Q) :
  (forall (name : string) (reader : list (list string)),
      (length (entries "Scenario:" reader) <= 1)%nat ->
      (length (entries "Score:" reader) <= 1)%nat ->
      (exists msg,
          parse_stats_file float_of_str (mkStatsFile name (Some reader) None)
          = Raise (StatsParseError msg))
      <-> lacks_scenario reader \/ lacks_score reader
          \/ score_unparsable float_of_str reader)
  /\ (forall (files : list stats_file) (processed : list string)
             (skip_processed : bool),
         (forall f, f ∈ files -> failure f = None) ->
         exists runs paths,
           _collect_runs float_of_str files processed skip_processed = Ok (runs, paths)
           /\ (forall file msg,
                  file ∈ files ->
                  parse_stats_file float_of_str file = Raise (StatsParseError msg) ->
                  path file ∈ paths)
           /\ forall run,
               run ∈ runs ->
               exists other,
                 other ∈ files /\ parse_stats_file float_of_str other = Ok run).
Proof.
  split.
  - intros name reader. apply parse_stats_file_unique.
  - intros files processed skip_processed Hend.
    destruct (collect_loop_returns float_of_str skip_processed files
                (list_to_set processed) processed [] Hend) as [[runs paths] Hout].
    exists runs, paths. split; [exact Hout|]. split.
    + intros file msg Hin _.
      apply (collect_loop_paths float_of_str skip_processed files
               (list_to_set processed) processed [] (runs, paths)); [|exact Hout|exact Hin].
      intros x. apply elem_of_list_to_set.
    + intros run Hrun.
      destruct (collect_loop_runs float_of_str skip_processed files _ _ _ _ _ Hout Hrun)
        as [Hnil|Hother]; [inversion Hnil|exact Hother].
Qed.

Lemma parse_error_when_malformed_and_still_processed_witness :
  let broken := mkStatsFile "b.csv" (Some [ ["Scenario:"; "Close Range"] ])%string None in
  let good :=
    mkStatsFile "a.csv" (Some [ ["Scenario:"; "Close Range"]; ["Score:"; "120"] ])%string
      None in
  exists runs paths,
    _collect_runs Plain.float_of_str [good; broken] ["a.csv"%string] true
    = Ok (runs, paths)
    /\ (forall file msg,
           file ∈ [good; broken] ->
           parse_stats_file Plain.float_of_str file = Raise (StatsParseError msg) ->
           path file ∈ paths)
    /\ forall run,
        run ∈ runs ->
        exists other,
          other ∈ [good; broken]
          /\ parse_stats_file Plain.float_of_str other = Ok run.
Proof.
  intros broken good.
  apply (proj2 (parse_error_when_malformed_and_still_processed Plain.float_of_str)
           [good; broken] ["a.csv"%string] true).
  intros f [->|[->|Hf]%elem_of_cons]%elem_of_cons; [reflexivity|reflexivity|].
  inversion Hf.
Defined.

(** The claim C10 as stated fails. The first file has a "Scenario:" entry
    naming a scenario and a "Score:" entry whose value parses, and is
    rejected, because a second, blank "Scenario:" entry is read after the
    first. The second file is accepted although one of its score values
    does not parse: the loop is left before that row is read. The third
    file has no "Score:" entry and its bytes stop decoding after the first
    row: what is raised is no parse error, [_collect_runs] does not catch
    it and returns nothing, and the next file is never read. *)
Lemma parse_error_not_exactly_counterexample :
  let twice :=
    [ ["Scenario:"; "Close Range"]; ["Scenario:"; ""]; ["Score:"; "10"] ]%string in
  let late := [ ["Scenario:"; "Close Range"]; ["Score:"; "10"]; ["Score:"; "abc"] ]%string in
  let cut := [ ["Scenario:"; "Close Range"] ]%string in
  let good :=
    mkStatsFile "a.csv" (Some [ ["Scenario:"; "Close Range"]; ["Score:"; "120"] ])%string
      None in
  (parse_stats_file Plain.float_of_str (mkStatsFile "x.csv" (Some twice) None)
   = Raise (StatsParseError "No 'Scenario:' entry found in x.csv")
   /\ ~ lacks_scenario twice
   /\ ~ lacks_score twice
   /\ ~ score_unparsable Plain.float_of_str twice)
  /\ (parse_stats_file Plain.float_of_str (mkStatsFile "y.csv" (Some late) None)
      = Ok (mkScenarioRun "Close Range" 10 "y.csv")
      /\ score_unparsable Plain.float_of_str late)
  /\ (lacks_score cut
      /\ parse_stats_file Plain.float_of_str
           (mkStatsFile "z.csv" (Some cut) (Some UnicodeDecodeError))
         = Raise UnicodeDecodeError
      /\ _collect_runs Plain.float_of_str
           [mkStatsFile "z.csv" (Some cut) (Some UnicodeDecodeError); good] [] true
         = Raise UnicodeDecodeError).
Proof.
  intros twice late cut good.
  split; [split; [reflexivity|]|split; [split; [reflexivity|]|]].
  - split; [|split].
    + intros H.
      specialize (H ["Scenario:"; "Close Range"]%string (list_elem_of_here _ _)).
      discriminate.
    + discriminate.
    + intros (row & Hin & Hnone).
      apply list_elem_of_singleton in Hin. subst row. discriminate.
  - exists ["Score:"; "abc"]%string. split; [|reflexivity].
    apply list_elem_of_further, list_elem_of_here.
  - split; [reflexivity|]. split; vm_compute; reflexivity.
Qed.

(** ** More on cell references *)

Lemma col_index_loop_app prefix suffix acc :
  col_index_loop (prefix ++ suffix) acc = col_index_loop suffix (col_index_loop prefix acc).
Proof.
  revert acc. induction prefix as [|c prefix IH]; intros acc; [reflexivity|].
  rewrite StrFacts.append_cons. cbn [col_index_loop]. apply IH.
Qed.

(** The letter loop writes, in front of [result], upper-case letters whose
    base-26 value is [current]. *)
Lemma column_letter_loop_value fuel : forall current result,
  0 <= current -> (Z.to_nat current <= fuel)%nat ->
  exists letters,
    column_letter_loop fuel current result = letters ++ result
    /\ Str.forallb Str.isupper letters = true
    /\ col_index_loop letters 0 = current
    /\ (0 < current -> letters <> "").
Proof.
  induction fuel as [|fuel IH]; intros current result Hcur Hfuel.
  - exists "". repeat split; [cbn; lia|lia].
  - cbn [column_letter_loop]. destruct (Z.ltb_spec 0 current) as [Hpos|Hle].
    + destruct (Z.div_eucl (current - 1) 26) as [q r] eqn:E.
      assert (Hq : q = (current - 1) / 26) by (unfold Z.div; rewrite E; reflexivity).
      assert (Hr : r = (current - 1) mod 26) by (unfold Z.modulo; rewrite E; reflexivity).
      pose proof (Z.div_mod (current - 1) 26 ltac:(lia)) as Hdm.
      pose proof (Z.mod_pos_bound (current - 1) 26 ltac:(lia)) as Hmod.
      rewrite <- Hq, <- Hr in Hdm. rewrite <- Hr in Hmod.
      assert (Hq0 : 0 <= q) by (rewrite Hq; apply Z.div_pos; lia).
      destruct (IH q (String (Str.chr (65 + r)) result) Hq0 ltac:(lia))
        as (letters & Hloop & Hup & Hval & _).
      exists (letters ++ String (Str.chr (65 + r)) "").
      rewrite Hloop, StrFacts.append_assoc. repeat split.
      * rewrite StrFacts.forallb_append, Hup. cbn. rewrite andb_true_r.
        unfold Str.isupper. rewrite code_chr by lia. lia.
      * rewrite col_index_loop_app, Hval. cbn [col_index_loop].
        rewrite code_chr by lia. lia.
      * intros _ H. destruct letters; discriminate.
    + exists "". repeat split; [cbn; lia|lia].
Qed.

(** X1. A reference built with [_column_letter] is read back as the same
    position. *)
Theorem cell_ref_read_back (col row : Z) :
  1 <= col -> 1 <= row ->
  _cell_to_indexes (cell_ref col row) = Some (row - 1, col - 1).
Proof.
  intros Hcol Hrow. unfold cell_ref, _column_letter.
  destruct (column_letter_loop_value (Z.to_nat col) col "" ltac:(lia) ltac:(lia))
    as (letters & Hloop & Hup & Hval & Hne).
  rewrite Hloop, StrFacts.append_nil_r.
  assert (Hnz : letters <> "") by (apply Hne; lia).
  destruct (Str.is_empty letters) eqn:Ee;
    [apply StrFacts.is_empty_true in Ee; congruence|].
  rewrite (cell_to_indexes_ref letters row Hnz Hup ltac:(lia)), Hval. reflexivity.
Qed.

Lemma cell_ref_read_back_witness :
  _cell_to_indexes (cell_ref 703 12) = Some (12 - 1, 703 - 1).
Proof. apply (cell_ref_read_back 703 12); lia. Defined.

(** X2. Indexes are never negative. *)
Theorem cell_to_indexes_nonnegative (ref : string) (row_idx col_idx : Z) :
  _cell_to_indexes ref = Some (row_idx, col_idx) -> 0 <= row_idx /\ 0 <= col_idx.
Proof.
  intros H. split.
  - exact (cell_to_indexes_row_nonneg _ _ _ H).
  - exact (cell_to_indexes_col_nonneg _ _ _ H).
Qed.

Lemma cell_to_indexes_nonnegative_witness : 0 <= 6 /\ 0 <= 27.
Proof. apply (cell_to_indexes_nonnegative " ab7" 6 27). reflexivity. Defined.

(** ** Names: exact and fuzzy matches *)

Lemma isspace_lower_char c : Str.isspace (Str.lower_char c) = Str.isspace c.
Proof.
  unfold Str.lower_char. destruct (Str.isupper c) eqn:Eu; [|reflexivity].
  unfold Str.isupper in Eu. unfold Str.isspace. rewrite code_chr by lia. lia.
Qed.

Lemma is_empty_map f s : Str.is_empty (Str.map f s) = Str.is_empty s.
Proof. destruct s; reflexivity. Qed.

Lemma lower_lstrip s : Str.lower (Str.lstrip s) = Str.lstrip (Str.lower s).
Proof.
  induction s as [|c s IH]; [reflexivity|].
  cbn [Str.lstrip Str.lower Str.map]. rewrite isspace_lower_char.
  destruct (Str.isspace c); [exact IH|reflexivity].
Qed.

Lemma lower_rstrip s : Str.lower (Str.rstrip s) = Str.rstrip (Str.lower s).
Proof.
  induction s as [|c s IH]; [reflexivity|].
  cbn [Str.rstrip Str.lower Str.map]. rewrite isspace_lower_char.
  unfold Str.lower in IH. rewrite <- IH, is_empty_map.
  destruct (Str.isspace c && Str.is_empty (Str.rstrip s)); reflexivity.
Qed.

Lemma lower_strip s : Str.lower (Str.strip s) = Str.strip (Str.lower s).
Proof. unfold Str.strip. rewrite lower_rstrip, lower_lstrip. reflexivity. Qed.

Lemma filter_lstrip p s :
  (forall c, p c = true -> Str.isspace c = false) ->
  Str.filter p (Str.lstrip s) = Str.filter p s.
Proof.
  intros Hp. induction s as [|c s IH]; [reflexivity|].
  cbn [Str.lstrip Str.filter]. destruct (Str.isspace c) eqn:Es; [|reflexivity].
  destruct (p c) eqn:Ep; [|exact IH]. rewrite (Hp c Ep) in Es. discriminate.
Qed.

Lemma filter_rstrip p s :
  (forall c, p c = true -> Str.isspace c = false) ->
  Str.filter p (Str.rstrip s) = Str.filter p s.
Proof.
  intros Hp. induction s as [|c s IH]; [reflexivity|].
  cbn [Str.rstrip Str.filter].
  destruct (Str.isspace c && Str.is_empty (Str.rstrip s)) eqn:E.
  - apply andb_prop in E as [Es Ee]. apply StrFacts.is_empty_true in Ee.
    rewrite Ee in IH. cbn [Str.filter] in *.
    destruct (p c) eqn:Ep; [rewrite (Hp c Ep) in Es; discriminate|exact IH].
  - cbn [Str.filter]. rewrite IH. reflexivity.
Qed.

Lemma filter_strip p s :
  (forall c, p c = true -> Str.isspace c = false) ->
  Str.filter p (Str.strip s) = Str.filter p s.
Proof.
  intros Hp. unfold Str.strip. rewrite filter_rstrip, filter_lstrip by exact Hp.
  reflexivity.
Qed.

Lemma normalize_name_strip s : _normalize_name (Str.strip s) = _normalize_name s.
Proof.
  unfold _normalize_name. rewrite lower_strip. apply filter_strip.
  intros c. unfold Str.islower, Str.isdigit, Str.isspace. lia.
Qed.

Lemma letters_only_strip s : _letters_only (Str.strip s) = _letters_only s.
Proof.
  unfold _letters_only. rewrite lower_strip. apply filter_strip.
  intros c. unfold Str.islower, Str.isspace. lia.
Qed.

(** X3. A cell that matches the scenario name exactly also matches it under
    both normalisations, so it is a fallback candidate with length
    difference 0. *)
Theorem exact_match_is_fallback_candidate (text scenario_name : string) :
  cell_is_key (CStr text) (scenario_key (keys_of scenario_name)) = true ->
  _normalize_name text = scenario_norm (keys_of scenario_name)
  /\ _letters_only text = scenario_letters (keys_of scenario_name).
Proof.
  cbn [cell_is_key keys_of scenario_key scenario_norm scenario_letters].
  intros H%String.eqb_eq.
  rewrite <- (normalize_name_strip text), <- (normalize_name_strip scenario_name).
  rewrite <- (letters_only_strip text), <- (letters_only_strip scenario_name).
  unfold _normalize_name, _letters_only. rewrite H. split; reflexivity.
Qed.

Lemma exact_match_is_fallback_candidate_witness :
  _normalize_name "  CLOSE range " = scenario_norm (keys_of "Close Range")
  /\ _letters_only "  CLOSE range " = scenario_letters (keys_of "Close Range").
Proof.
  apply (exact_match_is_fallback_candidate "  CLOSE range " "Close Range").
  reflexivity.
Defined.

(** ** Header and "Progress" columns *)

Lemma mem_Z_elem x l : Py.mem_Z x l = true <-> x ∈ l.
Proof.
  unfold Py.mem_Z. rewrite existsb_exists. split.
  - intros (y & Hin & Heq%Z.eqb_eq). subst y. apply list_elem_of_In, Hin.
  - intros Hin. exists x. split; [apply list_elem_of_In, Hin|apply Z.eqb_refl].
Qed.

(** One row adds, without repeating a column, the columns of its cells that
    hold a header candidate. *)
Lemma score_columns_row_spec headers row : forall idx columns,
  NoDup columns ->
  NoDup (score_columns_row headers row idx columns)
  /\ forall c,
      c ∈ score_columns_row headers row idx columns
      <-> c ∈ columns
          \/ exists k v, row !! k = Some v /\ cell_in v headers = true
                         /\ c = idx + Z.of_nat k.
Proof.
  induction row as [|value row IH]; intros idx columns Hnd.
  - split; [exact Hnd|]. intros c. split; [intros H; left; exact H|].
    intros [H|(k & v & Hk & _)]; [exact H|]. rewrite lookup_nil in Hk. discriminate.
  - cbn [score_columns_row].
    set (columns' := if cell_in value headers
                     then if Py.mem_Z idx columns then columns
                          else (columns ++ [idx])%list
                     else columns).
    assert (Hnd' : NoDup columns').
    { unfold columns'. destruct (cell_in value headers); [|exact Hnd].
      destruct (Py.mem_Z idx columns) eqn:Em; [exact Hnd|].
      apply NoDup_app. split; [exact Hnd|]. split; [|apply NoDup_singleton].
      intros x Hx Hx'%list_elem_of_singleton. subst x.
      apply mem_Z_elem in Hx. congruence. }
    assert (Hcols : forall c, c ∈ columns'
                      <-> c ∈ columns \/ (cell_in value headers = true /\ c = idx)).
    { intros c. unfold columns'. destruct (cell_in value headers).
      - destruct (Py.mem_Z idx columns) eqn:Em.
        + apply mem_Z_elem in Em. split; [intros H; left; exact H|].
          intros [H|[_ ->]]; [exact H|exact Em].
        + rewrite elem_of_app, list_elem_of_singleton. tauto.
      - split; [intros H; left; exact H|]. intros [H|[H _]]; [exact H|discriminate]. }
    destruct (IH (idx + 1) columns' Hnd') as [Hres Hmem]. split; [exact Hres|].
    intros c. rewrite Hmem, Hcols. split.
    + intros [[H|[Hv ->]]|(k & v & Hk & Hv & ->)].
      * left. exact H.
      * right. exists 0%nat, value. repeat split; [exact Hv|lia].
      * right. exists (S k), v. repeat split; [exact Hk|exact Hv|lia].
    + intros [H|(k & v & Hk & Hv & ->)]; [left; left; exact H|].
      destruct k as [|k].
      * injection Hk as ->. left. right. split; [exact Hv|lia].
      * right. exists k, v. repeat split; [exact Hk|exact Hv|lia].
Qed.

Lemma score_columns_rows_spec headers rows : forall columns,
  NoDup columns ->
  NoDup (fold_left (fun columns row => score_columns_row headers row 1 columns)
           rows columns)
  /\ forall c,
      c ∈ fold_left (fun columns row => score_columns_row headers row 1 columns)
            rows columns
      <-> c ∈ columns
          \/ exists row k v, row ∈ rows /\ row !! k = Some v
                             /\ cell_in v headers = true /\ c = 1 + Z.of_nat k.
Proof.
  induction rows as [|row rows IH]; intros columns Hnd.
  - split; [exact Hnd|]. intros c. split; [intros H; left; exact H|].
    intros [H|(row & k & v & Hin & _)]; [exact H|inversion Hin].
  - cbn [fold_left].
    destruct (score_columns_row_spec headers row 1 columns Hnd) as [Hnd' Hrow].
    destruct (IH _ Hnd') as [Hres Hmem]. split; [exact Hres|].
    intros c. rewrite Hmem, Hrow. split.
    + intros [[H|(k & v & Hk & Hv & ->)]|(r & k & v & Hin & Hk & Hv & ->)].
      * left. exact H.
      * right. exists row, k, v. repeat split; [apply list_elem_of_here|exact Hk|exact Hv].
      * right. exists r, k, v.
        repeat split; [apply list_elem_of_further, Hin|exact Hk|exact Hv].
    + intros [H|(r & k & v & Hin & Hk & Hv & ->)]; [left; left; exact H|].
      apply elem_of_cons in Hin as [->|Hin].
      * left. right. exists k, v. repeat split; [exact Hk|exact Hv].
      * right. exists r, k, v. repeat split; [exact Hin|exact Hk|exact Hv].
Qed.

(** X4. [_find_score_columns] lists, without repetition, exactly the columns
    that hold a header candidate in one of the first 200 rows. *)
Theorem find_score_columns_exact (sheet_values : grid) (headers : list string) :
  NoDup (_find_score_columns sheet_values headers)
  /\ forall c,
      c ∈ _find_score_columns sheet_values headers
      <-> exists row k v,
            row ∈ Py.prefix 200 sheet_values /\ row !! k = Some v
            /\ cell_in v headers = true /\ c = 1 + Z.of_nat k.
Proof.
  unfold _find_score_columns.
  destruct (score_columns_rows_spec headers (Py.prefix 200 sheet_values) []
              (NoDup_nil_2 (A:=Z))) as [Hnd Hmem].
  split; [exact Hnd|]. intros c. rewrite Hmem. split.
  - intros [H|H]; [inversion H|exact H].
  - intros H. right. exact H.
Qed.

Lemma find_progress_row_spec row : forall idx,
  match find_progress_row row idx with
  | Some found =>
      exists k v, row !! k = Some v /\ cell_is_key v "progress" = true
                  /\ found = idx + Z.of_nat k
                  /\ forall j u, (j < k)%nat -> row !! j = Some u ->
                                 cell_is_key u "progress" = false
  | None => forall v, v ∈ row -> cell_is_key v "progress" = false
  end.
Proof.
  induction row as [|value row IH]; intros idx.
  - cbn. intros v Hv. inversion Hv.
  - cbn [find_progress_row]. destruct (cell_is_key value "progress") eqn:E.
    + exists 0%nat, value. repeat split; [exact E|lia|]. intros j u Hj. lia.
    + specialize (IH (idx + 1)).
      destruct (find_progress_row row (idx + 1)) as [found|].
      * destruct IH as (k & v & Hk & Hv & -> & Hfirst).
        exists (S k), v. repeat split; [exact Hk|exact Hv|lia|].
        intros [|j] u Hj Hu; [injection Hu as <-; exact E|].
        apply (Hfirst j u); [lia|exact Hu].
      * intros v [->|Hv]%elem_of_cons; [exact E|apply IH, Hv].
Qed.

(** X5. [_find_progress_column] returns the column of the leftmost
    "Progress" cell of the first row, among the first 200, that has one, and
    [None] exactly when none of these rows has one. *)
Theorem find_progress_column_first (sheet_values : grid) :
  match _find_progress_column sheet_values with
  | Some found =>
      exists before row after k v,
        Py.prefix 200 sheet_values = (before ++ row :: after)%list
        /\ (forall r u, r ∈ before -> u ∈ r -> cell_is_key u "progress" = false)
        /\ row !! k = Some v /\ cell_is_key v "progress" = true
        /\ found = 1 + Z.of_nat k
        /\ (forall j u, (j < k)%nat -> row !! j = Some u ->
                        cell_is_key u "progress" = false)
  | None =>
      forall r u, r ∈ Py.prefix 200 sheet_values -> u ∈ r ->
                  cell_is_key u "progress" = false
  end.
Proof.
  unfold _find_progress_column.
  induction (Py.prefix 200 sheet_values) as [|row rows IH].
  - cbn. intros r u Hr. inversion Hr.
  - cbn [find_progress_rows]. pose proof (find_progress_row_spec row 1) as Hrow.
    destruct (find_progress_row row 1) as [found|].
    + destruct Hrow as (k & v & Hk & Hv & -> & Hfirst).
      exists [], row, rows, k, v. repeat split; try assumption.
      intros r u Hr. inversion Hr.
    + destruct (find_progress_rows rows) as [found|].
      * destruct IH as (before & r & after & k & v & -> & Hbefore & Hk & Hv & -> & Hfirst).
        exists (row :: before), r, after, k, v. repeat split; try assumption.
        intros r0 u [->|Hr0]%elem_of_cons Hu; [apply Hrow, Hu|apply (Hbefore r0 u Hr0 Hu)].
      * intros r u [->|Hr]%elem_of_cons Hu; [apply Hrow, Hu|apply (IH r u Hr Hu)].
Qed.

(** ** The shape of the mirror list *)

Lemma mirror_header_scan_shape header_set score_col rows :
  mirror_header_scan header_set score_col rows = []
  \/ mirror_header_scan header_set score_col rows = [score_col + 1].
Proof.
  induction rows as [|header_row rows IH]; [left; reflexivity|].
  cbn [mirror_header_scan].
  destruct (score_col <=? Py.len header_row); [|exact IH].
  destruct (Py.index header_row (score_col - 1)); [|exact IH].
  destruct (cell_in c header_set); [|exact IH].
  destruct (_ && _); [right|left]; reflexivity.
Qed.

(** X6. [find_mirror_cells] never returns more than one cell, and the cell
    it returns is the right-hand neighbour of the score cell. *)
Theorem find_mirror_cells_at_most_neighbour (values : grid) (score_cell : string)
    (header_candidates : list string) (row_idx col_idx : Z) (mirrors : list string) :
  _cell_to_indexes score_cell = Some (row_idx, col_idx) ->
  mirror_cells_of values score_cell header_candidates = Ok mirrors ->
  mirrors = [] \/ mirrors = [cell_ref (col_idx + 2) (row_idx + 1)].
Proof.
  intros Hidx. unfold mirror_cells_of. rewrite Hidx.
  destruct (if row_idx <? Py.len values then _ else _) as [row|]; [|discriminate].
  replace (col_idx + 2) with (col_idx + 1 + 1) by lia.
  destruct (mirror_header_scan_shape (mirror_header_set header_candidates)
              (col_idx + 1) (Py.prefix 20 values)) as [-> | ->];
    destruct (_ && _); cbn; rewrite ?Z.eqb_refl; cbn; intros [= <-]; auto.
Qed.

Lemma find_mirror_cells_at_most_neighbour_witness :
  ["C2"%string] = []
  \/ ["C2"%string] = [cell_ref (1 + 2) (1 + 1)].
Proof.
  apply (find_mirror_cells_at_most_neighbour
           [ [CStr "Scenario"; CStr "Score"]; [CStr "Close Range"; CStr "75"; CStr "75"] ]
           "B2" [] 1 1 ["C2"%string]); reflexivity.
Defined.

(** ** What the client leaves alone *)

Section Frames.

Context {A B X : Type} (f : world -> X).

Lemma keeps_ret (a : A) : keeps f (ret a).
Proof. intros w r w' [= _ <-]. reflexivity. Qed.

Lemma keeps_raise (e : exn) : keeps f (raise e : M A).
Proof. intros w r w' [= _ <-]. reflexivity. Qed.

Lemma keeps_bind (m : M A) (k : A -> M B) :
  keeps f m -> (forall a, keeps f (k a)) -> keeps f (bind m k).
Proof.
  intros Hm Hk w r w' Hrun. unfold bind in Hrun.
  destruct (m w) as [[a|e] w1] eqn:Em.
  - rewrite (Hk a _ _ _ Hrun). exact (Hm _ _ _ Em).
  - injection Hrun as _ <-. exact (Hm _ _ _ Em).
Qed.

Lemma keeps_try_google (m : M A) : keeps f m -> keeps f (try_google m).
Proof.
  intros Hm w r w' Hrun. unfold try_google in Hrun.
  destruct (m w) as [[a|e] w1] eqn:Em.
  - injection Hrun as _ <-. exact (Hm _ _ _ Em).
  - destruct e; injection Hrun as _ <-; exact (Hm _ _ _ Em).
Qed.

End Frames.

Section ReadOnly.

(** A component of the world that does not depend on the caches and the
    log is kept by every read. *)
Context {X : Type} (f : world -> X).
Hypothesis f_frame :
  forall cache titles svc log file cache' titles' log',
    f (World cache' titles' svc log' file) = f (World cache titles svc log file).

Lemma keeps_get_sheet_values spreadsheet_id worksheet :
  keeps f (_get_sheet_values spreadsheet_id worksheet).
Proof.
  intros w r w' Hrun. unfold _get_sheet_values in Hrun. destruct w.
  cbn [_sheet_cache _sheet_list_cache service
         calls state_file] in Hrun.
  destruct (_ !! _); [injection Hrun as _ <-; reflexivity|].
  destruct (_ ≫= _); injection Hrun as _ <-; apply f_frame.
Qed.

Lemma keeps_list_sheet_titles spreadsheet_id :
  keeps f (list_sheet_titles spreadsheet_id).
Proof.
  intros w r w' Hrun. unfold list_sheet_titles in Hrun. destruct w.
  cbn [_sheet_cache _sheet_list_cache service
         calls state_file] in Hrun.
  destruct (_ !! _); [injection Hrun as _ <-; reflexivity|].
  destruct (_ !! _); injection Hrun as _ <-; apply f_frame.
Qed.

Lemma keeps_scan_titles spreadsheet_id k headers allowed sheet_titles st :
  keeps f (scan_titles spreadsheet_id k headers allowed sheet_titles st).
Proof.
  revert st. induction sheet_titles as [|title rest IH]; intros st.
  - apply keeps_ret.
  - cbn [scan_titles]. destruct (match allowed with Some _ => _ | None => _ end).
    + apply IH.
    + apply keeps_bind; [apply keeps_get_sheet_values|].
      intros values. destruct values; apply IH.
Qed.

Lemma keeps_resolve_by_search spreadsheet_id scenario_name headers worksheet_filter :
  keeps f (resolve_by_search spreadsheet_id scenario_name headers worksheet_filter).
Proof.
  unfold resolve_by_search.
  apply keeps_bind; [apply keeps_list_sheet_titles|]. intros sheet_titles.
  apply keeps_bind; [apply keeps_scan_titles|]. intros st.
  destruct (best_fallback st) as [[[[title sc] lc] diff]|];
    [apply keeps_ret|apply keeps_raise].
Qed.

Lemma keeps_resolve_target_cell spreadsheet_id scenario_name header_candidates
    worksheet_filter cached_sheet cached_score_cell cached_scenario_cell :
  keeps f
    (resolve_target_cell spreadsheet_id scenario_name header_candidates
       worksheet_filter cached_sheet cached_score_cell cached_scenario_cell).
Proof.
  unfold resolve_target_cell.
  destruct cached_sheet as [sheet|], cached_score_cell as [sc|],
    cached_scenario_cell as [lc|]; try apply keeps_resolve_by_search.
  destruct (_ && _ && _); [|apply keeps_resolve_by_search].
  apply keeps_bind; [apply keeps_get_sheet_values|]. intros values.
  destruct (_ && _); [apply keeps_ret|apply keeps_resolve_by_search].
Qed.

Lemma keeps_find_mirror_cells spreadsheet_id worksheet score_cell header_candidates :
  keeps f (find_mirror_cells spreadsheet_id worksheet score_cell header_candidates).
Proof.
  unfold find_mirror_cells.
  apply keeps_bind; [apply keeps_get_sheet_values|]. intros values.
  intros w r w' [= _ <-]. reflexivity.
Qed.

Lemma keeps_get_numeric_cell float_of_str spreadsheet_id worksheet cell_ref :
  keeps f (get_numeric_cell float_of_str spreadsheet_id worksheet cell_ref).
Proof.
  unfold get_numeric_cell.
  apply keeps_bind; [apply keeps_get_sheet_values|]. intros values.
  apply keeps_ret.
Qed.

End ReadOnly.

(** X7. Resolving the cells of a scenario, reading a numeric cell and
    looking for mirror cells send read requests only and leave the remote
    sheets as they are. *)
Theorem lookups_are_read_only (float_of_str : string -> option Q)
    (spreadsheet_id scenario_name worksheet cell : string)
    (header_candidates : list string) (worksheet_filter : option (list string))
    (cached_sheet cached_score_cell cached_scenario_cell : option string) :
  read_only (resolve_target_cell spreadsheet_id scenario_name header_candidates
               worksheet_filter cached_sheet cached_score_cell cached_scenario_cell)
  /\ read_only (get_numeric_cell float_of_str spreadsheet_id worksheet cell)
  /\ read_only (find_mirror_cells spreadsheet_id worksheet cell header_candidates).
Proof.
  unfold read_only. split; [|split]; intros w r w' Hrun; split.
  - exact (keeps_resolve_target_cell service (fun _ _ _ _ _ _ _ _ => eq_refl)
             _ _ _ _ _ _ _ _ _ _ Hrun).
  - exact (proj1 (spec_resolve_target_cell _ _ _ _ _ _ _ _ _ _ Hrun)).
  - exact (keeps_get_numeric_cell service (fun _ _ _ _ _ _ _ _ => eq_refl)
             _ _ _ _ _ _ _ Hrun).
  - exact (proj1 (spec_get_numeric_cell _ _ _ _ _ _ _ Hrun)).
  - exact (keeps_find_mirror_cells service (fun _ _ _ _ _ _ _ _ => eq_refl)
             _ _ _ _ _ _ _ Hrun).
  - exact (proj1 (spec_find_mirror_cells _ _ _ _ _ _ _ Hrun)).
Qed.

(** X8. A worksheet is fetched once per client. After a successful read, a
    write to the spreadsheet does not refresh the cache: the next read
    returns the grid of the first read and sends no request. *)
Theorem sheet_cache_survives_update (spreadsheet_id worksheet range : string)
    (value : Q) (values : grid) (w w1 w2 : world) (r : result unit) :
  _get_sheet_values spreadsheet_id worksheet w = (Ok values, w1) ->
  update_cell spreadsheet_id range value w1 = (r, w2) ->
  _get_sheet_values spreadsheet_id worksheet w2 = (Ok values, w2).
Proof.
  intros Hread Hwrite. apply get_sheet_values_hit.
  apply get_sheet_values_cached in Hread.
  unfold update_cell in Hwrite.
  destruct (_ ≫= _); injection Hwrite as _ <-; exact Hread.
Qed.

Lemma sheet_cache_survives_update_witness :
  let w := World ∅ ∅ {[ "sid"%string := [("Main"%string, [[CStr "old"]])] ]} [] None in
  let w1 := snd (_get_sheet_values "sid" "Main" w) in
  let w2 := snd (update_cell "sid" "'Main'!A1" 5 w1) in
  service w2 !! "sid"%string = Some [("Main"%string, [[CNum 5]])]
  /\ _get_sheet_values "sid" "Main" w2 = (Ok [[CStr "old"]], w2).
Proof.
  intros w w1 w2. split; [vm_compute; reflexivity|].
  apply (sheet_cache_survives_update "sid" "Main" "'Main'!A1" 5 [[CStr "old"]] w w1 w2
           (fst (update_cell "sid" "'Main'!A1" 5 w1)));
    [reflexivity|apply surjective_pairing].
Defined.

(** ** The search *)

Lemma mem_elem x l : Py.mem x l = true <-> x ∈ l.
Proof.
  unfold Py.mem. rewrite existsb_exists. split.
  - intros (y & Hin & Heq%String.eqb_eq). subst y. apply list_elem_of_In, Hin.
  - intros Hin. exists x. split; [apply list_elem_of_In, Hin|apply String.eqb_refl].
Qed.

Lemma spec_get_sheet_values_for (P : call -> Prop) spreadsheet_id worksheet :
  P (ValuesGet spreadsheet_id worksheet) ->
  spec P (fun _ => True) (_get_sheet_values spreadsheet_id worksheet).
Proof.
  intros HP w r w' Hrun. unfold _get_sheet_values in Hrun.
  split; [|intros; exact I].
  destruct (_sheet_cache w !! (spreadsheet_id, worksheet)).
  - injection Hrun as <- <-. exists []. rewrite app_nil_r.
    split; [reflexivity|constructor].
  - destruct (_ ≫= _); injection Hrun as <- <-; cbn [calls];
      (eexists; split; [reflexivity|repeat constructor; exact HP]).
Qed.

Lemma spec_list_sheet_titles_for (P : call -> Prop) spreadsheet_id :
  P (SheetsGet spreadsheet_id) ->
  spec P (fun _ => True) (list_sheet_titles spreadsheet_id).
Proof.
  intros HP w r w' Hrun. unfold list_sheet_titles in Hrun.
  split; [|intros; exact I].
  destruct (_sheet_list_cache w !! spreadsheet_id).
  - injection Hrun as <- <-. exists []. rewrite app_nil_r.
    split; [reflexivity|constructor].
  - destruct (service w !! spreadsheet_id); injection Hrun as <- <-; cbn [calls];
      (eexists; split; [reflexivity|repeat constructor; exact HP]).
Qed.

Lemma spec_scan_titles_allowed spreadsheet_id k headers allowed sheet_titles st :
  spec (reads_within allowed) (fun _ => True)
    (scan_titles spreadsheet_id k headers (Some allowed) sheet_titles st).
Proof.
  revert st. induction sheet_titles as [|title rest IH]; intros st.
  - apply spec_ret. exact I.
  - cbn [scan_titles]. destruct (negb (Py.mem title allowed)) eqn:Em; [apply IH|].
    apply negb_false_iff, mem_elem in Em.
    eapply spec_bind; [apply spec_get_sheet_values_for; exact Em|].
    intros values _. destruct values; apply IH.
Qed.

(** X9. Without a complete cached hint, a worksheet filter confines the
    search: every worksheet read is one of the (trimmed) titles of the
    filter, and nothing is written. *)
Theorem worksheet_filter_confines_search (spreadsheet_id scenario_name : string)
    (header_candidates : list string) (title : string) (titles : list string)
    (cached_sheet cached_score_cell cached_scenario_cell : option string)
    (w w' : world) (r : result (string * string * string)) :
  Py.truthy cached_sheet && Py.truthy cached_score_cell
  && Py.truthy cached_scenario_cell = false ->
  resolve_target_cell spreadsheet_id scenario_name header_candidates
    (Some (title :: titles)) cached_sheet cached_score_cell cached_scenario_cell w
  = (r, w') ->
  exists l,
    calls w' = (calls w ++ l)%list
    /\ Forall (reads_within (List.map Str.strip (title :: titles))) l.
Proof.
  intros Hhint Hrun.
  assert (Hsearch :
            spec (reads_within (List.map Str.strip (title :: titles))) (fun _ => True)
              (resolve_by_search spreadsheet_id scenario_name
                 (normalize_headers header_candidates) (Some (title :: titles)))).
  { unfold resolve_by_search.
    eapply spec_bind; [apply spec_list_sheet_titles_for; exact I|]. intros sheet_titles _.
    eapply spec_bind; [apply spec_scan_titles_allowed|]. intros st _.
    destruct (best_fallback st) as [[[[t sc] lc] diff]|];
      [apply spec_ret; exact I|apply spec_raise]. }
  unfold resolve_target_cell in Hrun.
  destruct cached_sheet as [sheet|], cached_score_cell as [sc|],
    cached_scenario_cell as [lc|];
    try exact (proj1 (Hsearch _ _ _ Hrun)).
  rewrite Hhint in Hrun. exact (proj1 (Hsearch _ _ _ Hrun)).
Qed.

Lemma worksheet_filter_confines_search_witness :
  let w := World ∅ ∅
             {[ "sid"%string :=
                  [("Old"%string, [[CStr "Close Range"]]);
                   ("Main"%string, [[CStr "Close Range"]])] ]} [] None in
  let out := resolve_target_cell "sid" "Close Range" [] (Some [" Main "%string])
               None None None w in
  exists l,
    calls (snd out) = (calls w ++ l)%list
    /\ Forall (reads_within (List.map Str.strip [" Main "%string])) l.
Proof.
  intros w out.
  apply (worksheet_filter_confines_search "sid" "Close Range" [] " Main " []
           None None None w (snd out) (fst out));
    [reflexivity|apply surjective_pairing].
Defined.

(** *** No candidate, no result *)

Section NoCandidate.

Variable k : scenario_keys.

Lemma scan_cell_no_candidate title score_columns progress_col row_idx col_idx c st :
  (forall text, c = CStr text ->
                _normalize_name text <> scenario_norm k
                /\ _letters_only text <> scenario_letters k) ->
  best_fallback (scan_cell k title score_columns progress_col row_idx col_idx c st)
  = best_fallback st.
Proof.
  intros Hc. unfold scan_cell.
  destruct c as [text|q].
  - destruct (Hc text eq_refl) as [Hn Hl].
    apply String.eqb_neq in Hn, Hl. rewrite Hn, Hl. cbn [orb].
    destruct (cell_is_key _ _); reflexivity.
  - destruct (cell_is_key _ _); reflexivity.
Qed.

Lemma scan_row_no_candidate title score_columns progress_col row_idx row :
  forall col_idx st,
    (forall text, CStr text ∈ row ->
                  _normalize_name text <> scenario_norm k
                  /\ _letters_only text <> scenario_letters k) ->
    best_fallback (scan_row k title score_columns progress_col row_idx col_idx row st)
    = best_fallback st.
Proof.
  induction row as [|c row IH]; intros col_idx st Hrow; [reflexivity|].
  cbn [scan_row]. rewrite IH.
  - apply scan_cell_no_candidate. intros text ->. apply Hrow, list_elem_of_here.
  - intros text Hin. apply Hrow, list_elem_of_further, Hin.
Qed.

Lemma scan_rows_no_candidate title score_columns progress_col rows :
  forall row_idx st,
    no_candidate k rows ->
    best_fallback
      (scan_rows k title score_columns progress_col row_idx rows st)
    = best_fallback st.
Proof.
  induction rows as [|row rows IH]; intros row_idx st Hrows; [reflexivity|].
  cbn [scan_rows]. rewrite IH.
  - apply scan_row_no_candidate. intros text Hin.
    apply (Hrows row text); [apply list_elem_of_here|exact Hin].
  - intros r text Hr Hin. apply (Hrows r text); [apply list_elem_of_further, Hr|exact Hin].
Qed.

Lemma get_sheet_values_all_grids (P : grid -> Prop) spreadsheet_id worksheet w r w' :
  all_grids P w ->
  _get_sheet_values spreadsheet_id worksheet w = (r, w') ->
  all_grids P w' /\ forall values, r = Ok values -> P values.
Proof.
  intros [Hcache Hremote] Hrun. unfold _get_sheet_values in Hrun.
  destruct (_sheet_cache w !! (spreadsheet_id, worksheet)) as [cached|] eqn:Ec.
  - injection Hrun as <- <-. split; [split; assumption|].
    intros values [= <-]. exact (Hcache _ _ Ec).
  - destruct (service w !! spreadsheet_id) as [wb|] eqn:Es; cbn [mbind option_bind] in Hrun.
    + destruct (workbook_values wb worksheet) as [values|] eqn:Ev;
        injection Hrun as <- <-.
      * assert (HP : P values) by exact (Hremote _ _ _ _ Es Ev).
        split; [|intros v [= <-]; exact HP].
        split; cbn [_sheet_cache service].
        -- intros key g. destruct (decide ((spreadsheet_id, worksheet) = key)) as [<-|Hne].
           ++ rewrite lookup_insert_eq. intros [= <-]. exact HP.
           ++ rewrite lookup_insert_ne by exact Hne. apply Hcache.
        -- exact Hremote.
      * split; [split; assumption|intros v [=]].
    + injection Hrun as <- <-. split; [split; assumption|intros v [=]].
Qed.

Lemma list_sheet_titles_all_grids (P : grid -> Prop) spreadsheet_id w r w' :
  all_grids P w ->
  list_sheet_titles spreadsheet_id w = (r, w') ->
  all_grids P w'.
Proof.
  intros [Hcache Hremote] Hrun. unfold list_sheet_titles in Hrun.
  destruct (_sheet_list_cache w !! spreadsheet_id).
  - injection Hrun as _ <-. split; assumption.
  - destruct (service w !! spreadsheet_id); injection Hrun as _ <-; split; assumption.
Qed.

Lemma get_sheet_values_error spreadsheet_id worksheet w e w' :
  _get_sheet_values spreadsheet_id worksheet w = (Raise e, w') ->
  exists msg, e = GoogleClientError msg.
Proof.
  unfold _get_sheet_values.
  destruct (_ !! _); [discriminate|].
  destruct (_ ≫= _); [discriminate|]. intros [= <- _]. eexists. reflexivity.
Qed.

Lemma scan_titles_no_candidate spreadsheet_id headers allowed sheet_titles :
  forall st w r w',
    all_grids (no_candidate k) w ->
    scan_titles spreadsheet_id k headers allowed sheet_titles st w = (r, w') ->
    all_grids (no_candidate k) w'
    /\ (forall st', r = Ok st' -> best_fallback st' = best_fallback st)
    /\ (forall e, r = Raise e -> exists msg, e = GoogleClientError msg).
Proof.
  induction sheet_titles as [|title rest IH]; intros st w r w' Hw Hrun.
  - injection Hrun as <- <-. split; [exact Hw|]. split; [|intros e [=]].
    intros st' [= <-]. reflexivity.
  - cbn [scan_titles] in Hrun.
    destruct (match allowed with Some _ => _ | None => _ end); [exact (IH _ _ _ _ Hw Hrun)|].
    unfold bind in Hrun.
    destruct (_get_sheet_values spreadsheet_id title w) as [[values|e] w1] eqn:Eg.
    + destruct (get_sheet_values_all_grids _ _ _ _ _ _ Hw Eg) as [Hw1 Hvalues].
      destruct values as [|row rows]; [exact (IH _ _ _ _ Hw1 Hrun)|].
      destruct (IH _ _ _ _ Hw1 Hrun) as (Hw' & Hbest & Herr).
      split; [exact Hw'|]. split; [|exact Herr].
      intros st' Hst'. rewrite (Hbest st' Hst'). unfold scan_sheet.
      apply scan_rows_no_candidate, Hvalues. reflexivity.
    + injection Hrun as <- <-.
      split; [exact (proj1 (get_sheet_values_all_grids _ _ _ _ _ _ Hw Eg))|].
      split; [intros st' [=]|]. intros e' [= <-].
      exact (get_sheet_values_error _ _ _ _ _ Eg).
Qed.

Lemma index_elem {A} (l : list A) i x : Py.index l i = Some x -> x ∈ l.
Proof.
  unfold Py.index. destruct (0 <=? i); [apply list_elem_of_lookup_2|].
  destruct (0 <=? Py.len l + i); [apply list_elem_of_lookup_2|discriminate].
Qed.

Lemma scenario_cell_matches_cell values scenario_cell key :
  _scenario_cell_matches values scenario_cell key = true ->
  exists row text,
    row ∈ values /\ CStr text ∈ row /\ cell_is_key (CStr text) key = true.
Proof.
  unfold _scenario_cell_matches.
  destruct (_cell_to_indexes scenario_cell) as [[row_idx col_idx]|]; [|discriminate].
  destruct (Py.len values <=? row_idx); [discriminate|].
  destruct (Py.index values row_idx) as [row|] eqn:Er; [|discriminate].
  destruct (Py.len row <=? col_idx); [discriminate|].
  destruct (Py.index row col_idx) as [[text|q]|] eqn:Ec; try discriminate.
  intros Hkey. exists row, text.
  repeat split; [exact (index_elem _ _ _ Er)|exact (index_elem _ _ _ Ec)|exact Hkey].
Qed.

Lemma resolve_by_search_no_candidate spreadsheet_id scenario_name headers
    worksheet_filter w r w' :
  k = keys_of scenario_name ->
  all_grids (no_candidate k) w ->
  resolve_by_search spreadsheet_id scenario_name headers worksheet_filter w = (r, w') ->
  exists msg, r = Raise (GoogleClientError msg).
Proof.
  intros Hk Hw Hrun. unfold resolve_by_search, bind in Hrun.
  destruct (list_sheet_titles spreadsheet_id w) as [[sheet_titles|e] w1] eqn:El.
  - pose proof (list_sheet_titles_all_grids _ _ _ _ _ Hw El) as Hw1.
    rewrite <- Hk in Hrun.
    destruct (scan_titles _ _ _ _ _ _ w1) as [[st|e] w2] eqn:Es.
    + destruct (scan_titles_no_candidate _ _ _ _ _ _ _ _ Hw1 Es) as (_ & Hbest & _).
      rewrite (Hbest st eq_refl) in Hrun. cbn in Hrun.
      injection Hrun as <- _. eexists. reflexivity.
    + destruct (scan_titles_no_candidate _ _ _ _ _ _ _ _ Hw1 Es) as (_ & _ & Herr).
      destruct (Herr e eq_refl) as [msg ->]. injection Hrun as <- _.
      eexists. reflexivity.
  - unfold list_sheet_titles in El.
    destruct (_ !! _); [discriminate|].
    destruct (_ !! _); [discriminate|]. injection El as <- _.
    injection Hrun as <- _. eexists. reflexivity.
Qed.

End NoCandidate.

(** X10. When no cell of any grid the client can see is a fallback candidate
    for the scenario, [resolve_target_cell] returns no triple, with or
    without a cached hint: it raises [GoogleClientError]. *)
Theorem no_candidate_no_result (spreadsheet_id scenario_name : string)
    (header_candidates : list string) (worksheet_filter : option (list string))
    (cached_sheet cached_score_cell cached_scenario_cell : option string)
    (w w' : world) (r : result (string * string * string)) :
  all_grids (no_candidate (keys_of scenario_name)) w ->
  resolve_target_cell spreadsheet_id scenario_name header_candidates worksheet_filter
    cached_sheet cached_score_cell cached_scenario_cell w = (r, w') ->
  exists msg, r = Raise (GoogleClientError msg).
Proof.
  intros Hw Hrun. unfold resolve_target_cell in Hrun.
  destruct cached_sheet as [sheet|], cached_score_cell as [sc|],
    cached_scenario_cell as [lc|];
    try exact (resolve_by_search_no_candidate _ _ _ _ _ _ _ _ eq_refl Hw Hrun).
  destruct (_ && _ && _);
    [|exact (resolve_by_search_no_candidate _ _ _ _ _ _ _ _ eq_refl Hw Hrun)].
  unfold bind in Hrun.
  destruct (_get_sheet_values spreadsheet_id sheet w) as [[values|e] w1] eqn:Eg.
  - destruct (get_sheet_values_all_grids _ _ _ _ _ _ Hw Eg) as [Hw1 Hvalues].
    destruct (_scenario_cell_matches values lc _) eqn:Em.
    + exfalso. destruct (scenario_cell_matches_cell _ _ _ Em) as (row & text & Hr & Ht & Hkey).
      destruct (Hvalues values eq_refl row text Hr Ht) as [Hn _]. apply Hn.
      cbn [cell_is_key keys_of scenario_key scenario_norm] in *.
      apply String.eqb_eq in Hkey.
      rewrite <- (normalize_name_strip text), <- (normalize_name_strip scenario_name).
      unfold _normalize_name. rewrite Hkey. reflexivity.
    + cbn [andb] in Hrun.
      exact (resolve_by_search_no_candidate _ _ _ _ _ _ _ _ eq_refl Hw1 Hrun).
  - injection Hrun as <- _. destruct (get_sheet_values_error _ _ _ _ _ Eg) as [msg ->].
    eexists. reflexivity.
Qed.

Lemma no_candidate_no_result_witness :
  let w := World ∅ ∅
             {[ "sid"%string := [("Main"%string, [[CStr "Scenario"; CStr "Score"]])] ]}
             [] None in
  exists msg,
    fst (resolve_target_cell "sid" "Close Range" [] None (Some "Main"%string)
           (Some "B1"%string) (Some "A1"%string) w)
    = Raise (GoogleClientError msg).
Proof.
  intros w.
  apply (no_candidate_no_result "sid" "Close Range" [] None (Some "Main"%string)
           (Some "B1"%string) (Some "A1"%string) w
           (snd (resolve_target_cell "sid" "Close Range" [] None (Some "Main"%string)
                   (Some "B1"%string) (Some "A1"%string) w)));
    [|apply surjective_pairing].
  unfold w. split; cbn [_sheet_cache service].
  - intros key values Hc. rewrite lookup_empty in Hc. discriminate.
  - intros sid wb title values Hs Hv.
    destruct (decide (sid = "sid"%string)) as [->|Hne].
    + rewrite lookup_singleton_eq in Hs. injection Hs as <-.
      unfold workbook_values in Hv. cbn [List.find fst snd] in Hv.
      destruct (String.eqb "Main" title); simpl in Hv; [|discriminate].
      injection Hv as <-.
      intros row text Hr Ht.
      apply list_elem_of_singleton in Hr. subst row.
      apply elem_of_cons in Ht as [[= ->]|Ht];
        [split; discriminate|].
      apply list_elem_of_singleton in Ht. injection Ht as ->. split; discriminate.
    + rewrite lookup_singleton_ne in Hs by congruence. discriminate.
Defined.

(** *** A cached hint that is kept *)

Lemma prefix_limit {A} (l : list A) :
  Py.prefix (Z.to_nat (Z.min (Py.len l) 200)) l = Py.prefix 200 l.
Proof.
  unfold Py.prefix, Py.len.
  destruct (Z.le_ge_cases (Z.of_nat (length l)) 200) as [Hle|Hge].
  - rewrite Z.min_l by exact Hle. rewrite Nat2Z.id.
    rewrite !take_ge by lia. reflexivity.
  - rewrite Z.min_r by lia. reflexivity.
Qed.

(** X11. A complete cached hint is returned as it is, after at most one read
    of the cached worksheet, when its label cell still holds the scenario
    name and its score column shows a header candidate in one of the first
    200 rows. *)
Theorem cached_hint_with_header_is_kept (spreadsheet_id scenario_name : string)
    (header_candidates : list string) (worksheet_filter : option (list string))
    (sheet sc lc : string) (values : grid) (row_idx col_idx : Z)
    (row : list cell) (v : cell) (w w1 : world) :
  sheet <> "" -> sc <> "" -> lc <> "" ->
  _get_sheet_values spreadsheet_id sheet w = (Ok values, w1) ->
  _scenario_cell_matches values lc (scenario_key (keys_of scenario_name)) = true ->
  _cell_to_indexes sc = Some (row_idx, col_idx) ->
  row ∈ Py.prefix 200 values ->
  Py.index row col_idx = Some v ->
  cell_in v (normalize_headers header_candidates) = true ->
  resolve_target_cell spreadsheet_id scenario_name header_candidates worksheet_filter
    (Some sheet) (Some sc) (Some lc) w
  = (Ok (sheet, sc, lc), w1)
  /\ (calls w1 = calls w
      \/ calls w1 = (calls w ++ [ValuesGet spreadsheet_id sheet])%list).
Proof.
  intros Hsheet Hsc Hlc Hget Hlabel Hidx Hrow Hcell Hhead.
  split.
  - unfold resolve_target_cell.
    assert (Py.truthy (Some sheet) = true) as -> by (destruct sheet; [congruence|reflexivity]).
    assert (Py.truthy (Some sc) = true) as -> by (destruct sc; [congruence|reflexivity]).
    assert (Py.truthy (Some lc) = true) as -> by (destruct lc; [congruence|reflexivity]).
    cbn [andb]. unfold bind. rewrite Hget, Hlabel. cbn [andb].
    assert (Hscore : _score_cell_matches values sc (normalize_headers header_candidates)
                     = true).
    { unfold _score_cell_matches. rewrite Hidx, prefix_limit.
      apply existsb_exists. exists row. split; [apply list_elem_of_In, Hrow|].
      unfold score_row_matches.
      pose proof (cell_to_indexes_col_nonneg _ _ _ Hidx) as Hcol.
      assert (Hlt : col_idx < Py.len row)
        by (apply (index_Some_lt _ _ v); [exact Hcol|exact Hcell]).
      destruct (Z.ltb_spec col_idx (Py.len row)); [|lia].
      rewrite Hcell, Hhead. reflexivity. }
    rewrite Hscore. reflexivity.
  - unfold _get_sheet_values in Hget.
    destruct (_ !! _); [injection Hget as _ <-; left; reflexivity|].
    destruct (_ ≫= _); [|discriminate]. injection Hget as _ <-. right. reflexivity.
Qed.

Lemma cached_hint_with_header_is_kept_witness :
  let values := [ [CStr "Scenario"; CStr "High Score"];
                  [CStr " close range"; CStr "88"] ] in
  let w := World ∅ ∅
             {[ "sid"%string := [("Archive"%string, [[CStr "Close Range"]]);
                                  ("Main"%string, values)] ]} [] None in
  let w1 := snd (_get_sheet_values "sid" "Main" w) in
  resolve_target_cell "sid" "Close Range" ["High Score"%string] None
    (Some "Main"%string) (Some "B2"%string) (Some "A2"%string) w
  = (Ok ("Main"%string, "B2"%string, "A2"%string), w1)
  /\ (calls w1 = calls w \/ calls w1 = (calls w ++ [ValuesGet "sid" "Main"])%list).
Proof.
  intros values w w1.
  apply (cached_hint_with_header_is_kept "sid" "Close Range" ["High Score"%string] None
           "Main" "B2" "A2" values 1 1 [CStr "Scenario"; CStr "High Score"]
           (CStr "High Score") w w1);
    try discriminate; try reflexivity.
  apply list_elem_of_here.
Defined.

(** ** More on the driver *)

Section DriverMore.

Variable float_of_str : string -> option Q.
Variable repr_of_json : json -> string.

Lemma has_update_app l1 l2 : has_update (l1 ++ l2) = has_update l1 || has_update l2.
Proof. unfold has_update. apply existsb_app. Qed.

Lemma has_update_reads l : Forall is_read l -> has_update l = false.
Proof.
  induction 1 as [|c l Hc _ IH]; [reflexivity|].
  cbn. destruct c; [exact IH|exact IH|destruct Hc].
Qed.

(** What a run does to the flag [updated]: it is set exactly when the run
    sent a write. *)
Lemma process_run_updated config run state updated w state' updated' w' :
  process_run float_of_str config run (state, updated) w = (Ok (state', updated'), w') ->
  exists l, calls w' = (calls w ++ l)%list /\ updated' = updated || has_update l.
Proof.
  unfold process_run.
  destruct (scenario_entry state (scenario run)) as [scenario_state state1].
  unfold bind at 1.
  destruct (try_google _ w) as [[resolved|e] w1] eqn:Er; [|discriminate].
  destruct (spec_try_google _ _ _ (spec_resolve_target_cell _ _ _ _ _ _ _) _ _ _ Er)
    as [(l1 & Hl1 & Hr1) _].
  destruct resolved as [[[ws sc] lc]|].
  2:{ intros [= <- <- <-]. exists l1. split; [exact Hl1|].
      rewrite (has_update_reads _ Hr1), orb_false_r. reflexivity. }
  unfold bind at 1.
  destruct (get_numeric_cell float_of_str _ _ _ w1) as [[sheet_value|e] w2] eqn:En;
    [|discriminate].
  destruct (spec_get_numeric_cell float_of_str _ _ _ _ _ _ En) as [(l2 & Hl2 & Hr2) _].
  destruct (_ && _).
  { intros [= <- <- <-]. exists (l1 ++ l2)%list.
    rewrite Hl2, Hl1, app_assoc. split; [reflexivity|].
    rewrite has_update_app, (has_update_reads _ Hr1), (has_update_reads _ Hr2).
    rewrite orb_false_r. reflexivity. }
  unfold bind at 1.
  destruct (find_mirror_cells _ _ _ _ w2) as [[mirror_cells|e] w3] eqn:Em; [|discriminate].
  destruct (spec_find_mirror_cells _ _ _ _ _ _ _ Em) as [(l3 & Hl3 & Hr3) _].
  unfold bind at 1.
  destruct (update_cell _ _ _ w3) as [[[]|e] w4] eqn:Eu; [|discriminate].
  unfold bind at 1.
  destruct (update_cells _ _ _ _ w4) as [[[]|e] w5] eqn:Ems; [|discriminate].
  intros [= <- <- <-].
  eexists. split.
  - rewrite (update_cells_ok _ _ _ _ _ _ Ems), (update_cell_ok _ _ _ _ _ Eu), Hl3, Hl2, Hl1.
    rewrite <- !app_assoc. reflexivity.
  - rewrite !has_update_app. cbn. rewrite !orb_true_r. reflexivity.
Qed.

Lemma process_runs_updated config new_runs : forall state updated w state' updated' w',
  process_runs float_of_str config new_runs (state, updated) w
  = (Ok (state', updated'), w') ->
  exists l, calls w' = (calls w ++ l)%list /\ updated' = updated || has_update l.
Proof.
  induction new_runs as [|run rest IH]; intros state updated w state' updated' w'.
  - intros [= <- <- <-]. exists []. rewrite app_nil_r, orb_false_r. split; reflexivity.
  - cbn [process_runs]. unfold bind at 1.
    destruct (process_run float_of_str config run (state, updated) w)
      as [[[state1 updated1]|e] w1] eqn:E1; [|discriminate].
    intros Hrest.
    destruct (process_run_updated _ _ _ _ _ _ _ _ E1) as (l1 & Hl1 & Hu1).
    destruct (IH _ _ _ _ _ _ Hrest) as (l2 & Hl2 & Hu2).
    exists (l1 ++ l2)%list. rewrite Hl2, Hl1, app_assoc. split; [reflexivity|].
    rewrite Hu2, Hu1, has_update_app, orb_assoc. reflexivity.
Qed.

End DriverMore.

(** X12. The boolean [process_once] returns tells whether the pass sent a
    write: it is [True] exactly when the requests of the pass include an
    update. *)
Theorem process_once_reports_writes (float_of_str : string -> option Q)
    (repr_of_json : json -> string) (config : AppConfig) (files : list stats_file)
    (skip_processed : bool) (w w' : world) (updated : bool) :
  process_once float_of_str repr_of_json config files skip_processed w
  = (Ok updated, w') ->
  exists l, calls w' = (calls w ++ l)%list /\ updated = has_update l.
Proof.
  unfold process_once.
  destruct (load_state float_of_str repr_of_json (state_file w)) as [state|e];
    [|discriminate].
  destruct (_collect_runs float_of_str files (processed_files state) skip_processed)
    as [[new_runs processed_paths]|e0]; [|discriminate].
  destruct new_runs as [|run rest].
  - intros [= <- <-]. exists []. cbn. rewrite app_nil_r. split; reflexivity.
  - unfold bind at 1.
    destruct (process_runs float_of_str config (run :: rest) (state, false) w)
      as [[[state1 updated1]|e] w1] eqn:E; [|discriminate].
    intros [= <- <-]. cbn [calls].
    destruct (process_runs_updated _ _ _ _ _ _ _ _ _ E) as (l & Hl & Hu).
    exists l. split; [exact Hl|exact Hu].
Qed.

Lemma process_once_reports_writes_witness :
  let config := mkAppConfig "sid" ["High Score"%string] None in
  let files :=
    [ mkStatsFile "a.csv" (Some [ ["Scenario:"; "Close Range"]; ["Score:"; "120"] ]) None ]%string in
  let w := World ∅ ∅
             {[ "sid"%string :=
                  [("Main"%string,
                    [ [CStr "Scenario"; CStr "High Score"];
                      [CStr "Close Range"; CStr ""] ])] ]} [] None in
  let out := process_once Plain.float_of_str Plain.repr_of_json config files true w in
  exists l, calls (snd out) = (calls w ++ l)%list /\ true = has_update l.
Proof.
  intros config files w out.
  apply (process_once_reports_writes Plain.float_of_str Plain.repr_of_json config files
           true w (snd out) true).
  vm_compute. reflexivity.
Defined.

(** ** The state file within a pass *)

Section StateFile.

Variable float_of_str : string -> option Q.
Variable repr_of_json : json -> string.

Lemma keeps_update_cell_state_file spreadsheet_id range value :
  keeps state_file (update_cell spreadsheet_id range value).
Proof.
  intros w r w' Hrun. unfold update_cell in Hrun.
  destruct (_ ≫= _); injection Hrun as _ <-; reflexivity.
Qed.

Lemma keeps_update_cells_state_file spreadsheet_id worksheet cells value :
  keeps state_file (update_cells spreadsheet_id worksheet cells value).
Proof.
  induction cells as [|extra_cell rest IH]; [apply keeps_ret|].
  cbn [update_cells]. apply keeps_bind; [apply keeps_update_cell_state_file|].
  intros _. exact IH.
Qed.

Lemma keeps_process_run_state_file config run acc :
  keeps state_file (process_run float_of_str config run acc).
Proof.
  assert (Hframe : forall cache titles svc log file cache' titles' log',
             state_file (World cache' titles' svc log' file)
             = state_file (World cache titles svc log file))
    by reflexivity.
  unfold process_run. destruct acc as [state updated].
  destruct (scenario_entry state (scenario run)) as [scenario_state state1].
  apply keeps_bind.
  { apply keeps_try_google, keeps_resolve_target_cell, Hframe. }
  intros [[[ws sc] lc]|]; [|apply keeps_ret].
  apply keeps_bind; [apply keeps_get_numeric_cell, Hframe|]. intros sheet_value.
  destruct (_ && _); [apply keeps_ret|].
  apply keeps_bind; [apply keeps_find_mirror_cells, Hframe|]. intros mirror_cells.
  apply keeps_bind; [apply keeps_update_cell_state_file|]. intros _.
  apply keeps_bind; [apply keeps_update_cells_state_file|]. intros _.
  apply keeps_ret.
Qed.

Lemma keeps_process_runs_state_file config new_runs : forall acc,
  keeps state_file (process_runs float_of_str config new_runs acc).
Proof.
  induction new_runs as [|run rest IH]; intros acc; [apply keeps_ret|].
  cbn [process_runs]. apply keeps_bind; [apply keeps_process_run_state_file|].
  exact IH.
Qed.

Lemma suffix_length {A} (n : nat) (l : list A) : (length (Py.suffix n l) <= n)%nat.
Proof. unfold Py.suffix. rewrite length_drop. lia. Qed.

End StateFile.

(** X13. The state is written at the end of a pass only. A pass that raises,
    be it a state file that cannot be used, an error of [find_mirror_cells]
    or a failed write, leaves state.json as it found it, whatever was
    written to the sheet before. *)
Theorem failed_pass_keeps_state_file (float_of_str : string -> option Q)
    (repr_of_json : json -> string) (config : AppConfig) (files : list stats_file)
    (skip_processed : bool) (w w' : world) (e : exn) :
  process_once float_of_str repr_of_json config files skip_processed w = (Raise e, w') ->
  state_file w' = state_file w.
Proof.
  unfold process_once.
  destruct (load_state float_of_str repr_of_json (state_file w)) as [state|e0].
  - destruct (_collect_runs float_of_str files (processed_files state) skip_processed)
      as [[new_runs processed_paths]|e1]; [|intros [= _ <-]; reflexivity].
    destruct new_runs as [|run rest]; [discriminate|].
    unfold bind at 1.
    destruct (process_runs float_of_str config (run :: rest) (state, false) w)
      as [[[state1 updated1]|e1] w1] eqn:E; [discriminate|].
    intros [= _ <-].
    exact (keeps_process_runs_state_file float_of_str config _ _ _ _ _ E).
  - intros [= _ <-]. reflexivity.
Qed.

Lemma failed_pass_keeps_state_file_witness :
  let config := mkAppConfig "sid" ["High Score"%string] None in
  let files :=
    [ mkStatsFile "a.csv" (Some [ ["Scenario:"; "Close Range"]; ["Score:"; "120"] ]) None ]%string in
  let saved :=
    state_payload
      (mkAppState
         {[ "Close Range"%string :=
              mkScenarioState None (Some "Main"%string) (Some "B9"%string)
                (Some "A2"%string) ]} []) in
  let w := World ∅ ∅
             {[ "sid"%string :=
                  [("Main"%string,
                    [ [CStr "Scenario"; CStr "High Score"];
                      [CStr "Close Range"; CStr ""] ])] ]} [] (Some saved) in
  state_file
    (snd (process_once Plain.float_of_str Plain.repr_of_json config files true w))
  = state_file w.
Proof.
  intros config files saved w.
  apply (failed_pass_keeps_state_file Plain.float_of_str Plain.repr_of_json config files
           true w _ (UnboundLocalError "row")).
  vm_compute. reflexivity.
Defined.

(** X14. Every pass that completes writes a state whose list of processed
    files has at most 500 entries. *)
Theorem completed_pass_bounds_processed_files (float_of_str : string -> option Q)
    (repr_of_json : json -> string) (config : AppConfig) (files : list stats_file)
    (skip_processed : bool) (w w' : world) (updated : bool) :
  process_once float_of_str repr_of_json config files skip_processed w
  = (Ok updated, w') ->
  exists state',
    state_file w' = Some (state_payload state')
    /\ (length (processed_files state') <= 500)%nat.
Proof.
  unfold process_once.
  destruct (load_state float_of_str repr_of_json (state_file w)) as [state|e];
    [|discriminate].
  destruct (_collect_runs float_of_str files (processed_files state) skip_processed)
    as [[new_runs processed_paths]|e0]; [|discriminate].
  destruct new_runs as [|run rest].
  - intros [= _ <-]. eexists. split; [reflexivity|]. apply suffix_length.
  - unfold bind at 1.
    destruct (process_runs float_of_str config (run :: rest) (state, false) w)
      as [[[state1 updated1]|e] w1]; [|discriminate].
    intros [= _ <-]. eexists. split; [reflexivity|]. apply suffix_length.
Qed.

Lemma completed_pass_bounds_processed_files_witness :
  let config := mkAppConfig "sid" ["High Score"%string] None in
  let files := [ mkStatsFile "a.csv" None None ] in
  let w := World ∅ ∅ ∅ [] None in
  exists state',
    state_file
      (snd (process_once Plain.float_of_str Plain.repr_of_json config files true w))
    = Some (state_payload state')
    /\ (length (processed_files state') <= 500)%nat.
Proof.
  intros config files w.
  apply (completed_pass_bounds_processed_files Plain.float_of_str Plain.repr_of_json
           config files true w _ false).
  vm_compute. reflexivity.
Defined.

(** X15. A state file whose top level is not an object stops the pass before
    anything else happens: [process_once] raises and the world is as it
    was. *)
Theorem unusable_state_file_stops_pass (float_of_str : string -> option Q)
    (repr_of_json : json -> string) (config : AppConfig) (files : list stats_file)
    (skip_processed : bool) (w : world) (raw : json) :
  state_file w = Some raw ->
  (forall items, raw <> JObj items) ->
  process_once float_of_str repr_of_json config files skip_processed w
  = (Raise AttributeError, w).
Proof.
  intros Hfile Hraw. unfold process_once, load_state. rewrite Hfile.
  destruct raw; try reflexivity. destruct (Hraw items eq_refl).
Qed.

Lemma unusable_state_file_stops_pass_witness :
  let w := World ∅ ∅ ∅ [] (Some (JArr [])) in
  process_once Plain.float_of_str Plain.repr_of_json
    (mkAppConfig "sid" [] None) [mkStatsFile "a.csv" None None] true w
  = (Raise AttributeError, w).
Proof.
  intros w.
  apply (unusable_state_file_stops_pass Plain.float_of_str Plain.repr_of_json
           (mkAppConfig "sid" [] None) [mkStatsFile "a.csv" None None] true w (JArr []));
    [reflexivity|discriminate].
Defined.

(** ** Runs that are skipped, runs that always write *)

(** X16. When the cells of a run cannot be resolved, the run is skipped: the
    pass goes on with the flag [updated] as it was, nothing is written, and
    the scenario keeps (or gets) its entry in the state. *)
Theorem unresolved_run_is_skipped (float_of_str : string -> option Q)
    (config : AppConfig) (run : ScenarioRun) (state : AppState) (updated : bool)
    (w w1 : world) (msg : string) :
  let entry := (scenario_entry state (scenario run)).1 in
  resolve_target_cell (sheet_id config) (scenario run) (score_header_candidates config)
    (worksheet_filter config) (worksheet entry) (score_cell entry) (scenario_cell entry) w
  = (Raise (GoogleClientError msg), w1) ->
  process_run float_of_str config run (state, updated) w
  = (Ok ((scenario_entry state (scenario run)).2, updated), w1)
  /\ scenarios (scenario_entry state (scenario run)).2 !! scenario run = Some entry
  /\ service w1 = service w
  /\ exists l, calls w1 = (calls w ++ l)%list /\ Forall is_read l.
Proof.
  intros entry Hres. subst entry. repeat split.
  - unfold process_run.
    destruct (scenario_entry state (scenario run)) as [scenario_state state1].
    cbn [fst snd] in *. unfold bind, try_google. rewrite Hres. reflexivity.
  - unfold scenario_entry. destruct (scenarios state !! scenario run) eqn:E.
    + exact E.
    + cbn. apply lookup_insert_eq.
  - exact (keeps_resolve_target_cell service (fun _ _ _ _ _ _ _ _ => eq_refl)
             _ _ _ _ _ _ _ _ _ _ Hres).
  - exact (proj1 (spec_resolve_target_cell _ _ _ _ _ _ _ _ _ _ Hres)).
Qed.

Lemma unresolved_run_is_skipped_witness :
  let config := mkAppConfig "sid" ["High Score"%string] None in
  let run := mkScenarioRun "Close Range" 95 "b.csv" in
  let state := mkAppState ∅ [] in
  let w := World ∅ ∅ {[ "sid"%string := [("Main"%string, [[CStr "Scenario"]])] ]} [] None in
  let w1 := snd (resolve_target_cell "sid" "Close Range" ["High Score"%string] None
                   None None None w) in
  process_run Plain.float_of_str config run (state, false) w
  = (Ok ((scenario_entry state (scenario run)).2, false), w1)
  /\ scenarios (scenario_entry state (scenario run)).2 !! scenario run
     = Some (scenario_entry state (scenario run)).1
  /\ service w1 = service w
  /\ exists l, calls w1 = (calls w ++ l)%list /\ Forall is_read l.
Proof.
  intros config run state w w1.
  apply (unresolved_run_is_skipped Plain.float_of_str config run state false w w1
           (not_found_message "Close Range")).
  vm_compute. reflexivity.
Defined.

(** X17. The first run seen for a scenario, and any run that beats the
    recorded best, is always written: once its cells are resolved and the
    run completes, the primary write carries the run's score, even when the
    sheet already shows that value. *)
Theorem new_best_is_always_written (float_of_str : string -> option Q)
    (config : AppConfig) (run : ScenarioRun) (state : AppState) (updated : bool)
    (w w1 w2 w' : world) (ws sc lc : string) (sheet_value : option Q)
    (acc' : AppState * bool) :
  let entry := (scenario_entry state (scenario run)).1 in
  is_new_personal_best (best_score entry) (score run) = true ->
  try_google
    (resolve_target_cell (sheet_id config) (scenario run)
       (score_header_candidates config) (worksheet_filter config)
       (worksheet entry) (score_cell entry) (scenario_cell entry)) w
  = (Ok (Some (ws, sc, lc)), w1) ->
  get_numeric_cell float_of_str (sheet_id config) ws sc w1 = (Ok sheet_value, w2) ->
  process_run float_of_str config run (state, updated) w = (Ok acc', w') ->
  acc'.2 = true
  /\ exists mirrors,
      calls w'
      = (calls w2
         ++ ValuesUpdate (sheet_id config) (range_ref ws sc) (score run)
            :: List.map (fun m => ValuesUpdate (sheet_id config) (range_ref ws m) (score run))
                 mirrors)%list.
Proof.
  intros entry Hnew Hres Hnum Hrun.
  destruct (process_run_writes float_of_str config run state updated w ws sc lc w1
              sheet_value w2 acc' w' Hres Hnum Hrun) as [mirrors Hcalls].
  fold entry in Hcalls. rewrite Hnew, andb_false_r in Hcalls.
  unfold target_value in Hcalls. rewrite Hnew in Hcalls.
  split; [|exists mirrors; exact Hcalls].
  destruct acc' as [state' updated'].
  destruct (process_run_updated float_of_str _ _ _ _ _ _ _ _ Hrun) as (l & Hl & ->).
  cbn [snd].
  destruct (spec_try_google _ _ _ (spec_resolve_target_cell _ _ _ _ _ _ _) _ _ _ Hres)
    as [(l1 & Hl1 & _) _].
  destruct (spec_get_numeric_cell float_of_str _ _ _ _ _ _ Hnum) as [(l2 & Hl2 & _) _].
  rewrite Hl2, Hl1, Hl, <- !app_assoc in Hcalls.
  apply app_inv_head in Hcalls. rewrite Hcalls, !has_update_app. cbn.
  rewrite !orb_true_r. reflexivity.
Qed.

Lemma new_best_is_always_written_witness :
  let config := mkAppConfig "sid" ["High Score"%string] None in
  let run := mkScenarioRun "Close Range" 120 "a.csv" in
  let state := mkAppState ∅ [] in
  let w := World ∅ ∅
             {[ "sid"%string :=
                  [("Main"%string,
                    [ [CStr "Scenario"; CStr "High Score"];
                      [CStr "Close Range"; CStr "120"] ])] ]} [] None in
  let w1 := snd (resolve_target_cell "sid" "Close Range" ["High Score"%string] None
                   None None None w) in
  let out := process_run Plain.float_of_str config run (state, false) w in
  let acc' := match fst out with Ok a => a | Raise _ => (state, false) end in
  acc'.2 = true
  /\ exists mirrors,
      calls (snd out)
      = (calls w1
         ++ ValuesUpdate "sid" (range_ref "Main" "B2") 120
            :: List.map (fun m => ValuesUpdate "sid" (range_ref "Main" m) 120) mirrors)%list.
Proof.
  intros config run state w w1 out acc'.
  apply (new_best_is_always_written Plain.float_of_str config run state false
           w w1 w1 (snd out) "Main" "B2" "A2" (Some 120%Q) acc'); reflexivity.
Defined.

(** ** Collecting runs *)

Section Collect.

Variable float_of_str : string -> option Q.

Lemma collect_loop_extends skip files : forall (processed_set : gset string)
    processed_paths runs out,
  (forall x, x ∈ processed_set <-> x ∈ processed_paths) ->
  collect_loop float_of_str skip files processed_set processed_paths runs = Ok out ->
  exists added,
    out.2 = (processed_paths ++ added)%list
    /\ NoDup added
    /\ forall x, x ∈ added ->
                 (x ∉ processed_paths) /\ exists f, f ∈ files /\ path f = x.
Proof.
  induction files as [|file files IH];
    intros processed_set processed_paths runs out Hset.
  - intros [= <-]. exists []. cbn. rewrite app_nil_r. split; [reflexivity|].
    split; [apply NoDup_nil_2|]. intros x Hx. inversion Hx.
  - cbn [collect_loop].
    assert (Hkeep : forall runs',
               collect_loop float_of_str skip files processed_set processed_paths runs'
               = Ok out ->
               exists added,
                 out.2 = (processed_paths ++ added)%list
                 /\ NoDup added
                 /\ forall x, x ∈ added ->
                      (x ∉ processed_paths)
                      /\ exists f, f ∈ file :: files /\ path f = x).
    { intros runs' Hout.
      destruct (IH processed_set processed_paths runs' out Hset Hout)
        as (added & Heq & Hnd & Hadded).
      exists added. split; [exact Heq|]. split; [exact Hnd|]. intros x Hx.
      destruct (Hadded x Hx) as [Hnot (f & Hf & Hp)]. split; [exact Hnot|].
      exists f. split; [apply list_elem_of_further, Hf|exact Hp]. }
    destruct (bool_decide (path file ∈ processed_set)) eqn:Ein.
    + destruct skip; cbn [andb]; [apply Hkeep|].
      destruct (parse_stats_file float_of_str file) as [run|[]];
        try discriminate; apply Hkeep.
    + apply bool_decide_eq_false in Ein. rewrite andb_false_r.
      assert (Hset' : forall x,
                 x ∈ ({[path file]} ∪ processed_set : gset string)
                 <-> x ∈ (processed_paths ++ [path file])%list).
      { intros x. rewrite elem_of_union, elem_of_singleton, elem_of_app,
          list_elem_of_singleton, Hset. tauto. }
      assert (Hnew : forall runs',
                 collect_loop float_of_str skip files ({[path file]} ∪ processed_set)
                   (processed_paths ++ [path file]) runs'
                 = Ok out ->
                 exists added,
                   out.2 = (processed_paths ++ added)%list
                   /\ NoDup added
                   /\ forall x, x ∈ added ->
                        (x ∉ processed_paths)
                        /\ exists f, f ∈ file :: files /\ path f = x).
      { intros runs' Hout.
        destruct (IH _ _ runs' out Hset' Hout) as (added & Heq & Hnd & Hadded).
        exists (path file :: added). rewrite Heq, <- app_assoc. split; [reflexivity|].
        split.
        - apply NoDup_cons. split; [|exact Hnd]. intros Hin.
          destruct (Hadded _ Hin) as [Hnot _]. apply Hnot, elem_of_app. right.
          apply list_elem_of_here.
        - intros x [->|Hx]%elem_of_cons.
          + split; [rewrite <- Hset; exact Ein|].
            exists file. split; [apply list_elem_of_here|reflexivity].
          + destruct (Hadded x Hx) as [Hnot (f & Hf & Hp)]. split.
            * intros Hin. apply Hnot, elem_of_app. left. exact Hin.
            * exists f. split; [apply list_elem_of_further, Hf|exact Hp]. }
      destruct (parse_stats_file float_of_str file) as [run|[]];
        try discriminate; apply Hnew.
Qed.

Lemma collect_loop_rescan files : forall (processed_set : gset string)
    processed_paths runs out,
  collect_loop float_of_str false files processed_set processed_paths runs = Ok out ->
  out.1
  = (runs
     ++ omap (fun f => match parse_stats_file float_of_str f with
                       | Ok run => Some run
                       | Raise _ => None
                       end) files)%list.
Proof.
  induction files as [|file files IH]; intros processed_set processed_paths runs out.
  - intros [= <-]. cbn. rewrite app_nil_r. reflexivity.
  - cbn [collect_loop andb omap list_omap].
    destruct (bool_decide _);
      destruct (parse_stats_file float_of_str file) as [run|[]];
      try discriminate;
      intros Hout; rewrite (IH _ _ _ _ Hout); rewrite <- ?app_assoc; reflexivity.
Qed.

Lemma collect_loop_fresh files : forall (processed_set : gset string)
    processed_paths runs out (known : list string) run,
  (forall x, x ∈ known -> x ∈ processed_set) ->
  collect_loop float_of_str true files processed_set processed_paths runs = Ok out ->
  run ∈ out.1 ->
  run ∈ runs
  \/ exists f, f ∈ files /\ (path f ∉ known)
               /\ parse_stats_file float_of_str f = Ok run.
Proof.
  induction files as [|file files IH];
    intros processed_set processed_paths runs out known run Hknown.
  - intros [= <-] H. left. exact H.
  - cbn [collect_loop andb].
    assert (Hlift : forall ps pp rs,
               (forall x, x ∈ known -> x ∈ ps) ->
               collect_loop float_of_str true files ps pp rs = Ok out ->
               run ∈ out.1 ->
               run ∈ rs
               \/ exists f, f ∈ file :: files /\ (path f ∉ known)
                            /\ parse_stats_file float_of_str f = Ok run).
    { intros ps pp rs Hps Hout Hrun.
      destruct (IH _ _ _ _ known run Hps Hout Hrun) as [H|(f & Hf & Hn & Hp)];
        [left; exact H|].
      right. exists f. split; [apply list_elem_of_further, Hf|]. split; assumption. }
    destruct (bool_decide (path file ∈ processed_set)) eqn:Ein; [apply Hlift, Hknown|].
    apply bool_decide_eq_false in Ein.
    assert (Hknown' : forall x, x ∈ known -> x ∈ ({[path file]} ∪ processed_set : gset string))
      by (intros x Hx; apply elem_of_union; right; apply Hknown, Hx).
    destruct (parse_stats_file float_of_str file) as [parsed|[]] eqn:Ep;
      try discriminate; [|apply Hlift, Hknown'].
    intros Hout Hrun.
    destruct (Hlift _ _ _ Hknown' Hout Hrun) as [H|H]; [|right; exact H].
    apply elem_of_app in H as [H|H%list_elem_of_singleton]; [left; exact H|].
    right. exists file. subst parsed.
    split; [apply list_elem_of_here|]. split; [|exact Ep].
    intros Hin. apply Ein, Hknown, Hin.
Qed.

End Collect.

(** X18. [_collect_runs] only appends to the processed list: the list it
    returns is the list it was given followed by paths of files found that
    were not in it, each added once. *)
Theorem collect_runs_extends_processed (float_of_str : string -> option Q)
    (files : list stats_file) (processed : list string) (skip_processed : bool)
    (runs : list ScenarioRun) (paths : list string) :
  _collect_runs float_of_str files processed skip_processed = Ok (runs, paths) ->
  exists added,
    paths = (processed ++ added)%list
    /\ NoDup added
    /\ forall x, x ∈ added -> (x ∉ processed) /\ exists f, f ∈ files /\ path f = x.
Proof.
  unfold _collect_runs. intros Hout.
  apply (collect_loop_extends float_of_str skip_processed files
           (list_to_set processed) processed [] (runs, paths)); [|exact Hout].
  intros x. apply elem_of_list_to_set.
Qed.

Lemma collect_runs_extends_processed_witness :
  let old := mkStatsFile "a.csv" (Some [ ["Scenario:"; "Close Range"] ])%string None in
  let new :=
    mkStatsFile "b.csv" (Some [ ["Scenario:"; "Close Range"]; ["Score:"; "95"] ])%string
      None in
  exists added,
    ["z.csv"; "a.csv"; "b.csv"]%string = (["z.csv"; "a.csv"]%string ++ added)%list
    /\ NoDup added
    /\ forall x, x ∈ added ->
         (x ∉ ["z.csv"; "a.csv"]%string) /\ exists f, f ∈ [old; new] /\ path f = x.
Proof.
  intros old new.
  apply (collect_runs_extends_processed Plain.float_of_str [old; new]
           ["z.csv"; "a.csv"]%string false [mkScenarioRun "Close Range" 95 "b.csv"]).
  vm_compute. reflexivity.
Defined.

(** X19. Without [skip_processed], as in the upload command, every file found
    is parsed again: the runs returned are the parse results of the files
    that parse, in the order of the files, whatever the processed list
    holds. *)
Theorem collect_runs_rescans_everything (float_of_str : string -> option Q)
    (files : list stats_file) (processed : list string)
    (runs : list ScenarioRun) (paths : list string) :
  _collect_runs float_of_str files processed false = Ok (runs, paths) ->
  runs
  = omap (fun f => match parse_stats_file float_of_str f with
                   | Ok run => Some run
                   | Raise _ => None
                   end) files.
Proof.
  unfold _collect_runs. intros Hout.
  exact (collect_loop_rescan float_of_str files _ _ _ _ Hout).
Qed.

Lemma collect_runs_rescans_everything_witness :
  let old := mkStatsFile "a.csv" (Some [ ["Scenario:"; "Close Range"] ])%string None in
  let new :=
    mkStatsFile "b.csv" (Some [ ["Scenario:"; "Close Range"]; ["Score:"; "95"] ])%string
      None in
  [mkScenarioRun "Close Range" 95 "b.csv"]
  = omap (fun f => match parse_stats_file Plain.float_of_str f with
                   | Ok run => Some run
                   | Raise _ => None
                   end) [old; new].
Proof.
  intros old new.
  apply (collect_runs_rescans_everything Plain.float_of_str [old; new]
           ["a.csv"; "b.csv"]%string [mkScenarioRun "Close Range" 95 "b.csv"]
           ["a.csv"; "b.csv"]%string).
  vm_compute. reflexivity.
Defined.

(** X20. With [skip_processed], no run returned stems from a file whose path
    is in the processed list. *)
Theorem collect_runs_skips_processed (float_of_str : string -> option Q)
    (files : list stats_file) (processed : list string)
    (runs : list ScenarioRun) (paths : list string) (run : ScenarioRun) :
  _collect_runs float_of_str files processed true = Ok (runs, paths) ->
  run ∈ runs ->
  exists f,
    f ∈ files /\ (path f ∉ processed) /\ parse_stats_file float_of_str f = Ok run.
Proof.
  unfold _collect_runs. intros Hout Hrun.
  destruct (collect_loop_fresh float_of_str files _ _ _ (runs, paths) processed run
              (fun x Hx => proj2 (elem_of_list_to_set x processed) Hx) Hout Hrun)
    as [Hnil|H]; [inversion Hnil|exact H].
Qed.

Lemma collect_runs_skips_processed_witness :
  let old :=
    mkStatsFile "a.csv" (Some [ ["Scenario:"; "Close Range"]; ["Score:"; "120"] ])%string
      None in
  let new :=
    mkStatsFile "b.csv" (Some [ ["Scenario:"; "Close Range"]; ["Score:"; "95"] ])%string
      None in
  exists f,
    f ∈ [old; new] /\ (path f ∉ ["a.csv"%string])
    /\ parse_stats_file Plain.float_of_str f = Ok (mkScenarioRun "Close Range" 95 "b.csv").
Proof.
  intros old new.
  apply (collect_runs_skips_processed Plain.float_of_str [old; new] ["a.csv"%string]
           [mkScenarioRun "Close Range" 95 "b.csv"] ["a.csv"; "b.csv"]%string).
  - vm_compute. reflexivity.
  - apply list_elem_of_here.
Defined.

(** ** More on the persisted state *)

(** X21. What [save_state] writes is read back by [load_state] as the state
    saved, with [processed_files] cut to its last 500 entries, provided the
    text fields of the entries are trimmed and not empty. *)
Theorem save_then_load (float_of_str : string -> option Q)
    (repr_of_json : json -> string) (state : AppState) (w : world) :
  (forall name entry, scenarios state !! name = Some entry -> entry_trimmed entry) ->
  load_state float_of_str repr_of_json (state_file (snd (save_state state w)))
  = Ok (mkAppState (scenarios state) (Py.suffix 500 (processed_files state))).
Proof. intros Htrim. cbn. apply load_state_payload, Htrim. Qed.

Lemma save_then_load_witness :
  let state :=
    mkAppState
      {[ "Close Range"%string :=
           mkScenarioState (Some 120%Q) (Some "Main"%string) (Some "B2"%string)
             (Some "A2"%string) ]} ["a.csv"%string] in
  load_state Plain.float_of_str Plain.repr_of_json
    (state_file (snd (save_state state (World ∅ ∅ ∅ [] None))))
  = Ok (mkAppState (scenarios state) (Py.suffix 500 (processed_files state))).
Proof.
  intros state.
  apply (save_then_load Plain.float_of_str Plain.repr_of_json state).
  intros name entry Hin. unfold state in Hin. cbn [scenarios] in Hin.
  apply lookup_singleton_Some in Hin as [_ <-].
  repeat split; discriminate.
Defined.

(** X22. Whatever the state file holds, the worksheet and the two cell
    references of every entry [load_state] returns are either absent or
    trimmed and not empty. *)
Theorem loaded_fields_are_trimmed (float_of_str : string -> option Q)
    (repr_of_json : json -> string) (file : option json) (state : AppState)
    (name : string) (entry : ScenarioState) :
  load_state float_of_str repr_of_json file = Ok state ->
  scenarios state !! name = Some entry ->
  entry_trimmed entry.
Proof. intros Hload. exact (load_state_trimmed _ _ _ _ Hload name entry). Qed.

Lemma loaded_fields_are_trimmed_witness :
  entry_trimmed (mkScenarioState None (Some "Main"%string) None (Some "A2"%string)).
Proof.
  eapply (loaded_fields_are_trimmed Plain.float_of_str Plain.repr_of_json
            (Some (JObj [ ("scenarios"%string,
                           JObj [ ("Close Range"%string,
                                   JObj [ ("worksheet", JStr "  Main ");
                                          ("score_cell", JStr "   ");
                                          ("scenario_cell", JStr "A2") ]%string) ]) ])))
    with (name := "Close Range"%string);
    vm_compute; reflexivity.
Defined.

(** ** The score headers of a configuration *)

Lemma combine_headers_spec candidates : forall combined_headers (seen : gset string),
  (forall x, x ∈ seen <-> x ∈ Str.lower <$> combined_headers) ->
  NoDup (Str.lower <$> combined_headers) ->
  exists added,
    combine_headers candidates combined_headers seen
    = (combined_headers ++ added)%list
    /\ sublist added candidates
    /\ NoDup (Str.lower <$> (combined_headers ++ added)%list)
    /\ forall c, c ∈ candidates ->
                 Str.lower c ∈ Str.lower <$> (combined_headers ++ added)%list.
Proof.
  induction candidates as [|candidate rest IH]; intros combined_headers seen Hseen Hnd.
  - exists []. rewrite app_nil_r. cbn [combine_headers].
    split; [reflexivity|]. split; [constructor|]. split; [exact Hnd|].
    intros c Hc. inversion Hc.
  - cbn [combine_headers].
    destruct (bool_decide (Str.lower candidate ∈ seen)) eqn:Ein.
    + apply bool_decide_eq_true in Ein.
      destruct (IH combined_headers seen Hseen Hnd) as (added & Heq & Hsub & Hnd' & Hall).
      exists added. split; [exact Heq|]. split; [apply sublist_cons, Hsub|].
      split; [exact Hnd'|].
      intros c [->|Hc]%elem_of_cons; [|apply Hall, Hc].
      rewrite fmap_app, elem_of_app. left. apply Hseen, Ein.
    + apply bool_decide_eq_false in Ein.
      assert (Hseen' : forall x,
                 x ∈ ({[Str.lower candidate]} ∪ seen : gset string)
                 <-> x ∈ Str.lower <$> (combined_headers ++ [candidate])%list).
      { intros x. rewrite elem_of_union, elem_of_singleton, fmap_app, elem_of_app, Hseen.
        cbn. rewrite list_elem_of_singleton. tauto. }
      assert (Hnd1 : NoDup (Str.lower <$> (combined_headers ++ [candidate])%list)).
      { rewrite fmap_app. apply NoDup_app. split; [exact Hnd|].
        split; [|apply NoDup_singleton].
        intros x Hx Hx'%list_elem_of_singleton. subst x. apply Ein, Hseen, Hx. }
      destruct (IH _ _ Hseen' Hnd1) as (added & Heq & Hsub & Hnd' & Hall).
      exists (candidate :: added). rewrite Heq, <- !app_assoc. cbn [app].
      split; [reflexivity|]. split; [apply sublist_skip, Hsub|].
      rewrite <- app_assoc in Hnd', Hall. cbn [app] in Hnd', Hall.
      split; [exact Hnd'|].
      intros c [->|Hc]%elem_of_cons; [|apply Hall, Hc].
      rewrite fmap_app, elem_of_app. right. cbn. apply list_elem_of_here.
Qed.

Lemma combine_headers_kept_first candidates : forall before combined_headers
    (seen : gset string),
  (forall x, x ∈ seen <-> x ∈ Str.lower <$> before) ->
  kept_first before combined_headers ->
  kept_first (before ++ candidates)%list (combine_headers candidates combined_headers seen).
Proof.
  induction candidates as [|candidate rest IH]; intros before combined_headers seen Hseen Hk.
  - rewrite app_nil_r. exact Hk.
  - cbn [combine_headers].
    replace (before ++ candidate :: rest)%list with ((before ++ [candidate]) ++ rest)%list
      by (rewrite <- app_assoc; reflexivity).
    destruct (bool_decide (Str.lower candidate ∈ seen)) eqn:Ein.
    + apply bool_decide_eq_true in Ein. apply IH.
      * intros x. rewrite fmap_app, elem_of_app, Hseen. cbn.
        rewrite list_elem_of_singleton. split; [tauto|].
        intros [H | ->]; [exact H|apply Hseen, Ein].
      * apply kept_first_dup; [exact Hk|apply Hseen, Ein].
    + apply bool_decide_eq_false in Ein. apply IH.
      * intros x. rewrite elem_of_union, elem_of_singleton, fmap_app, elem_of_app, Hseen.
        cbn. rewrite list_elem_of_singleton. tauto.
      * apply kept_first_new; [exact Hk|]. intros Hin. apply Ein, Hseen, Hin.
Qed.

(** X23. The score headers [load_config] builds come from the
    configuration: the user's headers are what [_ensure_list] makes of
    "score_headers" when that is given and not empty, of
    "score_header_candidates" otherwise. The result reads the user's headers
    and then the built-in ones, and keeps each header that no earlier one
    equals up to case: it has no two headers equal up to case and holds every
    user header and every built-in header up to case. *)
Theorem config_headers_merged (repr_of_json : json -> string)
    (contents : list (string * json)) (headers : list string) :
  config_headers repr_of_json contents = Some headers ->
  exists user_headers,
    (forall v, jget "score_headers" contents = Some v -> json_truthy v = true ->
               _ensure_list repr_of_json (Some v) = Some user_headers)
    /\ ((forall v, jget "score_headers" contents = Some v -> json_truthy v = false) ->
        _ensure_list repr_of_json (jget "score_header_candidates" contents)
        = Some user_headers)
    /\ kept_first (user_headers ++ DEFAULT_SCORE_HEADERS)%list headers
    /\ sublist headers (user_headers ++ DEFAULT_SCORE_HEADERS)%list
    /\ NoDup (Str.lower <$> headers)
    /\ forall c, c ∈ (user_headers ++ DEFAULT_SCORE_HEADERS)%list ->
                 Str.lower c ∈ Str.lower <$> headers.
Proof.
  unfold config_headers.
  destruct (_ensure_list repr_of_json _) as [user_headers|] eqn:Euser; [|discriminate].
  intros [= <-]. exists user_headers.
  split; [|split].
  - intros v Hv Htrue. rewrite Hv, Htrue in Euser. exact Euser.
  - intros Hfalse. destruct (jget "score_headers" contents) as [v|]; [|exact Euser].
    rewrite (Hfalse v eq_refl) in Euser. exact Euser.
  - split.
    + apply (combine_headers_kept_first (user_headers ++ DEFAULT_SCORE_HEADERS)%list
               [] [] ∅); [|constructor].
      intros x. cbn. rewrite elem_of_empty. split; [tauto|]. intros H. inversion H.
    + destruct (combine_headers_spec (user_headers ++ DEFAULT_SCORE_HEADERS)%list [] ∅)
        as (added & Heq & Hsub & Hnd & Hall).
      * intros x. cbn. rewrite elem_of_empty. split; [tauto|]. intros H. inversion H.
      * constructor.
      * cbn [app] in *. rewrite Heq.
        split; [exact Hsub|]. split; [exact Hnd|exact Hall].
Qed.

Lemma config_headers_merged_witness :
  let contents :=
    [ ("score_headers"%string, JArr []);
      ("score_header_candidates"%string, JStr "pb, My Score,,HIGH SCORE ") ] in
  let headers := ["pb"; "My Score"; "HIGH SCORE"; "Your Score"; "Score"]%string in
  exists user_headers,
    (forall v, jget "score_headers" contents = Some v -> json_truthy v = true ->
               _ensure_list Plain.repr_of_json (Some v) = Some user_headers)
    /\ ((forall v, jget "score_headers" contents = Some v -> json_truthy v = false) ->
        _ensure_list Plain.repr_of_json (jget "score_header_candidates" contents)
        = Some user_headers)
    /\ kept_first (user_headers ++ DEFAULT_SCORE_HEADERS)%list headers
    /\ sublist headers (user_headers ++ DEFAULT_SCORE_HEADERS)%list
    /\ NoDup (Str.lower <$> headers)
    /\ forall c, c ∈ (user_headers ++ DEFAULT_SCORE_HEADERS)%list ->
                 Str.lower c ∈ Str.lower <$> headers.
Proof.
  intros contents headers.
  apply (config_headers_merged Plain.repr_of_json contents headers).
  reflexivity.
Defined.

(** X24. [_ensure_list] returns only strings that are trimmed and not empty. *)
Theorem ensure_list_entries_are_trimmed (repr_of_json : json -> string)
    (value : option json) (entries : list string) (s : string) :
  _ensure_list repr_of_json value = Some entries ->
  s ∈ entries ->
  Str.strip s = s /\ s <> "".
Proof.
  assert (Hkeep : forall (T : Type) (f : T -> string) (items : list T),
             s ∈ List.map (fun item => Str.strip (f item))
                   (List.filter (fun item => nonblank (f item)) items) ->
             Str.strip s = s /\ s <> "").
  { intros T f items Hin. apply list_elem_of_In, in_map_iff in Hin as (item & <- & Hitem).
    apply filter_In in Hitem as [_ Hnb]. split; [apply StripFacts.strip_idemp|].
    intros He. unfold nonblank in Hnb. rewrite He in Hnb. discriminate. }
  unfold _ensure_list. destruct value as [v|].
  - destruct v; try discriminate; intros [= <-].
    + intros H. inversion H.
    + apply (Hkeep string (fun piece => piece)).
    + apply (Hkeep json (py_str repr_of_json)).
  - intros [= <-] H. inversion H.
Qed.

Lemma ensure_list_entries_are_trimmed_witness :
  Str.strip "My Score" = "My Score"%string /\ "My Score"%string <> ""%string.
Proof.
  apply (ensure_list_entries_are_trimmed Plain.repr_of_json
           (Some (JStr " pb , My Score ,, ")) ["pb"; "My Score"]%string "My Score");
    [reflexivity|].
  apply list_elem_of_further, list_elem_of_here.
Defined.

(** ** Displayed scores *)

Lemma inject_Z_sub (a b : Z) : (inject_Z (a - b) == inject_Z a - inject_Z b)%Q.
Proof. unfold Z.sub. rewrite inject_Z_plus, inject_Z_opp. reflexivity. Qed.

Lemma py_round_near (value : Q) (n : Z) :
  (Qabs (value - inject_Z n) <= tolerance)%Q -> py_round value = n.
Proof.
  intros Hnear. apply Qabs_Qle_condition in Hnear as [Hlo Hhi].
  unfold tolerance in *.
  pose proof (Qfloor_le value) as Hfl. pose proof (Qlt_floor value) as Hfu.
  rewrite inject_Z_plus in Hfu.
  unfold py_round. set (below := Qfloor value) in *.
  assert (Hcases : below = n \/ below = n - 1).
  { assert (H1 : (inject_Z below < inject_Z (n + 1))%Q)
      by (rewrite inject_Z_plus; change (inject_Z 1) with 1%Q; lra).
    assert (H2 : (inject_Z (n - 1) < inject_Z (below + 1))%Q).
    { rewrite inject_Z_plus, inject_Z_sub. change (inject_Z 1) with 1%Q in *. lra. }
    rewrite <- Zlt_Qlt in H1, H2. lia. }
  change (inject_Z 1) with 1%Q in Hfu.
  destruct Hcases as [-> | ->].
  - destruct (Qcompare_spec (value - inject_Z n) (1 # 2)) as [H|H|H];
      [lra|reflexivity|lra].
  - pose proof (inject_Z_sub n 1) as He. change (inject_Z 1) with 1%Q in He.
    destruct (Qcompare_spec (value - inject_Z (n - 1)) (1 # 2)) as [H|H|H];
      [lra|lra|lia].
Qed.

(** X25. A score within 1e-6 of an integer is displayed as that integer,
    without a fractional part. *)
Theorem format_score_near_integer (float_repr : Q -> string) (value : Q) (n : Z) :
  (Qabs (value - inject_Z n) <= tolerance)%Q ->
  _format_score float_repr value = Str.of_Z n.
Proof.
  intros Hnear. unfold _format_score. rewrite (py_round_near value n Hnear).
  assert (isclose value (inject_Z n) 0 tolerance = true) as ->; [|reflexivity].
  unfold isclose. apply orb_true_intro. right. apply Qle_bool_iff.
  eapply Qle_trans; [exact Hnear|]. apply Q.le_max_r.
Qed.

Lemma format_score_near_integer_witness :
  _format_score (fun _ => "?"%string) (1199999999 # 10000000) = Str.of_Z 120.
Proof.
  apply (format_score_near_integer (fun _ => "?"%string) (1199999999 # 10000000) 120).
  vm_compute. discriminate.
Defined.

(** ** Parsed runs *)

Lemma parse_rows_trimmed (float_of_str : string -> option Q) (score_field : string)
    (reader : list (list string)) (ending : option exn) :
  forall scenario score found value,
    (forall n, scenario = Some n -> Str.strip n = n) ->
    parse_rows float_of_str score_field reader ending scenario score
    = Ok (found, value) ->
    forall n, found = Some n -> Str.strip n = n.
Proof.
  induction reader as [|row reader IH]; intros scenario score found value Hsc Hrun.
  - cbn in Hrun. destruct ending; [discriminate|]. injection Hrun as <- <-. exact Hsc.
  - cbn [parse_rows] in Hrun. destruct row as [|first [|cell tl]].
    + eapply IH; eassumption.
    + destruct (Str.is_empty (Str.strip first)); [eapply IH; eassumption|].
      destruct (Py.truthy scenario && bool_decide (is_Some score)).
      * injection Hrun as <- <-. exact Hsc.
      * eapply IH; eassumption.
    + destruct (Str.is_empty (Str.strip first)); [eapply IH; eassumption|].
      set (scenario' := if (Str.strip first =? "Scenario:")%string
                        then Some (Str.strip cell) else scenario) in *.
      assert (Hsc' : forall n, scenario' = Some n -> Str.strip n = n).
      { subst scenario'. destruct (Str.strip first =? "Scenario:")%string; [|exact Hsc].
        intros n [= <-]. apply StripFacts.strip_idemp. }
      destruct (if (Str.strip first =? score_field ++ ":")%string
                then match float_of_str cell with
                     | Some x => Ok (Some x)
                     | None =>
                         Raise (StatsParseError
                                  ("Could not parse score value '" ++ cell
                                   ++ "' as float"))
                     end
                else Ok score) as [score'|e]; [|discriminate].
      destruct (Py.truthy scenario' && bool_decide (is_Some score')).
      * injection Hrun as <- <-. exact Hsc'.
      * eapply IH; eassumption.
Qed.

(** X26. A run read from a stats file names a scenario: the name is not
    empty, carries no surrounding white space, and the run records the path
    of the file it was read from. *)
Theorem parsed_run_names_a_scenario (float_of_str : string -> option Q)
    (file : stats_file) (run : ScenarioRun) :
  parse_stats_file float_of_str file = Ok run ->
  scenario run <> "" /\ Str.strip (scenario run) = scenario run
  /\ source_file run = path file.
Proof.
  unfold parse_stats_file. destruct (rows file) as [reader|]; [|discriminate].
  destruct (parse_rows float_of_str "Score" reader (failure file) None None)
    as [[found value]|e] eqn:Erows; [|discriminate].
  destruct (Py.truthy found) eqn:Etruthy; cbn [negb]; [|discriminate].
  destruct found as [name|]; [|discriminate].
  destruct value as [x|]; [|discriminate].
  intros [= <-]. cbn [scenario source_file]. split; [|split; [|reflexivity]].
  - intros ->. discriminate.
  - eapply parse_rows_trimmed; [|exact Erows|reflexivity]. discriminate.
Qed.

Lemma parsed_run_names_a_scenario_witness :
  "Close Range"%string <> ""%string
  /\ Str.strip "Close Range" = "Close Range"%string
  /\ "a.csv"%string = "a.csv"%string.
Proof.
  apply (parsed_run_names_a_scenario Plain.float_of_str
           (mkStatsFile "a.csv"
              (Some [ ["Kills:"; "3"]; ["Scenario:"; "  Close Range "]; ["Score:"; "120"] ])
              None)
           (mkScenarioRun "Close Range" 120 "a.csv")).
  reflexivity.
Defined.

Lemma parse_rows_done (float_of_str : string -> option Q) (score_field : string)
    (reader more : list (list string)) (ending ending' : option exn) :
  forall scenario score found value,
    Py.truthy scenario && bool_decide (is_Some score) = false ->
    parse_rows float_of_str score_field reader ending scenario score
    = Ok (found, value) ->
    Py.truthy found && bool_decide (is_Some value) = true ->
    parse_rows float_of_str score_field (reader ++ more)%list ending' scenario score
    = Ok (found, value).
Proof.
  induction reader as [|row reader IH]; intros scenario score found value Hopen Hrun Hdone.
  - cbn in Hrun. destruct ending; [discriminate|]. injection Hrun as <- <-. congruence.
  - cbn [app parse_rows] in *. destruct row as [|first [|cell tl]].
    + apply IH; assumption.
    + destruct (Str.is_empty (Str.strip first)); [apply IH; assumption|].
      rewrite Hopen in *. apply IH; assumption.
    + destruct (Str.is_empty (Str.strip first)); [apply IH; assumption|].
      destruct (if (Str.strip first =? score_field ++ ":")%string
                then match float_of_str cell with
                     | Some x => Ok (Some x)
                     | None =>
                         Raise (StatsParseError
                                  ("Could not parse score value '" ++ cell
                                   ++ "' as float"))
                     end
                else Ok score) as [score'|e]; [|discriminate].
      destruct (Py.truthy _ && bool_decide (is_Some score')) eqn:Enow;
        [exact Hrun|apply IH; assumption].
Qed.

(** X27. Once a stats file gives a run, what follows changes nothing: the
    file with any further rows appended, well formed or not, gives the same
    run, however the reading would have ended. *)
Theorem parsed_run_ignores_later_rows (float_of_str : string -> option Q)
    (name : string) (reader more : list (list string)) (ending ending' : option exn)
    (run : ScenarioRun) :
  parse_stats_file float_of_str (mkStatsFile name (Some reader) ending) = Ok run ->
  parse_stats_file float_of_str (mkStatsFile name (Some (reader ++ more)%list) ending')
  = Ok run.
Proof.
  unfold parse_stats_file. cbn [rows path failure].
  destruct (parse_rows float_of_str "Score" reader ending None None)
    as [[found value]|e] eqn:Erows; [|discriminate].
  destruct (Py.truthy found) eqn:Etruthy; cbn [negb]; [|discriminate].
  destruct found as [scn|]; [|discriminate].
  destruct value as [x|]; [|discriminate].
  intros [= <-].
  rewrite (parse_rows_done float_of_str "Score" reader more ending ending' None None
             (Some scn) (Some x));
    [rewrite Etruthy; reflexivity|reflexivity|exact Erows|].
  rewrite Etruthy. reflexivity.
Qed.

Lemma parsed_run_ignores_later_rows_witness :
  parse_stats_file Plain.float_of_str
    (mkStatsFile "a.csv"
       (Some ([ ["Scenario:"; "Close Range"]; ["Score:"; "120"] ]
              ++ [ ["Score:"; "abc"]; ["Scenario:"; ""] ])%list)
       (Some UnicodeDecodeError))
  = Ok (mkScenarioRun "Close Range" 120 "a.csv").
Proof.
  apply (parsed_run_ignores_later_rows Plain.float_of_str "a.csv"
           [ ["Scenario:"; "Close Range"]; ["Score:"; "120"] ]
           [ ["Score:"; "abc"]; ["Scenario:"; ""] ] None (Some UnicodeDecodeError)
           (mkScenarioRun "Close Range" 120 "a.csv")).
  reflexivity.
Defined.
